(** * essh: the Lua configuration layer (essh/lualib.go)

    A shallow embedding of the functions of [essh/lualib.go] that turn Lua
    values into hosts, tasks and cached modules, and the properties the
    specification states about them.

    Lua values are the values of gopher-lua.  Strings are Go strings, that is
    byte sequences, which is what Rocq's [string] is.  Reference values
    (tables, functions, userdata) carry the address that gives them their
    identity.  [lua.LNumber] is a float64: the embedding keeps the integral
    numbers, the ones a table index can be; fractions, NaN and the infinities
    have no representation here. *)

From stdpp Require Import gmap strings list fin_maps pretty.
From Stdlib Require Import ZArith Lia.

#[local] Set Warnings "-register-all".
Local Open Scope string_scope.
Local Open Scope list_scope.
Local Open Scope Z_scope.

(** ** Lua values *)

Definition ptr := positive.
Bind Scope positive_scope with ptr.

Inductive LValue : Type :=
| LNil
| LBool (b : bool)
| LNumber (n : Z)
| LString (s : string)
| LFunction (p : ptr)
| LUserData (p : ptr)
| LThread (p : ptr)
| LChannel (p : ptr)
| LTable (p : ptr) (entries : list (LValue * LValue)).

(** The content of a [*lua.LTable]: its entries in the order [ForEach]
    visits them. *)
Abbreviation Table := (list (LValue * LValue)).

Fixpoint LValue_eqb (a b : LValue) {struct a} : bool :=
  match a, b with
  | LNil, LNil => true
  | LBool x, LBool y => Bool.eqb x y
  | LNumber x, LNumber y => (x =? y)%Z
  | LString x, LString y => String.eqb x y
  | LFunction p, LFunction q => (p =? q)%positive
  | LUserData p, LUserData q => (p =? q)%positive
  | LThread p, LThread q => (p =? q)%positive
  | LChannel p, LChannel q => (p =? q)%positive
  | LTable p t, LTable q u =>
      (p =? q)%positive &&
      (fix entries_eqb (t u : Table) {struct t} : bool :=
         match t, u with
         | [], [] => true
         | (k, v) :: t', (k', v') :: u' =>
             LValue_eqb k k' && LValue_eqb v v' && entries_eqb t' u'
         | _, _ => false
         end) t u
  | _, _ => false
  end.

Definition isNil (v : LValue) : bool :=
  match v with LNil => true | _ => false end.

(** ** Tables (gopher-lua's [LTable], as far as lualib.go uses it) *)

(** [tb.RawGet(key)]: the value stored under [key], [LNil] when absent. *)
Fixpoint RawGet (t : Table) (key : LValue) : LValue :=
  match t with
  | [] => LNil
  | (k, v) :: t' => if LValue_eqb k key then v else RawGet t' key
  end.

Definition RawGetString (t : Table) (key : string) : LValue :=
  RawGet t (LString key).

Definition RawGetInt (t : Table) (key : Z) : LValue :=
  RawGet t (LNumber key).

(** [tb.RawSet(key, value)]: overwrite the entry of [key], or add one. *)
Fixpoint RawSet (t : Table) (key value : LValue) : Table :=
  match t with
  | [] => [(key, value)]
  | (k, v) :: t' =>
      if LValue_eqb k key then (k, value) :: t' else (k, v) :: RawSet t' key value
  end.

(** [tb.ForEach(cb)] calls [cb] on every entry whose value is not nil. *)
Definition ForEach (t : Table) : Table :=
  filter (λ kv, isNil kv.2 = false) t.

(** How many of the keys [i], [i+1], ... are present in a row, probing at
    most [fuel] of them. *)
Fixpoint probe (t : Table) (fuel : nat) (i : Z) : nat :=
  match fuel with
  | O => O
  | S fuel' => if isNil (RawGetInt t i) then O else S (probe t fuel' (i + 1))
  end.

(** Modelled from the spec: gopher-lua's [LTable.MaxN], which toGoValue
    calls, is not part of this repository's sources.  The spec gives it as
    "the largest integer n such that keys 1..n are all present and contiguous
    from 1": probe the keys 1, 2, ... and stop at the first absent one.  A
    table of [length t] entries holds at most [length t] keys, which bounds
    the probe. *)
Definition MaxN (t : Table) : nat := probe t (length t) 1.

(** A table as Lua builds it: no nil key, no nil value, no key twice. *)
Definition wfTable (t : Table) : Prop :=
  NoDup (map fst t) ∧ Forall (λ kv, kv.1 ≠ LNil ∧ kv.2 ≠ LNil) t.

(** Induction over values that reaches into the entries of a table. *)
Section LValue_induction.
Variable P : LValue → Prop.
Hypothesis HNil : P LNil.
Hypothesis HBool : ∀ b, P (LBool b).
Hypothesis HNumber : ∀ n, P (LNumber n).
Hypothesis HString : ∀ s, P (LString s).
Hypothesis HFunction : ∀ p, P (LFunction p).
Hypothesis HUserData : ∀ p, P (LUserData p).
Hypothesis HThread : ∀ p, P (LThread p).
Hypothesis HChannel : ∀ p, P (LChannel p).
Hypothesis HTable :
  ∀ p t, Forall (λ kv, P kv.1 ∧ P kv.2) t → P (LTable p t).

Fixpoint LValue_nested_ind (v : LValue) : P v :=
  match v with
  | LNil => HNil
  | LBool b => HBool b
  | LNumber n => HNumber n
  | LString s => HString s
  | LFunction p => HFunction p
  | LUserData p => HUserData p
  | LThread p => HThread p
  | LChannel p => HChannel p
  | LTable p t =>
      HTable p t
        ((fix go (t : Table) : Forall (λ kv, P kv.1 ∧ P kv.2) t :=
            match t with
            | [] => List.Forall_nil _
            | (k, x) :: t' =>
                List.Forall_cons _ (k, x) t'
                  (conj (LValue_nested_ind k) (LValue_nested_ind x)) (go t')
            end) t)
  end.
End LValue_induction.

Lemma LValue_eqb_eq (a b : LValue) : LValue_eqb a b = true ↔ a = b.
Proof.
  revert b. induction a as [| | | | | | | |p t IH] using LValue_nested_ind;
    intros [| | | | | | | |q u]; simpl; try (split; [discriminate|congruence]);
    try (split; congruence).
  - rewrite Bool.eqb_true_iff. split; congruence.
  - rewrite Z.eqb_eq. split; congruence.
  - rewrite String.eqb_eq. split; congruence.
  - rewrite Pos.eqb_eq. split; congruence.
  - rewrite Pos.eqb_eq. split; congruence.
  - rewrite Pos.eqb_eq. split; congruence.
  - rewrite Pos.eqb_eq. split; congruence.
  - rewrite andb_true_iff, Pos.eqb_eq.
    assert (Hent : ∀ u,
      (fix entries_eqb (t u : Table) {struct t} : bool :=
         match t, u with
         | [], [] => true
         | (k, v) :: t', (k', v') :: u' =>
             LValue_eqb k k' && LValue_eqb v v' && entries_eqb t' u'
         | _, _ => false
         end) t u = true ↔ t = u).
    { clear u. induction IH as [|[k v] t' [Hk Hv] _ IHt]; intros [|[k' v'] u'];
        try (split; [discriminate|congruence]); try (split; congruence).
      rewrite !andb_true_iff. simpl in Hk, Hv. rewrite Hk, Hv, IHt.
      split; [intros [[-> ->] ->]; reflexivity | intros [= -> -> ->]; auto]. }
    rewrite Hent. split; [intros [-> ->]; reflexivity | intros [= -> ->]; auto].
Qed.

#[global] Instance LValue_eq_dec : EqDecision LValue.
Proof.
  intros a b. destruct (LValue_eqb a b) eqn:E.
  - left. by apply LValue_eqb_eq.
  - right. intros H. apply LValue_eqb_eq in H. congruence.
Defined.

Lemma LValue_eqb_refl (a : LValue) : LValue_eqb a a = true.
Proof. by apply LValue_eqb_eq. Qed.

Lemma LValue_eqb_neq (a b : LValue) : a ≠ b → LValue_eqb a b = false.
Proof.
  intros H. destruct (LValue_eqb a b) eqn:E; [|done].
  apply LValue_eqb_eq in E. done.
Qed.

(** ** Go values: what [toGoValue] returns as [interface{}] *)

Inductive GoValue : Type :=
| GoNil
| GoBool (b : bool)
| GoString (s : string)
| GoFloat64 (n : Z)
| GoMap (m : gmap string GoValue)
| GoSlice (l : list GoValue)
| GoLValue (v : LValue).

(** ** Go strings and runes *)

Definition rune := Z.

Definition byteOf (a : Ascii.ascii) : Z := Z.of_N (Ascii.N_of_ascii a).

Definition RuneError : rune := 0xFFFD.

Definition inRange (lo hi b : Z) : bool := (lo <=? b) && (b <=? hi).

(** The rune a [for _, c := range s] loop yields first on a non-empty
    string: UTF-8 decoding, [RuneError] on an invalid or truncated
    sequence. *)
Definition decodeRune (a : Ascii.ascii) (rest : string) : rune :=
  let b0 := byteOf a in
  if b0 <? 0x80 then b0
  else if inRange 0xC2 0xDF b0 then
    match rest with
    | String a1 _ =>
        let b1 := byteOf a1 in
        if inRange 0x80 0xBF b1
        then Z.lor (Z.shiftl (Z.land b0 0x1F) 6) (Z.land b1 0x3F)
        else RuneError
    | _ => RuneError
    end
  else if inRange 0xE0 0xEF b0 then
    match rest with
    | String a1 (String a2 _) =>
        let b1 := byteOf a1 in
        let b2 := byteOf a2 in
        let lo := if b0 =? 0xE0 then 0xA0 else 0x80 in
        let hi := if b0 =? 0xED then 0x9F else 0xBF in
        if inRange lo hi b1 && inRange 0x80 0xBF b2
        then Z.lor (Z.shiftl (Z.land b0 0x0F) 12)
               (Z.lor (Z.shiftl (Z.land b1 0x3F) 6) (Z.land b2 0x3F))
        else RuneError
    | _ => RuneError
    end
  else if inRange 0xF0 0xF4 b0 then
    match rest with
    | String a1 (String a2 (String a3 _)) =>
        let b1 := byteOf a1 in
        let b2 := byteOf a2 in
        let b3 := byteOf a3 in
        let lo := if b0 =? 0xF0 then 0x90 else 0x80 in
        let hi := if b0 =? 0xF4 then 0x8F else 0xBF in
        if inRange lo hi b1 && inRange 0x80 0xBF b2 && inRange 0x80 0xBF b3
        then Z.lor (Z.shiftl (Z.land b0 0x07) 18)
               (Z.lor (Z.shiftl (Z.land b1 0x3F) 12)
                  (Z.lor (Z.shiftl (Z.land b2 0x3F) 6) (Z.land b3 0x3F)))
        else RuneError
    | _ => RuneError
    end
  else RuneError.

(** registerHost's loop
<<
    var firstChar rune
    for _, c := range k.String() { firstChar = c; break }
>>
    On the empty string the body never runs and [firstChar] stays 0. *)
Definition firstChar (s : string) : rune :=
  match s with
  | EmptyString => 0
  | String a rest => decodeRune a rest
  end.

(** The upper-case letters of Latin-1: A-Z, U+00C0-U+00D6, U+00D8-U+00DE. *)
Definition latin1Upper (r : rune) : bool :=
  inRange 0x41 0x5A r || inRange 0xC0 0xD6 r || inRange 0xD8 0xDE r.

(** ** Hosts, tasks, modules *)

(** A value of [Host.Hooks]: the closure registerHook builds around a Lua
    function, or a command string. *)
Inductive Hook : Type :=
| NativeCallback (hookFn : ptr)
| RemoteCommand (hookString : string).

(** The Host struct is declared in another file of the repository; these
    are the fields registerHost fills. *)
Module Host.
Record t : Type := mk {
  Name : string;
  Config : Table;
  Hooks : gmap string Hook;
  Description : string;
  Hidden : bool;
  Tags : list string
}.
Definition setHook (h : t) (hookPoint : string) (hook : Hook) : t :=
  mk (Name h) (Config h) (<[hookPoint := hook]> (Hooks h)) (Description h)
     (Hidden h) (Tags h).
Definition setDescription (h : t) (d : string) : t :=
  mk (Name h) (Config h) (Hooks h) d (Hidden h) (Tags h).
Definition setHidden (h : t) (b : bool) : t :=
  mk (Name h) (Config h) (Hooks h) (Description h) b (Tags h).
Definition setTags (h : t) (tags : list string) : t :=
  mk (Name h) (Config h) (Hooks h) (Description h) (Hidden h) tags.
End Host.

(** Modelled from the spec: the Task struct, [NewTask] and [IsRemoteTask]
    live in a file of the repository that is not among the sources.  The
    spec lists the fields, says that the constructor yields a zero-valued
    Task and that a task is remote when [On] or [Foreach] is populated.
    [Prepare] holds the Lua function the closure was built around. *)
Module Task.
Record t : Type := mk {
  Name : string;
  Description : string;
  Pty : bool;
  Parallel : bool;
  Privileged : bool;
  Script : string;
  File : string;
  On : list string;
  Foreach : list string;
  Prefix : string;
  Prepare : option ptr
}.
Definition setName (k : t) (x : string) : t :=
  mk x (Description k) (Pty k) (Parallel k) (Privileged k) (Script k)
     (File k) (On k) (Foreach k) (Prefix k) (Prepare k).
Definition setDescription (k : t) (x : string) : t :=
  mk (Name k) x (Pty k) (Parallel k) (Privileged k) (Script k)
     (File k) (On k) (Foreach k) (Prefix k) (Prepare k).
Definition setPty (k : t) (x : bool) : t :=
  mk (Name k) (Description k) x (Parallel k) (Privileged k) (Script k)
     (File k) (On k) (Foreach k) (Prefix k) (Prepare k).
Definition setParallel (k : t) (x : bool) : t :=
  mk (Name k) (Description k) (Pty k) x (Privileged k) (Script k)
     (File k) (On k) (Foreach k) (Prefix k) (Prepare k).
Definition setPrivileged (k : t) (x : bool) : t :=
  mk (Name k) (Description k) (Pty k) (Parallel k) x (Script k)
     (File k) (On k) (Foreach k) (Prefix k) (Prepare k).
Definition setScript (k : t) (x : string) : t :=
  mk (Name k) (Description k) (Pty k) (Parallel k) (Privileged k) x
     (File k) (On k) (Foreach k) (Prefix k) (Prepare k).
Definition setFile (k : t) (x : string) : t :=
  mk (Name k) (Description k) (Pty k) (Parallel k) (Privileged k) (Script k)
     x (On k) (Foreach k) (Prefix k) (Prepare k).
Definition setOn (k : t) (x : list string) : t :=
  mk (Name k) (Description k) (Pty k) (Parallel k) (Privileged k) (Script k)
     (File k) x (Foreach k) (Prefix k) (Prepare k).
Definition setForeach (k : t) (x : list string) : t :=
  mk (Name k) (Description k) (Pty k) (Parallel k) (Privileged k) (Script k)
     (File k) (On k) x (Prefix k) (Prepare k).
Definition setPrefix (k : t) (x : string) : t :=
  mk (Name k) (Description k) (Pty k) (Parallel k) (Privileged k) (Script k)
     (File k) (On k) (Foreach k) x (Prepare k).
Definition setPrepare (k : t) (x : option ptr) : t :=
  mk (Name k) (Description k) (Pty k) (Parallel k) (Privileged k) (Script k)
     (File k) (On k) (Foreach k) (Prefix k) x.

Definition NewTask : t :=
  mk "" "" false false false "" "" [] [] "" None.

Definition IsRemoteTask (k : t) : bool :=
  negb (Nat.eqb (length (On k)) 0) || negb (Nat.eqb (length (Foreach k)) 0).
End Task.

(** Modelled from the spec: the Module struct and [NewModule] are in a file
    of the repository that is not among the sources.  The spec gives a
    module a [Name], the key of the registry, and a [Value], the cached
    result of its index script. *)
Module Module.
Record t : Type := mk {
  Name : string;
  Value : LValue
}.
Definition NewModule (name : string) : t := mk name LNil.
Definition setValue (m : t) (v : LValue) : t := mk (Name m) v.
End Module.

(** The execution state a prepare callback sees; [taskContextPayload]
    reads and writes its one field. *)
Record TaskContext : Type := { Payload : string }.

(** ** Errors and aborts *)

(** Go [error] values: those lualib.go makes with [fmt.Errorf], kept as the
    format and its arguments, and those it gets from a collaborator. *)
Inductive error : Type :=
| Errorf (format : string) (args : list LValue)
| Foreign (msg : string).

(** The ways a function of lualib.go ends without returning. *)
Inductive Abort : Type :=
| RaiseError (format : string) (args : list error)
| Panic (err : error)
| TypeError (n : nat) (expected : string).

(** Calls that leave the process or re-enter the interpreter. *)
Inductive Call : Type :=
| CallLoad (name : string) (update : bool)
| CallStat (path : string)
| CallDoFile (path : string)
| CallFunction (fn : ptr).

#[global] Instance Call_eq_dec : EqDecision Call.
Proof. solve_decision. Defined.

(** ** The first rune of a key *)

(** A Go string holds a code point as its UTF-8 bytes (RFC 3629): one byte
    below U+0080, two below U+0800, three below U+10000, four up to
    U+10FFFF.  The surrogates U+D800-U+DFFF are not code points of a
    string. *)
Definition validRune (r : rune) : Prop :=
  0 ≤ r ≤ 0x10FFFF ∧ ¬ (0xD800 ≤ r ≤ 0xDFFF).

Definition byteChar (b : Z) : Ascii.ascii := Ascii.ascii_of_N (Z.to_N b).

Definition encodeRune (r : rune) : string :=
  if r <? 0x80 then String (byteChar r) ""
  else if r <? 0x800 then
    String (byteChar (0xC0 + r / 64))
      (String (byteChar (0x80 + r mod 64)) "")
  else if r <? 0x10000 then
    String (byteChar (0xE0 + r / 4096))
      (String (byteChar (0x80 + (r / 64) mod 64))
         (String (byteChar (0x80 + r mod 64)) ""))
  else
    String (byteChar (0xF0 + r / 262144))
      (String (byteChar (0x80 + (r / 4096) mod 64))
         (String (byteChar (0x80 + (r / 64) mod 64))
            (String (byteChar (0x80 + r mod 64)) ""))).

Lemma byteOf_byteChar (b : Z) : 0 ≤ b < 256 → byteOf (byteChar b) = b.
Proof.
  intros Hb. unfold byteOf, byteChar.
  rewrite Ascii.N_ascii_embedding by lia. lia.
Qed.

Lemma inRange_true (lo hi b : Z) : lo ≤ b ≤ hi → inRange lo hi b = true.
Proof.
  intros [Hlo Hhi]. unfold inRange.
  apply andb_true_intro. split; by apply Z.leb_le.
Qed.

Lemma inRange_false (lo hi b : Z) : b < lo ∨ hi < b → inRange lo hi b = false.
Proof.
  intros H. unfold inRange. apply andb_false_iff.
  destruct H; [left|right]; by apply Z.leb_gt.
Qed.

Lemma land_low_bits (x : Z) (n : Z) : 0 ≤ n → Z.land x (Z.ones n) = x mod 2 ^ n.
Proof. intros Hn. by apply Z.land_ones. Qed.

Lemma lor_shiftl_add (a c n : Z) :
  0 ≤ n → 0 ≤ c < 2 ^ n → Z.lor (Z.shiftl a n) c = a * 2 ^ n + c.
Proof.
  intros Hn Hc. rewrite Z.shiftl_mul_pow2 by done.
  assert (Hland : Z.land (a * 2 ^ n) c = 0).
  { apply Z.bits_inj'. intros k Hk. rewrite Z.land_spec, Z.bits_0.
    destruct (Z.lt_ge_cases k n) as [Hlt|Hge].
    - by rewrite Z.mul_pow2_bits_low.
    - rewrite <- (Z.mod_small c (2 ^ n)) by done.
      rewrite Z.mod_pow2_bits_high by lia. apply andb_false_r. }
  by rewrite <- Z.lxor_lor, <- Z.add_nocarry_lxor.
Qed.

Lemma append_String (a : Ascii.ascii) (s t : string) :
  String a s +:+ t = String a (s +:+ t).
Proof. reflexivity. Qed.

Lemma append_empty (t : string) : "" +:+ t = t.
Proof. reflexivity. Qed.

(** Decoding gives back the code point that was encoded, whatever
    follows it. *)
Lemma firstChar_encodeRune (r : rune) (rest : string) :
  validRune r → firstChar (encodeRune r +:+ rest) = r.
Proof.
  intros [[H0 H1] Hs]. unfold encodeRune.
  destruct (Z.ltb_spec r 0x80) as [L1|L1];
    [|destruct (Z.ltb_spec r 0x800) as [L2|L2];
      [|destruct (Z.ltb_spec r 0x10000) as [L3|L3]]];
    rewrite !append_String, append_empty; unfold firstChar, decodeRune; cbv zeta.
  - rewrite byteOf_byteChar by lia.
    by rewrite (proj2 (Z.ltb_lt r 0x80)).
  - assert (Hq : 2 ≤ r / 64 ≤ 31) by (Z.div_mod_to_equations; lia).
    assert (Hm : 0 ≤ r mod 64 < 64) by (Z.div_mod_to_equations; lia).
    rewrite !byteOf_byteChar by lia.
    rewrite (proj2 (Z.ltb_ge _ _)) by lia.
    rewrite (inRange_true 0xC2 0xDF), (inRange_true 0x80 0xBF) by lia.
    change 0x1F with (Z.ones 5). change 0x3F with (Z.ones 6).
    rewrite !land_low_bits by lia.
    rewrite lor_shiftl_add by (Z.div_mod_to_equations; lia).
    Z.div_mod_to_equations; lia.
  - assert (Hq : 0 ≤ r / 4096 ≤ 15) by (Z.div_mod_to_equations; lia).
    assert (Hm1 : 0 ≤ (r / 64) mod 64 < 64) by (Z.div_mod_to_equations; lia).
    assert (Hm2 : 0 ≤ r mod 64 < 64) by (Z.div_mod_to_equations; lia).
    rewrite !byteOf_byteChar by lia.
    rewrite (proj2 (Z.ltb_ge _ _)) by lia.
    rewrite (inRange_false 0xC2 0xDF) by lia.
    rewrite (inRange_true 0xE0 0xEF) by lia.
    assert (Hb1 : inRange (if 0xE0 + r / 4096 =? 0xE0 then 0xA0 else 0x80)
                    (if 0xE0 + r / 4096 =? 0xED then 0x9F else 0xBF)
                    (0x80 + (r / 64) mod 64) = true).
    { apply inRange_true.
      destruct (Z.eqb_spec (0xE0 + r / 4096) 0xE0),
               (Z.eqb_spec (0xE0 + r / 4096) 0xED);
        Z.div_mod_to_equations; lia. }
    rewrite Hb1, (inRange_true 0x80 0xBF) by lia. cbn [andb].
    change 0x0F with (Z.ones 4). change 0x3F with (Z.ones 6).
    rewrite !land_low_bits by lia.
    rewrite (lor_shiftl_add _ _ 6) by (Z.div_mod_to_equations; lia).
    rewrite lor_shiftl_add by (Z.div_mod_to_equations; lia).
    Z.div_mod_to_equations; lia.
  - assert (Hq : 0 ≤ r / 262144 ≤ 4) by (Z.div_mod_to_equations; lia).
    assert (Hm0 : 0 ≤ (r / 4096) mod 64 < 64) by (Z.div_mod_to_equations; lia).
    assert (Hm1 : 0 ≤ (r / 64) mod 64 < 64) by (Z.div_mod_to_equations; lia).
    assert (Hm2 : 0 ≤ r mod 64 < 64) by (Z.div_mod_to_equations; lia).
    rewrite !byteOf_byteChar by lia.
    rewrite (proj2 (Z.ltb_ge _ _)) by lia.
    rewrite (inRange_false 0xC2 0xDF), (inRange_false 0xE0 0xEF) by lia.
    rewrite (inRange_true 0xF0 0xF4) by lia.
    assert (Hb1 : inRange (if 0xF0 + r / 262144 =? 0xF0 then 0x90 else 0x80)
                    (if 0xF0 + r / 262144 =? 0xF4 then 0x8F else 0xBF)
                    (0x80 + (r / 4096) mod 64) = true).
    { apply inRange_true.
      destruct (Z.eqb_spec (0xF0 + r / 262144) 0xF0),
               (Z.eqb_spec (0xF0 + r / 262144) 0xF4);
        Z.div_mod_to_equations; lia. }
    rewrite Hb1, !(inRange_true 0x80 0xBF) by lia. cbn [andb].
    change 0x07 with (Z.ones 3). change 0x3F with (Z.ones 6).
    rewrite !land_low_bits by lia.
    rewrite (lor_shiftl_add _ _ 6) by (Z.div_mod_to_equations; lia).
    rewrite (lor_shiftl_add _ _ 12) by (Z.div_mod_to_equations; lia).
    rewrite lor_shiftl_add by (Z.div_mod_to_equations; lia).
    Z.div_mod_to_equations; lia.
Qed.

Section Lualib.

(** What the Go and Lua runtimes decide and lualib.go only calls. *)

(** Membership in [unicode.Upper] for the code points above U+00FF. *)
Variable upperBeyondLatin1 : rune → bool.
(** The [%p] rendering of an address. *)
Variable pointerString : ptr → string.
(** [fmt.Sprint] on the values whose rendering is not spelled out below. *)
Variable sprintOther : GoValue → string.

(** [unicode.IsUpper]: a property table for Latin-1, the [Upper] range
    table beyond it. *)
Definition IsUpper (r : rune) : bool :=
  if inRange 0 0xFF r then latin1Upper r else upperBeyondLatin1 r.

(** [LValue.String()]. *)
Definition LValue_String (v : LValue) : string :=
  match v with
  | LNil => "nil"
  | LBool true => "true"
  | LBool false => "false"
  | LNumber n => pretty n
  | LString s => s
  | LFunction p => "function: " +:+ pointerString p
  | LUserData p => "userdata: " +:+ pointerString p
  | LThread p => "thread: " +:+ pointerString p
  | LChannel p => "channel: " +:+ pointerString p
  | LTable p _ => "table: " +:+ pointerString p
  end.

Definition fmt_Sprint (v : GoValue) : string :=
  match v with
  | GoNil => "<nil>"
  | GoBool true => "true"
  | GoBool false => "false"
  | GoString s => s
  | _ => sprintOther v
  end.

(** ** toGoValue and the typed accessors *)

(** An entry of a table next to the conversions of its key and value. *)
Definition Converted : Type := LValue * LValue * (GoValue * GoValue).

Fixpoint lookupConverted (c : list Converted) (key : LValue) : GoValue :=
  match c with
  | [] => GoNil
  | (k, _, (_, gv)) :: c' =>
      if LValue_eqb k key then gv else lookupConverted c' key
  end.

Definition insertConverted (ret : gmap string GoValue) (e : Converted)
  : gmap string GoValue :=
  let '(_, v, (gk, gv)) := e in
  if isNil v then ret else <[fmt_Sprint gk := gv]> ret.

Fixpoint toGoValue (lv : LValue) : GoValue :=
  match lv with
  | LNil => GoNil
  | LBool b => GoBool b
  | LString s => GoString s
  | LNumber n => GoFloat64 n
  | LTable _ t =>
      let conv :=
        (fix convert (t : Table) : list Converted :=
           match t with
           | [] => []
           | (k, v) :: t' => (k, v, (toGoValue k, toGoValue v)) :: convert t'
           end) t in
      let maxn := MaxN t in
      if Nat.eqb maxn 0 then GoMap (foldl insertConverted ∅ conv)
      else GoSlice (map (λ i, lookupConverted conv (LNumber (Z.of_nat i)))
                      (seq 1 maxn))
  | v => GoLValue v
  end.

Definition toBool (v : LValue) : bool * bool :=
  match v with LBool lv => (lv, true) | _ => (false, false) end.

Definition toString (v : LValue) : string * bool :=
  match v with LString lv => (lv, true) | _ => ("", false) end.

Definition toMap (v : LValue) : option (gmap string GoValue) :=
  match toGoValue v with GoMap lv => Some lv | _ => None end.

Definition toSlice (v : LValue) : option (list GoValue) :=
  match toGoValue v with GoSlice lv => Some lv | _ => None end.

Definition toLFunction (v : LValue) : option ptr :=
  match v with LFunction lv => Some lv | _ => None end.

Definition toLTable (v : LValue) : option Table :=
  match v with LTable _ lv => Some lv | _ => None end.

(** ** The process state and the collaborators *)

(** Everything outside the process that the collaborators read or
    change: file system, network, interpreter globals. *)
Variable Env : Type.

(** The package-level variables [Hosts], [Tasks], [LoadedModules] and
    [updateFlag], the outside, and the value stack of the [*lua.LState]
    ([L.Get(1)] is its head, [L.Get(-1)] its last element). *)
Record World : Type := mkWorld {
  Hosts : list Host.t;
  Tasks : list Task.t;
  LoadedModules : gmap string Module.t;
  updateFlag : bool;
  env : Env;
  stack : list LValue
}.

Definition setHosts (w : World) (hs : list Host.t) : World :=
  mkWorld hs (Tasks w) (LoadedModules w) (updateFlag w) (env w) (stack w).
Definition setTasks (w : World) (ts : list Task.t) : World :=
  mkWorld (Hosts w) ts (LoadedModules w) (updateFlag w) (env w) (stack w).
Definition setLoadedModules (w : World) (ms : gmap string Module.t) : World :=
  mkWorld (Hosts w) (Tasks w) ms (updateFlag w) (env w) (stack w).
Definition setEnv (w : World) (e : Env) : World :=
  mkWorld (Hosts w) (Tasks w) (LoadedModules w) (updateFlag w) e (stack w).
Definition setStack (w : World) (st : list LValue) : World :=
  mkWorld (Hosts w) (Tasks w) (LoadedModules w) (updateFlag w) (env w) st.

(** [module.Load(update)], the Module Loader: fetches the module. *)
Variable module_Load : Module.t → bool → Env → option error * Env.
(** [module.IndexFile()]: the path of the module's index script. *)
Variable module_IndexFile : Module.t → string.
(** [os.Stat(path)], as far as its error goes. *)
Variable os_Stat : string → Env → option error.

(** [L.DoFile(path)]: the script may do anything to the process state,
    call back into lualib.go included; it fails, or leaves the values it
    returns on the stack. *)
Inductive DoFileResult : Type :=
| DoFileError (err : error) (w : World)
| DoFileOk (rets : list LValue) (w : World).
Variable L_DoFile : string → World → DoFileResult.

(** A protected call of a Lua function on a task context: it fails with
    an error value, or returns values; the callback may change the
    context's payload and the process state. *)
Inductive PCallResult : Type :=
| PCallError (err : error) (ctx : TaskContext) (w : World)
| PCallOk (rets : list LValue) (ctx : TaskContext) (w : World).
Variable L_PCall : ptr → TaskContext → World → PCallResult.

(** Constants of the repository that are declared outside lualib.go. *)
Variable DefaultPrefixRemote : string.
Variable DefaultPrefixLocal : string.

(** ** State, abort and call-log monad *)

Inductive Outcome (A : Type) : Type :=
| Returned (a : A) (w : World) (calls : list Call)
| Aborted (e : Abort) (w : World) (calls : list Call).
Arguments Returned {A} a w calls.
Arguments Aborted {A} e w calls.

Definition M (A : Type) : Type := World → Outcome A.

#[local] Instance M_ret : MRet M := λ A a w, Returned a w [].

#[local] Instance M_bind : MBind M := λ A B f m w,
  match m w with
  | Returned a w' c =>
      match f a w' with
      | Returned b w'' c' => Returned b w'' (c ++ c')
      | Aborted e w'' c' => Aborted e w'' (c ++ c')
      end
  | Aborted e w' c => Aborted e w' c
  end.

Definition abort {A} (e : Abort) : M A := λ w, Aborted e w [].
Definition get : M World := λ w, Returned w w [].
Definition put (w : World) : M unit := λ _, Returned tt w [].

Fixpoint forEachM {A S} (f : S → A → M S) (l : list A) (s : S) : M S :=
  match l with
  | [] => mret s
  | x :: l' => s' ← f s x; forEachM f l' s'
  end.

(** ** The [*lua.LState] operations lualib.go uses *)

(** [L.Get(idx)]: positive indices count from the bottom of the stack,
    negative ones from its top; [LNil] where there is no value. *)
Definition stackGet (st : list LValue) (idx : Z) : LValue :=
  if 0 <? idx then default LNil (st !! Z.to_nat (idx - 1))
  else if (idx <? 0) && (0 <=? Z.of_nat (length st) + idx)
       then default LNil (st !! Z.to_nat (Z.of_nat (length st) + idx))
       else LNil.

Definition L_Get (idx : Z) : M LValue :=
  w ← get; mret (stackGet (stack w) idx).

Definition L_Push (v : LValue) : M unit :=
  w ← get; put (setStack w (stack w ++ [v])).

Definition L_Pop (n : nat) : M unit :=
  w ← get; put (setStack w (take (length (stack w) - n) (stack w))).

(** [L.CheckString(n)]: a string, or a number rendered as one. *)
Definition L_CheckString (n : nat) : M string :=
  v ← L_Get (Z.of_nat n);
  match v with
  | LString lv => mret lv
  | LNumber _ => mret (LValue_String v)
  | _ => abort (TypeError n "string")
  end.

Definition L_RaiseError {A} (format : string) (args : list error) : M A :=
  abort (RaiseError format args).

Definition panic {A} (err : error) : M A := abort (Panic err).

(** The collaborators, run in the monad; each call is logged. *)
Definition Load (module : Module.t) (update : bool) : M (option error) :=
  λ w, let '(err, e) := module_Load module update (env w) in
       Returned err (setEnv w e) [CallLoad (Module.Name module) update].

Definition Stat (path : string) : M (option error) :=
  λ w, Returned (os_Stat path (env w)) w [CallStat path].

Definition DoFile (path : string) : M (option error) :=
  λ w, match L_DoFile path w with
       | DoFileError err w' =>
           Returned (Some err) (setStack w' (stack w)) [CallDoFile path]
       | DoFileOk rets w' =>
           Returned None (setStack w' (stack w ++ rets)) [CallDoFile path]
       end.

(** [L.CallByParam(lua.P{Fn: fn, NRet: 1, Protect: true}, lctx)] with
    [lctx] the userdata of [ctx]: on success exactly one value is pushed,
    the first one returned, or nil when the function returns none. *)
Definition CallByParam1 (fn : ptr) (ctx : TaskContext)
  : M (option error * TaskContext) :=
  λ w, match L_PCall fn ctx w with
       | PCallError err ctx' w' =>
           Returned (Some err, ctx') (setStack w' (stack w)) [CallFunction fn]
       | PCallOk rets ctx' w' =>
           Returned (None, ctx')
             (setStack w' (stack w ++ [default LNil (head rets)]))
             [CallFunction fn]
       end.

(** ** esshReset *)

Definition esshReset : M nat :=
  w ← get;
  put (setTasks w []);;
  w ← get;
  put (setHosts w []);;
  mret 0%nat.

(** ** Hooks *)

Definition registerHook (host : Host.t) (hookPoint : string) (hook : LValue)
  : Host.t * option error :=
  if isNil hook then (host, None)
  else
    match toLFunction hook with
    | Some hookFn => (Host.setHook host hookPoint (NativeCallback hookFn), None)
    | None =>
        match toString hook with
        | (hookString, true) =>
            (Host.setHook host hookPoint (RemoteCommand hookString), None)
        | _ => (host, Some (Errorf "invalid hook type %v" [hook]))
        end
    end.

Definition registerRemoteHook (host : Host.t) (hookPoint : string)
    (hook : LValue) : Host.t * option error :=
  if isNil hook then (host, None)
  else
    match toString hook with
    | (hookString, true) =>
        (Host.setHook host hookPoint (RemoteCommand hookString), None)
    | _ => (host, Some (Errorf "invalid hook type %v" [hook]))
    end.

(** [err := register...(...); if err != nil { panic(err) }] *)
Definition orPanic (r : Host.t * option error) : M Host.t :=
  match r.2 with
  | Some err => panic err
  | None => mret r.1
  end.

(** ** registerHost *)

(** The first loop of registerHost: copy into a new table the entries
    whose key starts with an upper-case rune. *)
Definition copyUpper (newConfig : Table) (kv : LValue * LValue) : Table :=
  if IsUpper (firstChar (LValue_String kv.1))
  then RawSet newConfig kv.1 kv.2
  else newConfig.

Definition appendTag (h : Host.t) (kv : LValue * LValue) : M Host.t :=
  match toString kv.2 with
  | (vs, true) => mret (Host.setTags h (Host.Tags h ++ [vs]))
  | _ => L_RaiseError "unsupported format of tags." []
  end.

Definition registerHost (name : string) (config : Table) : M unit :=
  let newConfig := foldl copyUpper [] (ForEach config) in
  let h := Host.mk name newConfig ∅ "" false [] in
  let hooks := RawGetString config "hooks" in
  h ← match toLTable hooks with
      | Some hookTb =>
          h ← orPanic (registerHook h "before" (RawGetString hookTb "before"));
          h ← orPanic (registerHook h "before_connect"
                         (RawGetString hookTb "before_connect"));
          h ← orPanic (registerRemoteHook h "after_connect"
                         (RawGetString hookTb "after_connect"));
          h ← orPanic (registerHook h "after" (RawGetString hookTb "after"));
          orPanic (registerHook h "after_disconnect"
                     (RawGetString hookTb "after_disconnect"))
      | None => mret h
      end;
  let description := RawGetString config "description" in
  let h := match toString description with
           | (descStr, true) => Host.setDescription h descStr
           | _ => h
           end in
  let hidden := RawGetString config "hidden" in
  let h := match toBool hidden with
           | (hiddenBool, true) => Host.setHidden h hiddenBool
           | _ => h
           end in
  let tags := RawGetString config "tags" in
  h ← match tags with
      | LTable _ tagsTb => forEachM appendTag (ForEach tagsTb) h
      | _ => mret h
      end;
  w ← get;
  put (setHosts w (Hosts w ++ [h])).

(** ** registerTask *)

(** [for _, target := range slice { if targetStr, ok := target.(string);
    ok { targets = append(targets, targetStr) } }] *)
Definition appendTarget (targets : list string) (target : GoValue)
  : list string :=
  match target with
  | GoString targetStr => targets ++ [targetStr]
  | _ => targets
  end.

(** The body of the closure registerTask stores in [task.Prepare]. *)
Definition Prepare (prepareFn : ptr) (ctx : TaskContext)
  : M (option error * TaskContext) :=
  r ← CallByParam1 prepareFn ctx;
  match r.1 with
  | Some err => mret (Some err, r.2)
  | None =>
      ret ← L_Get (-1);
      L_Pop 1;;
      match ret with
      | LNil => mret (None, r.2)
      | LBool retB =>
          if retB then mret (None, r.2)
          else mret (Some (Errorf "returned false from the prepare function." []),
                     r.2)
      | _ => mret (None, r.2)
      end
  end.

Definition registerTask (name : string) (config : Table) : M unit :=
  let task := Task.NewTask in
  let task := Task.setName task name in
  let description := RawGetString config "description" in
  let task := match toString description with
              | (descStr, true) => Task.setDescription task descStr
              | _ => task
              end in
  let pty := RawGetString config "pty" in
  let task := match toBool pty with
              | (ptyBool, true) => Task.setPty task ptyBool
              | _ => task
              end in
  let parallel := RawGetString config "parallel" in
  let task := match toBool parallel with
              | (parallelBool, true) => Task.setParallel task parallelBool
              | _ => task
              end in
  let privileged := RawGetString config "privileged" in
  let task := match toBool privileged with
              | (privilegedBool, true) => Task.setPrivileged task privilegedBool
              | _ => task
              end in
  let script := RawGetString config "script" in
  let task := match toString script with
              | (scriptStr, true) => Task.setScript task scriptStr
              | _ => task
              end in
  let file := RawGetString config "file" in
  let task := match toString file with
              | (fileStr, true) => Task.setFile task fileStr
              | _ => task
              end in
  (if negb (String.eqb (Task.File task) "") && negb (String.eqb (Task.Script task) "")
   then L_RaiseError
          "invalid task definition: can't use 'file' and 'script' at the same time." []
   else mret tt);;
  let on := RawGetString config "on" in
  let task := match toString on with
              | (onStr, true) => Task.setOn task [onStr]
              | _ =>
                  match toSlice on with
                  | Some onSlice =>
                      Task.setOn task (foldl appendTarget (Task.On task) onSlice)
                  | None => task
                  end
              end in
  let foreach := RawGetString config "foreach" in
  let task := match toString foreach with
              | (foreachStr, true) => Task.setForeach task [foreachStr]
              | _ =>
                  match toSlice foreach with
                  | Some foreachSlice =>
                      Task.setForeach task
                        (foldl appendTarget (Task.Foreach task) foreachSlice)
                  | None => task
                  end
              end in
  (if (1 <=? length (Task.Foreach task))%nat && (1 <=? length (Task.On task))%nat
   then L_RaiseError
          "invalid task definition: can't use 'foreach' and 'on' at the same time." []
   else mret tt);;
  let prefix := RawGetString config "prefix" in
  let task := match toBool prefix with
              | (prefixBool, true) =>
                  if prefixBool then
                    if Task.IsRemoteTask task
                    then Task.setPrefix task DefaultPrefixRemote
                    else Task.setPrefix task DefaultPrefixLocal
                  else task
              | _ =>
                  match toString prefix with
                  | (prefixStr, true) => Task.setPrefix task prefixStr
                  | _ => task
                  end
              end in
  let prepare := RawGetString config "prepare" in
  task ← (if isNil prepare then mret task
          else match prepare with
               | LFunction prepareFn => mret (Task.setPrepare task (Some prepareFn))
               | _ => L_RaiseError "prepare have to be function." []
               end);
  w ← get;
  put (setTasks w (Tasks w ++ [task])).

(** ** esshRequire *)

Definition esshRequire : M nat :=
  name ← L_CheckString 1;
  w ← get;
  module ←
    match LoadedModules w !! name with
    | Some module => mret module
    | None =>
        let module := Module.NewModule name in
        err ← Load module (updateFlag w);
        match err with
        | Some err => L_RaiseError "%v" [err]
        | None => mret tt
        end;;
        let indexFile := module_IndexFile module in
        err ← Stat indexFile;
        match err with
        | Some err => L_RaiseError "Could not load essh module: %v" [err]
        | None => mret tt
        end;;
        err ← DoFile indexFile;
        match err with
        | Some err => L_RaiseError "%v" [err]
        | None => mret tt
        end;;
        ret ← L_Get (-1);
        let module := Module.setValue module ret in
        w ← get;
        put (setLoadedModules w (<[name := module]> (LoadedModules w)));;
        mret module
    end;
  L_Push (Module.Value module);;
  mret 1%nat.

(** ** Tables: lookup facts *)

Lemma RawGet_present (t : Table) (k : LValue) :
  RawGet t k ≠ LNil → k ∈ map fst t.
Proof.
  induction t as [|[k' v] t IH]; simpl; [done|].
  destruct (LValue_eqb k' k) eqn:E.
  - apply LValue_eqb_eq in E as ->. intros _. apply list_elem_of_here.
  - intros H. apply list_elem_of_further, IH, H.
Qed.

(** Keys 1..n all present take n entries of the table. *)
Lemma present_bound (t : Table) (n : nat) :
  (∀ i : nat, (1 ≤ i ≤ n)%nat → RawGetInt t (Z.of_nat i) ≠ LNil) →
  (n ≤ length t)%nat.
Proof.
  intros Hpres.
  assert (Hlen : (length (map (λ i : nat, LNumber (Z.of_nat i)) (seq 1 n))
                  ≤ length (map fst t))%nat).
  { apply NoDup_incl_length.
    - apply NoDup_ListNoDup, NoDup_fmap_2; [|apply NoDup_seq].
      intros i j [= H]. lia.
    - intros k Hk. apply in_map_iff in Hk as [i [<- Hi]].
      apply in_seq in Hi. apply list_elem_of_In, RawGet_present, Hpres. lia. }
  rewrite !length_map, length_seq in Hlen. exact Hlen.
Qed.

Lemma probe_le (t : Table) (fuel : nat) (i : Z) : (probe t fuel i ≤ fuel)%nat.
Proof.
  revert i. induction fuel as [|fuel IH]; intros i; simpl; [lia|].
  destruct (isNil _); [lia|]. specialize (IH (i + 1)). lia.
Qed.

Lemma probe_present (t : Table) (fuel : nat) (i j : Z) :
  i ≤ j < i + Z.of_nat (probe t fuel i) → isNil (RawGetInt t j) = false.
Proof.
  revert i. induction fuel as [|fuel IH]; intros i; simpl; [lia|].
  destruct (isNil (RawGetInt t i)) eqn:E; simpl; [lia|].
  intros Hj. destruct (decide (j = i)) as [->|Hne]; [done|].
  apply (IH (i + 1)). lia.
Qed.

Lemma probe_stop (t : Table) (fuel : nat) (i : Z) :
  (probe t fuel i < fuel)%nat →
  isNil (RawGetInt t (i + Z.of_nat (probe t fuel i))) = true.
Proof.
  revert i. induction fuel as [|fuel IH]; intros i; simpl; [lia|].
  destruct (isNil (RawGetInt t i)) eqn:E; simpl.
  - intros _. by rewrite Z.add_0_r.
  - intros Hlt. rewrite Nat2Z.inj_succ.
    replace (i + Z.succ (Z.of_nat (probe t fuel (i + 1))))
      with (i + 1 + Z.of_nat (probe t fuel (i + 1))) by lia.
    apply IH. lia.
Qed.

Lemma isNil_true (v : LValue) : isNil v = true ↔ v = LNil.
Proof. destruct v; simpl; split; congruence. Qed.

Lemma isNil_false (v : LValue) : isNil v = false ↔ v ≠ LNil.
Proof. destruct v; simpl; split; congruence. Qed.

Lemma MaxN_present (t : Table) (i : nat) :
  (1 ≤ i ≤ MaxN t)%nat → RawGetInt t (Z.of_nat i) ≠ LNil.
Proof.
  intros Hi. apply isNil_false, (probe_present t (length t) 1).
  fold (MaxN t). lia.
Qed.

Lemma MaxN_absent (t : Table) :
  RawGetInt t (Z.of_nat (S (MaxN t))) = LNil.
Proof.
  destruct (decide (MaxN t < length t)%nat) as [Hlt|Hge].
  - apply isNil_true. replace (Z.of_nat (S (MaxN t))) with (1 + Z.of_nat (MaxN t)) by lia.
    by apply probe_stop.
  - destruct (decide (RawGetInt t (Z.of_nat (S (MaxN t))) = LNil)) as [|Hp]; [done|].
    exfalso. pose proof (probe_le t (length t) 1) as Hle. fold (MaxN t) in Hle.
    assert (S (MaxN t) ≤ length t)%nat; [|lia].
    apply present_bound. intros i Hi.
    destruct (decide (i = S (MaxN t))) as [->|]; [done|].
    apply MaxN_present. lia.
Qed.

(** [MaxN] is the only [n] with keys 1..n present and key n+1 absent. *)
Lemma MaxN_unique (t : Table) (n : nat) :
  (∀ i : nat, (1 ≤ i ≤ n)%nat → RawGetInt t (Z.of_nat i) ≠ LNil) →
  RawGetInt t (Z.of_nat (S n)) = LNil →
  MaxN t = n.
Proof.
  intros Hpres Habs.
  destruct (Nat.lt_trichotomy (MaxN t) n) as [Hlt|[Heq|Hgt]]; [|done|].
  - exfalso. apply (Hpres (S (MaxN t))); [lia|]. apply MaxN_absent.
  - exfalso. by apply (MaxN_present t (S n)); [lia|].
Qed.

(** ** toGoValue on a table, as the source writes it *)

Definition insertEntry (ret : gmap string GoValue) (kv : LValue * LValue)
  : gmap string GoValue :=
  <[fmt_Sprint (toGoValue kv.1) := toGoValue kv.2]> ret.

Lemma toGoValue_LTable (p : ptr) (t : Table) :
  toGoValue (LTable p t) =
    if Nat.eqb (MaxN t) 0
    then GoMap (foldl insertEntry ∅ (ForEach t))
    else GoSlice (map (λ i : nat, toGoValue (RawGetInt t (Z.of_nat i)))
                    (seq 1 (MaxN t))).
Proof.
  simpl. set (convert := fix convert (t : Table) : list Converted := _).
  destruct (Nat.eqb (MaxN t) 0).
  - f_equal. generalize (∅ : gmap string GoValue).
    induction t as [|[k v] t IH]; intros acc; [done|].
    unfold ForEach. rewrite filter_cons. simpl.
    destruct (isNil v) eqn:E; simpl.
    + apply IH.
    + apply IH.
  - f_equal. apply map_ext. intros i. unfold RawGetInt.
    generalize (LNumber (Z.of_nat i)). intros key.
    induction t as [|[k v] t IH]; [done|]. simpl.
    destruct (LValue_eqb k key); [done|apply IH].
Qed.

(** ** Running the monad *)

Lemma bind_run {A B} (m : M A) (f : A → M B) (w : World) :
  (m ≫= f) w =
    match m w with
    | Returned a w' c =>
        match f a w' with
        | Returned b w'' c' => Returned b w'' (c ++ c')
        | Aborted e w'' c' => Aborted e w'' (c ++ c')
        end
    | Aborted e w' c => Aborted e w' c
    end.
Proof. reflexivity. Qed.

Lemma bind_mret {A B} (a : A) (f : A → M B) (w : World) :
  (mret a ≫= f) w = f a w.
Proof. rewrite bind_run. simpl. by destruct (f a w). Qed.

Lemma bind_abort {A B} (e : Abort) (f : A → M B) (w : World) :
  (abort e ≫= f) w = Aborted e w [].
Proof. reflexivity. Qed.

Lemma bind_get {B} (f : World → M B) (w : World) : (get ≫= f) w = f w w.
Proof. rewrite bind_run. simpl. by destruct (f w w). Qed.

Lemma bind_put {B} (w' : World) (f : unit → M B) (w : World) :
  (put w' ≫= f) w = f tt w'.
Proof. rewrite bind_run. simpl. by destruct (f tt w'). Qed.

Lemma bind_assoc {A B C} (m : M A) (f : A → M B) (g : B → M C) (w : World) :
  ((m ≫= f) ≫= g) w = (m ≫= λ a, f a ≫= g) w.
Proof.
  rewrite !bind_run. destruct (m w) as [a w1 c1|]; [|done].
  rewrite bind_run. destruct (f a w1) as [b w2 c2|]; [|done].
  destruct (g b w2); by rewrite app_assoc.
Qed.

(** [if cond { L.RaiseError(...) }] followed by the rest of the function. *)
Lemma bind_guard {B} (cond : bool) (format : string) (k : M B) (w : World) :
  ((if cond then L_RaiseError format [] else mret tt) ≫= λ _, k) w =
    if cond then Aborted (RaiseError format []) w [] else k w.
Proof. destruct cond; [reflexivity|apply bind_mret]. Qed.

(** ** registerTask in stages *)

(** Lines 207-238: the name and the fields read one by one. *)
Definition taskFields (name : string) (config : Table) : Task.t :=
  let task := Task.NewTask in
  let task := Task.setName task name in
  let task := match toString (RawGetString config "description") with
              | (descStr, true) => Task.setDescription task descStr
              | _ => task
              end in
  let task := match toBool (RawGetString config "pty") with
              | (ptyBool, true) => Task.setPty task ptyBool
              | _ => task
              end in
  let task := match toBool (RawGetString config "parallel") with
              | (parallelBool, true) => Task.setParallel task parallelBool
              | _ => task
              end in
  let task := match toBool (RawGetString config "privileged") with
              | (privilegedBool, true) => Task.setPrivileged task privilegedBool
              | _ => task
              end in
  let task := match toString (RawGetString config "script") with
              | (scriptStr, true) => Task.setScript task scriptStr
              | _ => task
              end in
  match toString (RawGetString config "file") with
  | (fileStr, true) => Task.setFile task fileStr
  | _ => task
  end.

(** Lines 244-264: [On] and [Foreach]. *)
Definition taskTargets (task : Task.t) (config : Table) : Task.t :=
  let on := RawGetString config "on" in
  let task := match toString on with
              | (onStr, true) => Task.setOn task [onStr]
              | _ =>
                  match toSlice on with
                  | Some onSlice =>
                      Task.setOn task (foldl appendTarget (Task.On task) onSlice)
                  | None => task
                  end
              end in
  let foreach := RawGetString config "foreach" in
  match toString foreach with
  | (foreachStr, true) => Task.setForeach task [foreachStr]
  | _ =>
      match toSlice foreach with
      | Some foreachSlice =>
          Task.setForeach task
            (foldl appendTarget (Task.Foreach task) foreachSlice)
      | None => task
      end
  end.

(** Lines 270-281: [Prefix]. *)
Definition taskPrefix (task : Task.t) (config : Table) : Task.t :=
  let prefix := RawGetString config "prefix" in
  match toBool prefix with
  | (prefixBool, true) =>
      if prefixBool then
        if Task.IsRemoteTask task
        then Task.setPrefix task DefaultPrefixRemote
        else Task.setPrefix task DefaultPrefixLocal
      else task
  | _ =>
      match toString prefix with
      | (prefixStr, true) => Task.setPrefix task prefixStr
      | _ => task
      end
  end.

(** Lines 283-315: [Prepare]. *)
Definition taskPrepare (task : Task.t) (config : Table) : M Task.t :=
  let prepare := RawGetString config "prepare" in
  if isNil prepare then mret task
  else match prepare with
       | LFunction prepareFn => mret (Task.setPrepare task (Some prepareFn))
       | _ => L_RaiseError "prepare have to be function." []
       end.

Definition fileAndScriptMessage : string :=
  "invalid task definition: can't use 'file' and 'script' at the same time.".
Definition foreachAndOnMessage : string :=
  "invalid task definition: can't use 'foreach' and 'on' at the same time.".

Lemma registerTask_stages (name : string) (config : Table) :
  registerTask name config =
    (let task := taskFields name config in
     (if negb (String.eqb (Task.File task) "") && negb (String.eqb (Task.Script task) "")
      then L_RaiseError fileAndScriptMessage []
      else mret tt);;
     let task := taskTargets task config in
     (if (1 <=? length (Task.Foreach task))%nat && (1 <=? length (Task.On task))%nat
      then L_RaiseError foreachAndOnMessage []
      else mret tt);;
     let task := taskPrefix task config in
     task ← taskPrepare task config;
     w ← get;
     put (setTasks w (Tasks w ++ [task]))).
Proof. reflexivity. Qed.

Ltac case_fields :=
  repeat match goal with
    | |- context [toString ?v] => destruct (toString v) as [? []]
    | |- context [toBool ?v] => destruct (toBool v) as [? []]
    end.

(** The string a config value holds, the empty string when it holds none. *)
Definition stringOf (v : LValue) : string := (toString v).1.

Lemma taskFields_File (name : string) (config : Table) :
  Task.File (taskFields name config) = stringOf (RawGetString config "file").
Proof.
  unfold taskFields, stringOf.
  destruct (RawGetString config "file"); simpl; case_fields; reflexivity.
Qed.

Lemma taskFields_Script (name : string) (config : Table) :
  Task.Script (taskFields name config) = stringOf (RawGetString config "script").
Proof.
  unfold taskFields, stringOf.
  destruct (RawGetString config "script"); simpl; case_fields; reflexivity.
Qed.

Lemma taskFields_rest (name : string) (config : Table) :
  Task.Name (taskFields name config) = name ∧
  Task.On (taskFields name config) = [] ∧
  Task.Foreach (taskFields name config) = [] ∧
  Task.Prepare (taskFields name config) = None.
Proof. unfold taskFields. case_fields; done. Qed.

(** What registerTask leaves in [On] (and in [Foreach]) for a config value:
    a string alone, or the strings of a sequence, in order. *)
Definition coerceTargets (v : LValue) : list string :=
  match toString v with
  | (s, true) => [s]
  | _ =>
      match toSlice v with
      | Some sl => foldl appendTarget [] sl
      | None => []
      end
  end.

Lemma taskTargets_fields (task : Task.t) (config : Table) :
  Task.On task = [] → Task.Foreach task = [] →
  Task.On (taskTargets task config) = coerceTargets (RawGetString config "on") ∧
  Task.Foreach (taskTargets task config)
    = coerceTargets (RawGetString config "foreach") ∧
  Task.Name (taskTargets task config) = Task.Name task ∧
  Task.File (taskTargets task config) = Task.File task ∧
  Task.Script (taskTargets task config) = Task.Script task ∧
  Task.Prepare (taskTargets task config) = Task.Prepare task.
Proof.
  intros Hon Hfe. unfold taskTargets, coerceTargets.
  destruct (toString (RawGetString config "on")) as [? []];
    destruct (toSlice (RawGetString config "on"));
    destruct (toString (RawGetString config "foreach")) as [? []];
    destruct (toSlice (RawGetString config "foreach"));
    simpl; rewrite ?Hon, ?Hfe; done.
Qed.

Lemma taskPrefix_fields (task : Task.t) (config : Table) :
  Task.Name (taskPrefix task config) = Task.Name task ∧
  Task.On (taskPrefix task config) = Task.On task ∧
  Task.Foreach (taskPrefix task config) = Task.Foreach task ∧
  Task.Prepare (taskPrefix task config) = Task.Prepare task.
Proof.
  unfold taskPrefix.
  destruct (toBool (RawGetString config "prefix")) as [[] []];
    destruct (toString (RawGetString config "prefix")) as [? []];
    destruct (Task.IsRemoteTask task); done.
Qed.

Lemma length_ge_1 {A} (l : list A) : (1 <=? length l)%nat = negb (bool_decide (l = [])).
Proof. by destruct l. Qed.

Lemma nonempty_string (s : string) : negb (String.eqb s "") = negb (bool_decide (s = "")).
Proof. by destruct s. Qed.

(** registerTask, with the three checks spelled out on the config. *)
Lemma registerTask_run (name : string) (config : Table) (w : World) :
  registerTask name config w =
    if negb (bool_decide (stringOf (RawGetString config "file") = ""))
       && negb (bool_decide (stringOf (RawGetString config "script") = ""))
    then Aborted (RaiseError fileAndScriptMessage []) w []
    else if negb (bool_decide (coerceTargets (RawGetString config "foreach") = []))
            && negb (bool_decide (coerceTargets (RawGetString config "on") = []))
    then Aborted (RaiseError foreachAndOnMessage []) w []
    else
      let task := taskPrefix (taskTargets (taskFields name config) config) config in
      match RawGetString config "prepare" with
      | LNil => Returned tt (setTasks w (Tasks w ++ [task])) []
      | LFunction prepareFn =>
          Returned tt
            (setTasks w (Tasks w ++ [Task.setPrepare task (Some prepareFn)])) []
      | _ => Aborted (RaiseError "prepare have to be function." []) w []
      end.
Proof.
  rewrite registerTask_stages. cbv zeta.
  destruct (taskFields_rest name config) as (_ & Hon & Hfe & _).
  destruct (taskTargets_fields _ config Hon Hfe) as (Hon' & Hfe' & _).
  rewrite bind_guard, taskFields_File, taskFields_Script, !nonempty_string.
  destruct (_ && _); [reflexivity|].
  rewrite bind_guard, Hon', Hfe', !length_ge_1.
  destruct (_ && _); [reflexivity|].
  unfold taskPrepare.
  destruct (RawGetString config "prepare"); simpl isNil; cbv iota;
    try reflexivity; by rewrite bind_mret, bind_get.
Qed.

(** The strings among Lua values, in order. *)
Definition stringsOf (vs : list LValue) : list string :=
  omap (λ v, match v with LString s => Some s | _ => None end) vs.

Lemma appendTarget_strings (acc : list string) (vs : list LValue) :
  foldl appendTarget acc (map toGoValue vs) = acc ++ stringsOf vs.
Proof.
  revert acc. induction vs as [|v vs IH]; intros acc.
  - simpl. by rewrite app_nil_r.
  - change (foldl appendTarget (appendTarget acc (toGoValue v)) (map toGoValue vs)
            = acc ++ stringsOf (v :: vs)).
    rewrite IH. unfold stringsOf.
    destruct v as [| | | | | | | |p t]; try done.
    + simpl. by rewrite <- app_assoc.
    + rewrite toGoValue_LTable. by destruct (Nat.eqb (MaxN t) 0).
Qed.

Lemma coerceTargets_LString (s : string) : coerceTargets (LString s) = [s].
Proof. reflexivity. Qed.

(** On a table the coercion keeps the string values at 1..MaxN. *)
Lemma coerceTargets_LTable (p : ptr) (t : Table) :
  coerceTargets (LTable p t) =
    stringsOf (map (λ i : nat, RawGetInt t (Z.of_nat i)) (seq 1 (MaxN t))).
Proof.
  unfold coerceTargets, toSlice. simpl toString. cbv iota.
  rewrite toGoValue_LTable. destruct (Nat.eqb_spec (MaxN t) 0) as [->|_]; [done|].
  rewrite <- (map_map (λ i : nat, RawGetInt t (Z.of_nat i)) toGoValue).
  by rewrite appendTarget_strings.
Qed.

(** ** The prepare closure, run *)

Lemma stackGet_top (st : list LValue) (v : LValue) : stackGet (st ++ [v]) (-1) = v.
Proof.
  unfold stackGet. rewrite length_app. simpl.
  replace (0 <=? Z.of_nat (length st + 1) + -1) with true
    by (symmetry; apply Z.leb_le; lia).
  simpl. replace (Z.to_nat (Z.of_nat (length st + 1) + -1)) with (length st) by lia.
  by rewrite lookup_app_r, Nat.sub_diag.
Qed.

Lemma pop_pushed (st : list LValue) (v : LValue) :
  take (length (st ++ [v]) - 1) (st ++ [v]) = st.
Proof.
  rewrite length_app. simpl. replace (length st + 1 - 1)%nat with (length st) by lia.
  by rewrite take_app_length.
Qed.

Lemma setStack_setStack (w : World) (st st' : list LValue) :
  setStack (setStack w st) st' = setStack w st'.
Proof. reflexivity. Qed.

Definition returnedFalse : error :=
  Errorf "returned false from the prepare function." [].

Lemma Prepare_run (prepareFn : ptr) (ctx : TaskContext) (w : World) :
  Prepare prepareFn ctx w =
    match L_PCall prepareFn ctx w with
    | PCallError err ctx' w' =>
        Returned (Some err, ctx') (setStack w' (stack w)) [CallFunction prepareFn]
    | PCallOk rets ctx' w' =>
        Returned (match default LNil (head rets) with
                  | LBool false => Some returnedFalse
                  | _ => None
                  end, ctx')
          (setStack w' (stack w)) [CallFunction prepareFn]
    end.
Proof.
  unfold Prepare. rewrite bind_run. unfold CallByParam1.
  destruct (L_PCall prepareFn ctx w) as [err ctx' w'|rets ctx' w']; [reflexivity|].
  cbn [fst snd]. unfold L_Get, L_Pop.
  rewrite bind_assoc, bind_get, bind_mret, bind_assoc, bind_get, bind_put.
  cbn [stack setStack]. rewrite stackGet_top, pop_pushed.
  by destruct (default LNil (head rets)) as [|[]| | | | | | |].
Qed.

(** ** registerTask: the claims *)

(** C3.  When the 'file' and 'script' keys of the config both hold
    non-empty strings, registerTask raises the file/script exclusivity
    error, and the process state, the Task collection with it, is as it
    was: no task is appended. *)
Theorem registerTask_file_and_script
    (name : string) (config : Table) (w : World) (fileStr scriptStr : string) :
  RawGetString config "file" = LString fileStr →
  RawGetString config "script" = LString scriptStr →
  fileStr ≠ "" → scriptStr ≠ "" →
  registerTask name config w =
    Aborted
      (RaiseError
         "invalid task definition: can't use 'file' and 'script' at the same time."
         []) w [].
Proof.
  intros Hfile Hscript Hf Hs. rewrite registerTask_run, Hfile, Hscript.
  unfold stringOf. cbn [toString fst].
  by rewrite !bool_decide_eq_false_2 by done.
Qed.

(** C4, amended.  When 'on' and 'foreach' both coerce to non-empty
    sequences, registerTask fails and appends no task: with the on/foreach
    exclusivity error unless 'file' and 'script' both hold non-empty
    strings, in which case the file/script check, which comes first, has
    already raised its own error. *)
Theorem registerTask_on_and_foreach (name : string) (config : Table) (w : World) :
  coerceTargets (RawGetString config "on") ≠ [] →
  coerceTargets (RawGetString config "foreach") ≠ [] →
  registerTask name config w =
    if negb (bool_decide (stringOf (RawGetString config "file") = ""))
       && negb (bool_decide (stringOf (RawGetString config "script") = ""))
    then Aborted
           (RaiseError
              "invalid task definition: can't use 'file' and 'script' at the same time."
              []) w []
    else Aborted
           (RaiseError
              "invalid task definition: can't use 'foreach' and 'on' at the same time."
              []) w [].
Proof.
  intros Hon Hfe. rewrite registerTask_run.
  destruct (negb (bool_decide (stringOf _ = "")) && _); [reflexivity|].
  by rewrite !bool_decide_eq_false_2 by done.
Qed.

(** Neither exclusivity check of registerTask fires on this config. *)
Definition exclusivityChecksPass (config : Table) : Prop :=
  (stringOf (RawGetString config "file") = ""
   ∨ stringOf (RawGetString config "script") = "") ∧
  (coerceTargets (RawGetString config "on") = []
   ∨ coerceTargets (RawGetString config "foreach") = []).

Lemma exclusivityChecksPass_run (config : Table) :
  exclusivityChecksPass config →
  negb (bool_decide (stringOf (RawGetString config "file") = ""))
    && negb (bool_decide (stringOf (RawGetString config "script") = "")) = false ∧
  negb (bool_decide (coerceTargets (RawGetString config "foreach") = []))
    && negb (bool_decide (coerceTargets (RawGetString config "on") = [])) = false.
Proof.
  intros [[H|H] [H'|H']]; rewrite ?(bool_decide_eq_true_2 _ H),
    ?(bool_decide_eq_true_2 _ H'); simpl; rewrite ?andb_false_r; done.
Qed.

(** C7, amended.  A 'prepare' value that is neither nil nor a function
    makes registerTask fail without appending a task; the error is "prepare
    have to be function." when neither exclusivity check has failed before.
    A function is stored when construction succeeds, and the closure around
    it returns no error when the callback returns nil or true, the error
    "returned false from the prepare function." when it returns false, and
    the callback's own error when the protected call fails. *)
Theorem registerTask_prepare
    (name : string) (config : Table) (w : World) (ctx : TaskContext) :
  (RawGetString config "prepare" ≠ LNil →
   (∀ fn, RawGetString config "prepare" ≠ LFunction fn) →
   ∃ e, registerTask name config w = Aborted e w [] ∧
        (exclusivityChecksPass config →
         e = RaiseError "prepare have to be function." [])) ∧
  (∀ fn w' calls,
     RawGetString config "prepare" = LFunction fn →
     registerTask name config w = Returned tt w' calls →
     ∃ task, Tasks w' = Tasks w ++ [task] ∧ Task.Prepare task = Some fn) ∧
  (∀ fn err ctx' w',
     L_PCall fn ctx w = PCallError err ctx' w' →
     Prepare fn ctx w
       = Returned (Some err, ctx') (setStack w' (stack w)) [CallFunction fn]) ∧
  (∀ fn rets ctx' w',
     L_PCall fn ctx w = PCallOk rets ctx' w' →
     (default LNil (head rets) = LNil ∨ default LNil (head rets) = LBool true →
      Prepare fn ctx w
        = Returned (None, ctx') (setStack w' (stack w)) [CallFunction fn]) ∧
     (default LNil (head rets) = LBool false →
      Prepare fn ctx w
        = Returned
            (Some (Errorf "returned false from the prepare function." []), ctx')
            (setStack w' (stack w)) [CallFunction fn])).
Proof.
  split; [|split; [|split]].
  - intros Hnil Hfn. rewrite registerTask_run.
    destruct (negb (bool_decide (stringOf _ = "")) && _) eqn:E1;
      [|destruct (negb (bool_decide (coerceTargets _ = [])) && _) eqn:E2].
    + eexists. split; [reflexivity|].
      intros [H _]%exclusivityChecksPass_run. congruence.
    + eexists. split; [reflexivity|].
      intros [_ H]%exclusivityChecksPass_run. congruence.
    + destruct (RawGetString config "prepare") eqn:Ep; try done;
        try (eexists; split; [reflexivity|done]).
      by destruct (Hfn p).
  - intros fn w' calls Hp. rewrite registerTask_run, Hp.
    destruct (negb (bool_decide (stringOf _ = "")) && _); [done|].
    destruct (negb (bool_decide (coerceTargets _ = [])) && _); [done|].
    intros [= <- <-]. eexists. split; [reflexivity|done].
  - intros fn err ctx' w' Hcall. by rewrite Prepare_run, Hcall.
  - intros fn rets ctx' w' Hcall. rewrite Prepare_run, Hcall.
    split; [intros [-> | ->]|intros ->]; done.
Qed.

(** C10.  When the protected call succeeds and the value it returns is
    neither nil nor a boolean, the prepare closure returns no error. *)
Theorem Prepare_other_value
    (fn : ptr) (ctx ctx' : TaskContext) (w w' : World) (rets : list LValue)
    (v : LValue) :
  L_PCall fn ctx w = PCallOk rets ctx' w' →
  head rets = Some v →
  v ≠ LNil → (∀ b, v ≠ LBool b) →
  Prepare fn ctx w
    = Returned (None, ctx') (setStack w' (stack w)) [CallFunction fn].
Proof.
  intros Hcall Hv Hnil Hbool. rewrite Prepare_run, Hcall, Hv. simpl.
  destruct v as [|b| | | | | | |]; try done. by destruct (Hbool b).
Qed.

(** ** registerHost in stages *)

Lemma orPanic_bind {B} (r : Host.t * option error) (f : Host.t → M B) (w : World) :
  (orPanic r ≫= f) w =
    match r.2 with
    | Some err => Aborted (Panic err) w []
    | None => f r.1 w
    end.
Proof. unfold orPanic. destruct r.2; [reflexivity|apply bind_mret]. Qed.

Lemma orPanic_run (r : Host.t * option error) (w : World) :
  orPanic r w =
    match r.2 with
    | Some err => Aborted (Panic err) w []
    | None => Returned r.1 w []
    end.
Proof. unfold orPanic. by destruct r.2. Qed.

(** A registration followed by the next one, which an error skips. *)
Definition andThen (r : Host.t * option error)
    (next : Host.t → Host.t * option error) : Host.t * option error :=
  match r.2 with
  | Some _ => r
  | None => next r.1
  end.

(** Lines 121-148: the five hook points, in the order of the source. *)
Definition hookPhase (h : Host.t) (hooks : LValue) : Host.t * option error :=
  match toLTable hooks with
  | Some hookTb =>
      andThen (registerHook h "before" (RawGetString hookTb "before")) (λ h,
      andThen (registerHook h "before_connect"
                 (RawGetString hookTb "before_connect")) (λ h,
      andThen (registerRemoteHook h "after_connect"
                 (RawGetString hookTb "after_connect")) (λ h,
      andThen (registerHook h "after" (RawGetString hookTb "after")) (λ h,
      registerHook h "after_disconnect"
        (RawGetString hookTb "after_disconnect")))))
  | None => (h, None)
  end.

(** Lines 150-158: description and hidden. *)
Definition hostFields (h : Host.t) (config : Table) : Host.t :=
  let h := match toString (RawGetString config "description") with
           | (descStr, true) => Host.setDescription h descStr
           | _ => h
           end in
  match toBool (RawGetString config "hidden") with
  | (hiddenBool, true) => Host.setHidden h hiddenBool
  | _ => h
  end.

(** The tags of a table, when all its values are strings. *)
Fixpoint tagStrings (entries : Table) : option (list string) :=
  match entries with
  | [] => Some []
  | (_, LString vs) :: entries' => cons vs <$> tagStrings entries'
  | _ :: _ => None
  end.

Definition tagsMessage : string := "unsupported format of tags.".

Lemma forEachM_appendTag (entries : Table) (h : Host.t) (w : World) :
  forEachM appendTag entries h w =
    match tagStrings entries with
    | Some ss => Returned (Host.setTags h (Host.Tags h ++ ss)) w []
    | None => Aborted (RaiseError tagsMessage []) w []
    end.
Proof.
  revert h. induction entries as [|[k v] entries IH]; intros h.
  - simpl. rewrite app_nil_r. by destruct h.
  - cbn [forEachM tagStrings]. destruct v; try reflexivity.
    change (appendTag h (k, LString s))
      with (mret (M:=M) (Host.setTags h (Host.Tags h ++ [s]))).
    rewrite bind_mret, IH.
    destruct (tagStrings entries) as [ss|]; [|reflexivity].
    simpl. by rewrite <- app_assoc.
Qed.

Lemma registerHost_run (name : string) (config : Table) (w : World) :
  registerHost name config w =
    let h := Host.mk name (foldl copyUpper [] (ForEach config)) ∅ "" false [] in
    match hookPhase h (RawGetString config "hooks") with
    | (_, Some err) => Aborted (Panic err) w []
    | (h, None) =>
        let h := hostFields h config in
        match RawGetString config "tags" with
        | LTable _ tagsTb =>
            match tagStrings (ForEach tagsTb) with
            | Some ss =>
                Returned tt
                  (setHosts w (Hosts w ++ [Host.setTags h (Host.Tags h ++ ss)])) []
            | None => Aborted (RaiseError tagsMessage []) w []
            end
        | _ => Returned tt (setHosts w (Hosts w ++ [h])) []
        end
    end.
Proof.
  unfold registerHost, hookPhase. cbv zeta.
  set (h0 := Host.mk name _ ∅ "" false []). rewrite bind_run.
  assert (Htail : ∀ h : Host.t,
    match
      ((match RawGetString config "tags" with
        | LTable _ tagsTb => forEachM appendTag (ForEach tagsTb) (hostFields h config)
        | _ => mret (hostFields h config)
        end) ≫= λ h, w ← get; put (setHosts w (Hosts w ++ [h]))) w
    with
    | Returned b w'' c' => Returned b w'' ([] ++ c')
    | Aborted e w'' c' => Aborted e w'' ([] ++ c')
    end =
    match RawGetString config "tags" with
    | LTable _ tagsTb =>
        match tagStrings (ForEach tagsTb) with
        | Some ss =>
            Returned tt
              (setHosts w (Hosts w ++ [Host.setTags (hostFields h config)
                                         (Host.Tags (hostFields h config) ++ ss)])) []
        | None => Aborted (RaiseError tagsMessage []) w []
        end
    | _ => Returned tt (setHosts w (Hosts w ++ [hostFields h config])) []
    end).
  { intros h. destruct (RawGetString config "tags");
      try (by rewrite bind_mret, bind_get).
    rewrite bind_run, forEachM_appendTag.
    destruct (tagStrings _); [|reflexivity]. by rewrite bind_get. }
  destruct (toLTable (RawGetString config "hooks")) as [hookTb|].
  - unfold andThen.
    rewrite orPanic_bind.
    destruct (registerHook h0 "before" _) as [h1 [e|]]; cbn [fst snd]; [done|].
    rewrite orPanic_bind.
    destruct (registerHook h1 "before_connect" _) as [h2 [e|]]; cbn [fst snd]; [done|].
    rewrite orPanic_bind.
    destruct (registerRemoteHook h2 "after_connect" _) as [h3 [e|]]; cbn [fst snd]; [done|].
    rewrite orPanic_bind.
    destruct (registerHook h3 "after" _) as [h4 [e|]]; cbn [fst snd]; [done|].
    rewrite orPanic_run.
    destruct (registerHook h4 "after_disconnect" _) as [h5 [e|]]; cbn [fst snd]; [done|].
    apply Htail.
  - apply Htail.
Qed.

(** The fields of a host that hook registration leaves alone. *)
Definition sameFields (h h' : Host.t) : Prop :=
  Host.Name h' = Host.Name h ∧ Host.Config h' = Host.Config h ∧
  Host.Description h' = Host.Description h ∧ Host.Hidden h' = Host.Hidden h ∧
  Host.Tags h' = Host.Tags h.

Lemma sameFields_refl (h : Host.t) : sameFields h h.
Proof. by unfold sameFields. Qed.

Lemma sameFields_trans (h1 h2 h3 : Host.t) :
  sameFields h1 h2 → sameFields h2 h3 → sameFields h1 h3.
Proof. unfold sameFields. intros (?&?&?&?&?) (?&?&?&?&?). repeat split; congruence. Qed.

Definition invalidHookType (hook : LValue) : error :=
  Errorf "invalid hook type %v" [hook].

(** The values registerHook takes: nil, a function, a string. *)
Definition hookAccepted (v : LValue) : bool :=
  match v with LNil | LFunction _ | LString _ => true | _ => false end.

(** The values registerRemoteHook takes: nil, a string. *)
Definition remoteHookAccepted (v : LValue) : bool :=
  match v with LNil | LString _ => true | _ => false end.

Lemma registerHook_spec (h : Host.t) (pt : string) (v : LValue) :
  sameFields h (registerHook h pt v).1 ∧
  (∀ pt', pt' ≠ pt →
     Host.Hooks (registerHook h pt v).1 !! pt' = Host.Hooks h !! pt') ∧
  (registerHook h pt v).2 = (if hookAccepted v then None else Some (invalidHookType v)).
Proof.
  unfold registerHook.
  destruct v; simpl; (split; [apply sameFields_refl || by unfold sameFields|]);
    (split; [|done]); intros pt' Hne; try done; by rewrite lookup_insert_ne.
Qed.

Lemma registerRemoteHook_spec (h : Host.t) (pt : string) (v : LValue) :
  sameFields h (registerRemoteHook h pt v).1 ∧
  (∀ pt', pt' ≠ pt →
     Host.Hooks (registerRemoteHook h pt v).1 !! pt' = Host.Hooks h !! pt') ∧
  (registerRemoteHook h pt v).2
    = (if remoteHookAccepted v then None else Some (invalidHookType v)) ∧
  Host.Hooks (registerRemoteHook h pt v).1 !! pt
    = match v with
      | LString s => Some (RemoteCommand s)
      | _ => Host.Hooks h !! pt
      end.
Proof.
  unfold registerRemoteHook.
  destruct v; simpl; (split; [apply sameFields_refl || by unfold sameFields|]);
    (split; [|split; [done|]]); try done.
  - intros pt' Hne. by rewrite lookup_insert_ne.
  - by rewrite lookup_insert_eq.
Qed.

(** What the hook phase accepts, read off the config. *)
Definition hooksAccepted (hooks : LValue) : bool :=
  match hooks with
  | LTable _ hookTb =>
      hookAccepted (RawGetString hookTb "before")
      && hookAccepted (RawGetString hookTb "before_connect")
      && remoteHookAccepted (RawGetString hookTb "after_connect")
      && hookAccepted (RawGetString hookTb "after")
      && hookAccepted (RawGetString hookTb "after_disconnect")
  | _ => true
  end.

Lemma hookPhase_spec (h : Host.t) (hooks : LValue) :
  sameFields h (hookPhase h hooks).1 ∧
  ((hookPhase h hooks).2 = None ↔ hooksAccepted hooks = true) ∧
  (∀ err, (hookPhase h hooks).2 = Some err → ∃ x, err = invalidHookType x) ∧
  (∀ p hookTb,
     hooks = LTable p hookTb →
     hookAccepted (RawGetString hookTb "before") = true →
     hookAccepted (RawGetString hookTb "before_connect") = true →
     remoteHookAccepted (RawGetString hookTb "after_connect") = false →
     (hookPhase h hooks).2
       = Some (invalidHookType (RawGetString hookTb "after_connect"))) ∧
  ((hookPhase h hooks).2 = None →
   Host.Hooks (hookPhase h hooks).1 !! "after_connect"
     = match hooks with
       | LTable _ hookTb =>
           match RawGetString hookTb "after_connect" with
           | LString s => Some (RemoteCommand s)
           | _ => Host.Hooks h !! "after_connect"
           end
       | _ => Host.Hooks h !! "after_connect"
       end).
Proof.
  unfold hookPhase, hooksAccepted.
  destruct hooks as [| | | | | | | |p hookTb]; simpl toLTable; cbv iota;
    try (split; [apply sameFields_refl|]; repeat split; try done; intros; done).
  unfold andThen.
  destruct (registerHook_spec h "before" (RawGetString hookTb "before"))
    as (F1 & K1 & E1).
  destruct (registerHook h "before" _) as [h1 o1]; cbn [fst snd] in *.
  destruct (registerHook_spec h1 "before_connect"
              (RawGetString hookTb "before_connect")) as (F2 & K2 & E2).
  destruct (registerHook h1 "before_connect" _) as [h2 o2]; cbn [fst snd] in *.
  destruct (registerRemoteHook_spec h2 "after_connect"
              (RawGetString hookTb "after_connect")) as (F3 & K3 & E3 & A3).
  destruct (registerRemoteHook h2 "after_connect" _) as [h3 o3]; cbn [fst snd] in *.
  destruct (registerHook_spec h3 "after" (RawGetString hookTb "after"))
    as (F4 & K4 & E4).
  destruct (registerHook h3 "after" _) as [h4 o4]; cbn [fst snd] in *.
  destruct (registerHook_spec h4 "after_disconnect"
              (RawGetString hookTb "after_disconnect")) as (F5 & K5 & E5).
  destruct (registerHook h4 "after_disconnect" _) as [h5 o5]; cbn [fst snd] in *.
  subst o1 o2 o3 o4 o5.
  assert (T12 : sameFields h h2) by eauto using sameFields_trans.
  assert (T13 : sameFields h h3) by eauto using sameFields_trans.
  assert (T14 : sameFields h h4) by eauto using sameFields_trans.
  assert (T15 : sameFields h h5) by eauto using sameFields_trans.
  destruct (hookAccepted (RawGetString hookTb "before")) eqn:Hb; cbn [fst snd andb];
    [|split; [done|]; repeat split; try done; intros; simplify_eq; eauto;
      congruence].
  destruct (hookAccepted (RawGetString hookTb "before_connect")) eqn:Hbc; cbn [fst snd andb];
    [|split; [done|]; repeat split; try done; intros; simplify_eq; eauto;
      congruence].
  destruct (remoteHookAccepted (RawGetString hookTb "after_connect")) eqn:Ha;
    cbn [fst snd andb];
    [|split; [done|]; repeat split; try done; intros; simplify_eq; eauto;
      congruence].
  destruct (hookAccepted (RawGetString hookTb "after")) eqn:Hf; cbn [fst snd andb];
    [|split; [done|]; repeat split; try done; intros; simplify_eq; eauto;
      congruence].
  destruct (hookAccepted (RawGetString hookTb "after_disconnect")) eqn:Hd; cbn [fst snd andb];
    [|split; [done|]; repeat split; try done; intros; simplify_eq; eauto;
      congruence].
  split; [done|]. repeat split; try done.
  - intros; simplify_eq. congruence.
  - intros _. rewrite K5, K4, A3 by done.
    destruct (RawGetString hookTb "after_connect"); try done;
      by rewrite K2, K1.
Qed.

Lemma hostFields_spec (h : Host.t) (config : Table) :
  Host.Name (hostFields h config) = Host.Name h ∧
  Host.Config (hostFields h config) = Host.Config h ∧
  Host.Hooks (hostFields h config) = Host.Hooks h ∧
  Host.Tags (hostFields h config) = Host.Tags h.
Proof. unfold hostFields. case_fields; done. Qed.

(** The key test of registerHost's first loop. *)
Definition upperKey (kv : LValue * LValue) : Prop :=
  IsUpper (firstChar (LValue_String kv.1)) = true.

Lemma RawSet_fresh (t : Table) (k v : LValue) :
  k ∉ map fst t → RawSet t k v = t ++ [(k, v)].
Proof.
  induction t as [|[k' v'] t IH]; simpl; [done|].
  intros Hk. rewrite LValue_eqb_neq.
  - rewrite IH; [done|]. intros H. apply Hk. by apply list_elem_of_further.
  - intros ->. apply Hk. apply list_elem_of_here.
Qed.

Lemma copyUpper_filter (acc l : Table) :
  NoDup (map fst acc ++ map fst l) →
  foldl copyUpper acc l = acc ++ filter upperKey l.
Proof.
  revert acc. induction l as [|[k v] l IH]; intros acc Hnd.
  - simpl. by rewrite app_nil_r.
  - simpl in Hnd. apply NoDup_app in Hnd as (Hacc & Hdisj & Hl).
    apply NoDup_cons in Hl as [Hk Hl].
    cbn [foldl]. rewrite filter_cons. unfold copyUpper at 2. cbn [fst snd].
    destruct (decide (upperKey (k, v))) as [U|U]; unfold upperKey in U;
      cbn [fst] in U.
    + rewrite U, RawSet_fresh.
      2:{ intros Hin. apply (Hdisj k Hin). apply list_elem_of_here. }
      rewrite IH.
      * by rewrite <- app_assoc.
      * rewrite map_app. simpl. rewrite <- app_assoc. simpl.
        apply NoDup_app. split; [done|]. split.
        -- intros x Hx. apply Hdisj, Hx.
        -- by apply NoDup_cons.
    + apply not_true_is_false in U. rewrite U.
      apply IH. apply NoDup_app. split; [done|]. split; [|done].
      intros x Hx Hx'. apply (Hdisj x Hx). by apply list_elem_of_further.
Qed.

Lemma ForEach_wf (t : Table) : wfTable t → ForEach t = t.
Proof.
  intros [_ Hv]. unfold ForEach. induction Hv as [|[k v] t [_ Hn] _ IH]; [done|].
  rewrite filter_cons. simpl in Hn |- *. rewrite decide_True, IH; [done|].
  by apply isNil_false.
Qed.

Lemma RawGet_filter_upper (t : Table) (k : LValue) :
  RawGet (filter upperKey t) k =
    if IsUpper (firstChar (LValue_String k)) then RawGet t k else LNil.
Proof.
  induction t as [|[k' v] t IH]; simpl.
  - by destruct (IsUpper _).
  - rewrite filter_cons.
    destruct (decide (upperKey (k', v))) as [U|U]; unfold upperKey in U;
      cbn [fst] in U; simpl; destruct (LValue_eqb k' k) eqn:E; try done.
    + apply LValue_eqb_eq in E as ->. by rewrite U.
    + apply LValue_eqb_eq in E as ->. apply not_true_is_false in U.
      by rewrite IH, U.
Qed.

(** ** registerHost: the claims *)

(** C5.  For a config table as Lua builds it, the host that registerHost
    appends has as Config exactly the entries of the config whose key's
    string representation starts with an upper-case rune, each with its
    value: a key is retained if and only if it passes that test.  The test
    is on the first code point, not on the first byte: a string key that
    starts with the UTF-8 bytes of a code point [r] is retained exactly when
    [unicode.IsUpper r] holds, whatever follows, and the empty key never
    is. *)
Theorem registerHost_config_upper_keys
    (name : string) (config : Table) (w w' : World) (calls : list Call) :
  wfTable config →
  registerHost name config w = Returned tt w' calls →
  ∃ h, Hosts w' = Hosts w ++ [h] ∧
       Host.Config h = filter upperKey config ∧
       (∀ k v, (k, v) ∈ Host.Config h ↔
               (k, v) ∈ config ∧ IsUpper (firstChar (LValue_String k)) = true) ∧
       (∀ k, RawGet (Host.Config h) k =
             if IsUpper (firstChar (LValue_String k)) then RawGet config k
             else LNil) ∧
       (∀ r rest, validRune r →
          RawGet (Host.Config h) (LString (encodeRune r +:+ rest)) =
            if IsUpper r then RawGet config (LString (encodeRune r +:+ rest))
            else LNil) ∧
       RawGet (Host.Config h) (LString "") = LNil.
Proof.
  intros Hwf. rewrite registerHost_run. cbv zeta.
  set (h0 := Host.mk name _ ∅ "" false []).
  destruct (hookPhase_spec h0 (RawGetString config "hooks")) as ((_ & Hc & _) & _).
  destruct (hookPhase h0 _) as [h1 [err|]]; [done|]. cbn [fst] in Hc.
  destruct (hostFields_spec h1 config) as (_ & Hc' & _).
  assert (Hcfg : Host.Config (hostFields h1 config) = filter upperKey config).
  { rewrite Hc', Hc. subst h0. cbn [Host.Config].
    rewrite ForEach_wf by done. rewrite copyUpper_filter; [done|].
    simpl. apply Hwf. }
  assert (Hall : ∀ h : Host.t,
            Host.Config h = filter upperKey config →
            Host.Config h = filter upperKey config ∧
            (∀ k v, (k, v) ∈ Host.Config h ↔
                    (k, v) ∈ config ∧ IsUpper (firstChar (LValue_String k)) = true) ∧
            (∀ k, RawGet (Host.Config h) k =
                  if IsUpper (firstChar (LValue_String k)) then RawGet config k
                  else LNil) ∧
            (∀ r rest, validRune r →
               RawGet (Host.Config h) (LString (encodeRune r +:+ rest)) =
                 if IsUpper r
                 then RawGet config (LString (encodeRune r +:+ rest))
                 else LNil) ∧
            RawGet (Host.Config h) (LString "") = LNil).
  { intros h ->. split; [done|]. split; [|split; [|split]].
    - intros k v. rewrite list_elem_of_filter. unfold upperKey. simpl.
      apply and_comm.
    - apply RawGet_filter_upper.
    - intros r rest Hr. rewrite RawGet_filter_upper.
      change (LValue_String (LString (encodeRune r +:+ rest)))
        with (encodeRune r +:+ rest).
      by rewrite firstChar_encodeRune.
    - by rewrite RawGet_filter_upper. }
  destruct (RawGetString config "tags") as [| | | | | | | |p tagsTb];
    try (intros [= <- <-]; eexists; split; [reflexivity|by apply Hall]).
  destruct (tagStrings (ForEach tagsTb)); [|done].
  intros [= <- <-]. eexists. split; [reflexivity|]. by apply Hall.
Qed.

(** C6.  registerRemoteHook stores a string as a command string and
    refuses a function with the invalid-hook-type error.  So a host that
    registerHost builds holds under "after_connect" nothing or a command
    string, never a callback: a string given for 'after_connect' is stored as
    it is, and a function given for it makes registerHost panic with the
    invalid-hook-type error (about that very function when the two hook
    points registered before it were fine), leaving the Host collection as
    it was. *)
Theorem registerHost_after_connect (name : string) (config : Table) (w : World) :
  (∀ h hookPoint s,
     registerRemoteHook h hookPoint (LString s)
       = (Host.setHook h hookPoint (RemoteCommand s), None)) ∧
  (∀ h hookPoint fn,
     registerRemoteHook h hookPoint (LFunction fn)
       = (h, Some (Errorf "invalid hook type %v" [LFunction fn]))) ∧
  (∀ w' calls,
     registerHost name config w = Returned tt w' calls →
     ∃ h, Hosts w' = Hosts w ++ [h] ∧
          (Host.Hooks h !! "after_connect" = None
           ∨ ∃ s, Host.Hooks h !! "after_connect" = Some (RemoteCommand s)) ∧
          (∀ p hookTb s,
             RawGetString config "hooks" = LTable p hookTb →
             RawGetString hookTb "after_connect" = LString s →
             Host.Hooks h !! "after_connect" = Some (RemoteCommand s))) ∧
  (∀ p hookTb fn,
     RawGetString config "hooks" = LTable p hookTb →
     RawGetString hookTb "after_connect" = LFunction fn →
     ∃ x, registerHost name config w
            = Aborted (Panic (Errorf "invalid hook type %v" [x])) w [] ∧
          (hookAccepted (RawGetString hookTb "before") = true →
           hookAccepted (RawGetString hookTb "before_connect") = true →
           x = LFunction fn)).
Proof.
  split; [done|]. split; [done|]. split.
  - intros w' calls. rewrite registerHost_run. cbv zeta.
    set (h0 := Host.mk name _ ∅ "" false []).
    destruct (hookPhase_spec h0 (RawGetString config "hooks"))
      as (_ & _ & _ & _ & Hac).
    destruct (hookPhase h0 _) as [h1 [err|]]; [done|]. cbn [fst snd] in Hac.
    specialize (Hac eq_refl).
    destruct (hostFields_spec h1 config) as (_ & _ & Hh & _).
    assert (Hgoal :
      (Host.Hooks h1 !! "after_connect" = None
       ∨ ∃ s, Host.Hooks h1 !! "after_connect" = Some (RemoteCommand s)) ∧
      (∀ p hookTb s,
         RawGetString config "hooks" = LTable p hookTb →
         RawGetString hookTb "after_connect" = LString s →
         Host.Hooks h1 !! "after_connect" = Some (RemoteCommand s))).
    { rewrite Hac. split.
      - destruct (RawGetString config "hooks") as [| | | | | | | |p hookTb];
          try (by left).
        destruct (RawGetString hookTb "after_connect"); try (by left).
        right. eauto.
      - intros p hookTb s -> ->. done. }
    destruct (RawGetString config "tags") as [| | | | | | | |p tagsTb];
      try (intros [= <- <-]; eexists; split; [reflexivity|by rewrite Hh]).
    destruct (tagStrings (ForEach tagsTb)); [|done].
    intros [= <- <-]. eexists. split; [reflexivity|]. cbn [Host.setTags Host.Hooks].
    by rewrite Hh.
  - intros p hookTb fn Hhooks Hafter. rewrite registerHost_run. cbv zeta.
    set (h0 := Host.mk name _ ∅ "" false []).
    destruct (hookPhase_spec h0 (RawGetString config "hooks"))
      as (_ & Hok & Herr & Hfn & _).
    specialize (Hfn p hookTb Hhooks).
    rewrite Hafter in Hfn. cbn [remoteHookAccepted] in Hfn.
    destruct (hookPhase h0 _) as [h1 [err|]]; cbn [fst snd] in *.
    + destruct (Herr err eq_refl) as [x ->]. exists x. split; [done|].
      intros Hb Hbc. specialize (Hfn Hb Hbc eq_refl). by injection Hfn.
    + exfalso. destruct Hok as [Hok _]. specialize (Hok eq_refl).
      rewrite Hhooks in Hok. cbn [hooksAccepted] in Hok.
      rewrite Hafter in Hok. cbn [remoteHookAccepted] in Hok.
      rewrite andb_false_r in Hok. done.
Qed.

Lemma tagStrings_all (entries : Table) (ss : list string) :
  map snd entries = map LString ss → tagStrings entries = Some ss.
Proof.
  revert ss. induction entries as [|[k v] entries IH]; intros [|s ss] H;
    try done.
  simpl in H. injection H as -> H. simpl. by rewrite (IH ss H).
Qed.

Lemma tagStrings_other (entries : Table) (k v : LValue) :
  (k, v) ∈ entries → (∀ s, v ≠ LString s) → tagStrings entries = None.
Proof.
  intros Hin Hv. induction entries as [|[k' v'] entries IH].
  - by apply not_elem_of_nil in Hin.
  - apply elem_of_cons in Hin as [[= <- <-]|Hin].
    + simpl. destruct v; try done. by destruct (Hv s).
    + simpl. rewrite (IH Hin). by destruct v'.
Qed.

(** C8, amended.  With a table under 'tags', registerHost first registers
    the hooks, and panics with the invalid-hook-type error when a hook value
    is refused.  When the hooks are accepted, it raises "unsupported format
    of tags." if some element of the table is not a string, and when all
    elements are strings it appends a host whose Tags are those strings in
    the order the table is traversed.  A failure leaves the Host collection
    as it was. *)
Theorem registerHost_tags
    (name : string) (config : Table) (w : World) (p : ptr) (tagsTb : Table) :
  RawGetString config "tags" = LTable p tagsTb →
  (hooksAccepted (RawGetString config "hooks") = false →
   ∃ x, registerHost name config w
          = Aborted (Panic (Errorf "invalid hook type %v" [x])) w []) ∧
  (hooksAccepted (RawGetString config "hooks") = true →
   ((∃ k v, (k, v) ∈ tagsTb ∧ v ≠ LNil ∧ ∀ s, v ≠ LString s) →
    registerHost name config w
      = Aborted (RaiseError "unsupported format of tags." []) w []) ∧
   (∀ ss, map snd (ForEach tagsTb) = map LString ss →
          ∃ h, registerHost name config w
                 = Returned tt (setHosts w (Hosts w ++ [h])) [] ∧
               Host.Tags h = ss)).
Proof.
  intros Htags. rewrite registerHost_run. cbv zeta.
  set (h0 := Host.mk name _ ∅ "" false []).
  destruct (hookPhase_spec h0 (RawGetString config "hooks"))
    as ((_ & _ & _ & _ & Ht) & Hok & Herr & _).
  destruct (hookPhase h0 _) as [h1 [err|]]; cbn [fst snd] in *.
  - split.
    + intros _. destruct (Herr err eq_refl) as [x ->]. by exists x.
    + intros Hacc. apply Hok in Hacc. done.
  - split.
    + intros Hacc. destruct Hok as [Hok _]. rewrite (Hok eq_refl) in Hacc. done.
    + intros _. rewrite Htags. split.
      * intros (k & v & Hin & Hnil & Hv).
        rewrite (tagStrings_other (ForEach tagsTb) k v); [done| |done].
        unfold ForEach. apply list_elem_of_filter. split; [|done].
        by apply isNil_false.
      * intros ss Hss. rewrite (tagStrings_all _ ss Hss).
        eexists. split; [reflexivity|]. cbn [Host.setTags Host.Tags].
        destruct (hostFields_spec h1 config) as (_ & _ & _ & ->).
        by rewrite Ht.
Qed.

(** ** esshRequire, run *)


Definition isDoFile (c : Call) : bool :=
  match c with CallDoFile _ => true | _ => false end.

Definition evaluations (calls : list Call) : nat :=
  length (List.filter isDoFile calls).

(** The world esshRequire leaves after a successful load: the value on
    top of the stack is cached under the name and pushed. *)
Definition cached (name : string) (w : World) : World :=
  let ret := stackGet (stack w) (-1) in
  setStack
    (setLoadedModules w
       (<[name := Module.setValue (Module.NewModule name) ret]> (LoadedModules w)))
    (stack w ++ [ret]).

Lemma stackGet_first (v : LValue) (rest : list LValue) :
  stackGet (v :: rest) (Z.of_nat 1) = v.
Proof. reflexivity. Qed.

Lemma esshRequire_run (w : World) (name : string) (rest : list LValue) :
  stack w = LString name :: rest →
  esshRequire w =
    match LoadedModules w !! name with
    | Some module =>
        Returned 1%nat (setStack w (stack w ++ [Module.Value module])) []
    | None =>
        let module := Module.NewModule name in
        let indexFile := module_IndexFile module in
        let load := CallLoad name (updateFlag w) in
        let r := module_Load module (updateFlag w) (env w) in
        let w1 := setEnv w r.2 in
        match r.1 with
        | Some err => Aborted (RaiseError "%v" [err]) w1 [load]
        | None =>
            match os_Stat indexFile (env w1) with
            | Some err =>
                Aborted (RaiseError "Could not load essh module: %v" [err]) w1
                  [load; CallStat indexFile]
            | None =>
                match L_DoFile indexFile w1 with
                | DoFileError err w2 =>
                    Aborted (RaiseError "%v" [err]) (setStack w2 (stack w1))
                      [load; CallStat indexFile; CallDoFile indexFile]
                | DoFileOk rets w2 =>
                    Returned 1%nat
                      (cached name (setStack w2 (stack w1 ++ rets)))
                      [load; CallStat indexFile; CallDoFile indexFile]
                end
            end
        end
    end.
Proof.
  intros Hst. unfold esshRequire, L_CheckString, L_Get.
  rewrite !bind_assoc, bind_get, bind_mret.
  rewrite Hst, stackGet_first, bind_mret, bind_get, <- Hst.
  destruct (LoadedModules w !! name) as [module|].
  - rewrite bind_mret. unfold L_Push. by rewrite bind_assoc, bind_get, bind_put.
  - cbv zeta. rewrite !bind_assoc. rewrite bind_run. unfold Load at 1.
    destruct (module_Load (Module.NewModule name) (updateFlag w) (env w))
      as [[err|] e]; cbn [fst snd]; [by rewrite bind_assoc|].
    rewrite bind_assoc, bind_mret, bind_assoc, bind_run. unfold Stat at 1.
    cbn [env setEnv] in *.
    destruct (os_Stat _ e) as [err|]; [by rewrite bind_assoc|].
    rewrite bind_assoc, bind_mret, bind_assoc, bind_run. unfold DoFile at 1.
    destruct (L_DoFile _ _) as [err w2|rets w2]; [by rewrite bind_assoc|].
    reflexivity.
Qed.



(** C2, amended.  [MaxN] is the largest n with keys 1..n all present, and
    it is 0 exactly when key 1 is absent.  A table converts to a mapping
    when [MaxN] is 0 and otherwise to the sequence of the conversions of
    the values at 1..MaxN, in index order.  So a table with keys 1, 2, 3
    (and no key 4) converts to a sequence of length 3, and a table with key
    1 but no key 2 converts to the sequence of length 1 holding the value
    at key 1, whatever other keys (such as 3) it has; it is not a
    mapping. *)
Theorem toGoValue_table_shape (p : ptr) (t : Table) :
  (∀ i : nat, (1 ≤ i ≤ MaxN t)%nat → RawGetInt t (Z.of_nat i) ≠ LNil) ∧
  RawGetInt t (Z.of_nat (S (MaxN t))) = LNil ∧
  (MaxN t = 0%nat ↔ RawGetInt t 1 = LNil) ∧
  (MaxN t = 0%nat →
     toGoValue (LTable p t) = GoMap (foldl insertEntry ∅ (ForEach t))) ∧
  (MaxN t ≠ 0%nat →
     toGoValue (LTable p t) =
       GoSlice (map (λ i : nat, toGoValue (RawGetInt t (Z.of_nat i)))
                  (seq 1 (MaxN t)))) ∧
  (RawGetInt t 1 ≠ LNil → RawGetInt t 2 ≠ LNil → RawGetInt t 3 ≠ LNil →
   RawGetInt t 4 = LNil →
     toGoValue (LTable p t) =
       GoSlice [toGoValue (RawGetInt t 1); toGoValue (RawGetInt t 2);
                toGoValue (RawGetInt t 3)]) ∧
  (RawGetInt t 1 ≠ LNil → RawGetInt t 2 = LNil →
     toGoValue (LTable p t) = GoSlice [toGoValue (RawGetInt t 1)]).
Proof.
  assert (Hzero : MaxN t = 0%nat ↔ RawGetInt t 1 = LNil).
  { split.
    - intros H0. pose proof (MaxN_absent t) as Ha. by rewrite H0 in Ha.
    - intros H1. apply MaxN_unique; [lia|done]. }
  split; [apply MaxN_present|].
  split; [apply MaxN_absent|].
  split; [exact Hzero|].
  split; [|split; [|split]].
  - intros H0. rewrite toGoValue_LTable, H0. done.
  - intros Hn. rewrite toGoValue_LTable.
    destruct (Nat.eqb_spec (MaxN t) 0); [done|done].
  - intros H1 H2 H3 H4.
    assert (Hn : MaxN t = 3%nat).
    { apply MaxN_unique; [|done]. intros i Hi.
      assert (i = 1 ∨ i = 2 ∨ i = 3)%nat as [->|[->| ->]] by lia; done. }
    rewrite toGoValue_LTable, Hn. done.
  - intros H1 H2.
    assert (Hn : MaxN t = 1%nat).
    { apply MaxN_unique; [|done]. intros i Hi.
      assert (i = 1)%nat as -> by lia. done. }
    rewrite toGoValue_LTable, Hn. done.
Qed.

(** C9.  [reset()] returns with the Host and Task collections empty and
    with the module registry, like the rest of the process state, as it
    was. *)
Theorem esshReset_clears_hosts_and_tasks (w : World) :
  ∃ w', esshReset w = Returned 0%nat w' [] ∧
        Hosts w' = [] ∧ Tasks w' = [] ∧
        LoadedModules w' = LoadedModules w ∧
        updateFlag w' = updateFlag w ∧ env w' = env w ∧ stack w' = stack w.
Proof. eexists. split; [reflexivity|]. simpl. done. Qed.

(** * The rest of lualib.go *)

(** ** The entry points esshHost and esshTask *)

(** The Go closures esshHost and esshTask hand to [L.NewFunction] in the
    DSL style; each captures the name. *)
Inductive GoClosure : Type :=
| HostDSL (name : string)
| TaskDSL (name : string).

(** The address [L.NewFunction] gives the function value it makes. *)
Variable L_NewFunction : GoClosure → World → ptr.

Definition L_GetTop : M nat :=
  w ← get; mret (length (stack w)).

(** [L.CheckTable(n)]: the table at index [n], a type error otherwise. *)
Definition L_CheckTable (n : nat) : M Table :=
  v ← L_Get (Z.of_nat n);
  match v with
  | LTable _ tb => mret tb
  | _ => abort (TypeError n "table")
  end.

Definition NewFunction (fn : GoClosure) : M LValue :=
  w ← get; mret (LFunction (L_NewFunction fn w)).

Definition esshHost : M nat :=
  name ← L_CheckString 1;
  top ← L_GetTop;
  if Nat.eqb top 2 then
    tb ← L_CheckTable 2;
    registerHost name tb;;
    mret 0%nat
  else
    fn ← NewFunction (HostDSL name);
    L_Push fn;;
    mret 1%nat.

Definition esshTask : M nat :=
  name ← L_CheckString 1;
  top ← L_GetTop;
  if Nat.eqb top 2 then
    tb ← L_CheckTable 2;
    registerTask name tb;;
    mret 0%nat
  else
    fn ← NewFunction (TaskDSL name);
    L_Push fn;;
    mret 1%nat.

(** What runs when Lua calls the function the DSL style returned. *)
Definition callGoClosure (fn : GoClosure) : M nat :=
  match fn with
  | HostDSL name =>
      tb ← L_CheckTable 1;
      registerHost name tb;;
      mret 0%nat
  | TaskDSL name =>
      tb ← L_CheckTable 1;
      registerTask name tb;;
      mret 0%nat
  end.

(** The string [L.CheckString] makes of an argument, if any. *)
Definition argString (v : LValue) : option string :=
  match v with
  | LString s => Some s
  | LNumber _ => Some (LValue_String v)
  | _ => None
  end.

(** A construction that either aborts, leaving the state alone, or returns
    [a] with one host appended. *)
Definition appendsHost {A} (r : Abort + Host.t) (a : A) (w : World) : Outcome A :=
  match r with
  | inl e => Aborted e w []
  | inr h => Returned a (setHosts w (Hosts w ++ [h])) []
  end.

Definition appendsTask {A} (r : Abort + Task.t) (a : A) (w : World) : Outcome A :=
  match r with
  | inl e => Aborted e w []
  | inr t => Returned a (setTasks w (Tasks w ++ [t])) []
  end.

Lemma registerHost_appendsHost (name : string) (config : Table) :
  ∃ r : Abort + Host.t,
    (∀ h, r = inr h → Host.Name h = name) ∧
    ∀ w, registerHost name config w = appendsHost r tt w.
Proof.
  set (h0 := Host.mk name (foldl copyUpper [] (ForEach config)) ∅ "" false []).
  destruct (hookPhase_spec h0 (RawGetString config "hooks")) as ((Hn & _) & _).
  destruct (hostFields_spec (hookPhase h0 (RawGetString config "hooks")).1 config)
    as (Hn' & _).
  assert (Hn0 : Host.Name h0 = name) by reflexivity.
  destruct (hookPhase h0 (RawGetString config "hooks")) as [h1 [err|]] eqn:Hp;
    cbn [fst snd] in Hn, Hn'.
  - exists (inl (Panic err)). split; [done|].
    intros w. rewrite registerHost_run. cbv zeta. fold h0. by rewrite Hp.
  - destruct (RawGetString config "tags") as [| | | | | | | |p tagsTb] eqn:Ht.
    9:{ destruct (tagStrings (ForEach tagsTb)) as [ss|] eqn:Hs.
        - exists (inr (Host.setTags (hostFields h1 config)
                         (Host.Tags (hostFields h1 config) ++ ss))). split.
          + intros h [= <-]. cbn [Host.setTags Host.Name]. congruence.
          + intros w. rewrite registerHost_run. cbv zeta. fold h0.
            rewrite Hp, Ht, Hs. reflexivity.
        - exists (inl (RaiseError tagsMessage [])). split; [done|].
          intros w. rewrite registerHost_run. cbv zeta. fold h0.
          by rewrite Hp, Ht, Hs. }
    all: exists (inr (hostFields h1 config)); (split; [intros h [= <-]; congruence|]);
      intros w; rewrite registerHost_run; cbv zeta; fold h0; by rewrite Hp, Ht.
Qed.

Lemma registerTask_appendsTask (name : string) (config : Table) :
  ∃ r : Abort + Task.t,
    (∀ t, r = inr t → Task.Name t = name) ∧
    ∀ w, registerTask name config w = appendsTask r tt w.
Proof.
  destruct (taskFields_rest name config) as (Hn & Hon & Hfe & _).
  destruct (taskTargets_fields _ config Hon Hfe) as (_ & _ & Hn' & _).
  destruct (taskPrefix_fields (taskTargets (taskFields name config) config) config)
    as (Hn'' & _).
  destruct (negb (bool_decide (stringOf (RawGetString config "file") = ""))
            && negb (bool_decide (stringOf (RawGetString config "script") = "")))
    eqn:E1.
  { exists (inl (RaiseError fileAndScriptMessage [])). split; [done|].
    intros w. by rewrite registerTask_run, E1. }
  destruct (negb (bool_decide (coerceTargets (RawGetString config "foreach") = []))
            && negb (bool_decide (coerceTargets (RawGetString config "on") = [])))
    eqn:E2.
  { exists (inl (RaiseError foreachAndOnMessage [])). split; [done|].
    intros w. by rewrite registerTask_run, E1, E2. }
  destruct (RawGetString config "prepare") as [| | | |fn| | | |] eqn:Hp.
  1:{ exists (inr (taskPrefix (taskTargets (taskFields name config) config) config)).
      split.
      - intros t [= <-]. congruence.
      - intros w. rewrite registerTask_run, E1, E2, Hp. reflexivity. }
  4:{ exists (inr (Task.setPrepare
                     (taskPrefix (taskTargets (taskFields name config) config) config)
                     (Some fn))).
      split.
      - intros t [= <-]. cbn [Task.setPrepare Task.Name]. congruence.
      - intros w. rewrite registerTask_run, E1, E2, Hp. reflexivity. }
  all: exists (inl (RaiseError "prepare have to be function." []));
    (split; [done|]); intros w; by rewrite registerTask_run, E1, E2, Hp.
Qed.


Lemma L_CheckString_run {B} (n : nat) (f : string → M B) (w : World) :
  (L_CheckString n ≫= f) w =
    match argString (stackGet (stack w) (Z.of_nat n)) with
    | Some s => f s w
    | None => Aborted (TypeError n "string") w []
    end.
Proof.
  unfold L_CheckString, L_Get. rewrite !bind_assoc, bind_get, bind_mret.
  destruct (stackGet (stack w) (Z.of_nat n)); cbn [argString];
    try reflexivity; apply bind_mret.
Qed.

Lemma L_CheckTable_run {B} (n : nat) (f : Table → M B) (w : World) :
  (L_CheckTable n ≫= f) w =
    match stackGet (stack w) (Z.of_nat n) with
    | LTable _ tb => f tb w
    | _ => Aborted (TypeError n "table") w []
    end.
Proof.
  unfold L_CheckTable, L_Get. rewrite !bind_assoc, bind_get, bind_mret.
  destruct (stackGet (stack w) (Z.of_nat n)); try reflexivity; apply bind_mret.
Qed.

Lemma appendsHost_bind {A} (m : M unit) (r : Abort + Host.t) (a : A) (w : World) :
  m w = appendsHost r tt w → (m ≫= λ _, mret a) w = appendsHost r a w.
Proof. intros H. rewrite bind_run, H. by destruct r. Qed.

Lemma appendsTask_bind {A} (m : M unit) (r : Abort + Task.t) (a : A) (w : World) :
  m w = appendsTask r tt w → (m ≫= λ _, mret a) w = appendsTask r a w.
Proof. intros H. rewrite bind_run, H. by destruct r. Qed.

Lemma esshHost_run (w : World) :
  esshHost w =
    match argString (stackGet (stack w) 1) with
    | None => Aborted (TypeError 1 "string") w []
    | Some name =>
        if Nat.eqb (length (stack w)) 2 then
          match stackGet (stack w) 2 with
          | LTable _ tb => (registerHost name tb ≫= λ _, mret 0%nat) w
          | _ => Aborted (TypeError 2 "table") w []
          end
        else
          Returned 1%nat
            (setStack w (stack w ++ [LFunction (L_NewFunction (HostDSL name) w)])) []
    end.
Proof.
  unfold esshHost. rewrite L_CheckString_run. change (Z.of_nat 1) with 1.
  destruct (argString _) as [name|]; [|done].
  unfold L_GetTop. rewrite bind_assoc, bind_get, bind_mret.
  destruct (Nat.eqb _ 2).
  - by rewrite L_CheckTable_run.
  - unfold NewFunction, L_Push.
    by rewrite bind_assoc, bind_get, bind_mret, bind_assoc, bind_get, bind_put.
Qed.

Lemma esshTask_run (w : World) :
  esshTask w =
    match argString (stackGet (stack w) 1) with
    | None => Aborted (TypeError 1 "string") w []
    | Some name =>
        if Nat.eqb (length (stack w)) 2 then
          match stackGet (stack w) 2 with
          | LTable _ tb => (registerTask name tb ≫= λ _, mret 0%nat) w
          | _ => Aborted (TypeError 2 "table") w []
          end
        else
          Returned 1%nat
            (setStack w (stack w ++ [LFunction (L_NewFunction (TaskDSL name) w)])) []
    end.
Proof.
  unfold esshTask. rewrite L_CheckString_run. change (Z.of_nat 1) with 1.
  destruct (argString _) as [name|]; [|done].
  unfold L_GetTop. rewrite bind_assoc, bind_get, bind_mret.
  destruct (Nat.eqb _ 2).
  - by rewrite L_CheckTable_run.
  - unfold NewFunction, L_Push.
    by rewrite bind_assoc, bind_get, bind_mret, bind_assoc, bind_get, bind_put.
Qed.

(** X1.  The two calling conventions of Host build the same thing:
    [Host(name, tb)] and the function that [Host(name)] returns, applied to
    [tb], end with the same abort and an untouched state, or both append the
    same host; [Host(name)] itself only pushes that function. *)
Theorem esshHost_styles_agree (a1 : LValue) (name : string) (p : ptr) (tb : Table) :
  argString a1 = Some name →
  ∃ r : Abort + Host.t,
    (∀ w, stack w = [a1; LTable p tb] → esshHost w = appendsHost r 0%nat w) ∧
    (∀ w, stack w = [LTable p tb] →
          callGoClosure (HostDSL name) w = appendsHost r 0%nat w) ∧
    (∀ w, stack w = [a1] →
          esshHost w
            = Returned 1%nat
                (setStack w [a1; LFunction (L_NewFunction (HostDSL name) w)]) []).
Proof.
  intros Ha. destruct (registerHost_appendsHost name tb) as (r & _ & Hr).
  exists r. split_and!.
  - intros w Hst. rewrite esshHost_run, Hst.
    change (stackGet [a1; LTable p tb] 1) with a1. rewrite Ha.
    cbn [length Nat.eqb]. change (stackGet [a1; LTable p tb] 2) with (LTable p tb).
    cbv iota. apply appendsHost_bind, Hr.
  - intros w Hst. unfold callGoClosure. rewrite L_CheckTable_run, Hst.
    change (stackGet [LTable p tb] (Z.of_nat 1)) with (LTable p tb). cbv iota.
    apply appendsHost_bind, Hr.
  - intros w Hst. rewrite esshHost_run, Hst.
    change (stackGet [a1] 1) with a1. by rewrite Ha.
Qed.

(** X2.  The same for Task: [Task(name, tb)] and the function [Task(name)]
    returns, applied to [tb], fail alike or append the same task. *)
Theorem esshTask_styles_agree (a1 : LValue) (name : string) (p : ptr) (tb : Table) :
  argString a1 = Some name →
  ∃ r : Abort + Task.t,
    (∀ w, stack w = [a1; LTable p tb] → esshTask w = appendsTask r 0%nat w) ∧
    (∀ w, stack w = [LTable p tb] →
          callGoClosure (TaskDSL name) w = appendsTask r 0%nat w) ∧
    (∀ w, stack w = [a1] →
          esshTask w
            = Returned 1%nat
                (setStack w [a1; LFunction (L_NewFunction (TaskDSL name) w)]) []).
Proof.
  intros Ha. destruct (registerTask_appendsTask name tb) as (r & _ & Hr).
  exists r. split_and!.
  - intros w Hst. rewrite esshTask_run, Hst.
    change (stackGet [a1; LTable p tb] 1) with a1. rewrite Ha.
    cbn [length Nat.eqb]. change (stackGet [a1; LTable p tb] 2) with (LTable p tb).
    cbv iota. apply appendsTask_bind, Hr.
  - intros w Hst. unfold callGoClosure. rewrite L_CheckTable_run, Hst.
    change (stackGet [LTable p tb] (Z.of_nat 1)) with (LTable p tb). cbv iota.
    apply appendsTask_bind, Hr.
  - intros w Hst. rewrite esshTask_run, Hst.
    change (stackGet [a1] 1) with a1. by rewrite Ha.
Qed.

(** X3.  Host and Task register at once only when called with exactly two
    arguments.  With any other number of arguments they register nothing, a
    table among the arguments or not.  When the first argument is a string
    or a number they push a function and return 1.  When it is anything
    else, or when there is no argument at all, they raise the type error
    for argument 1 and push nothing.  The state they leave differs from the
    one they found by the pushed function at most. *)
Theorem entry_points_other_arity (w : World) :
  length (stack w) ≠ 2%nat →
  match argString (stackGet (stack w) 1) with
  | Some name =>
      esshHost w
        = Returned 1%nat
            (setStack w
               (stack w ++ [LFunction (L_NewFunction (HostDSL name) w)])) [] ∧
      esshTask w
        = Returned 1%nat
            (setStack w
               (stack w ++ [LFunction (L_NewFunction (TaskDSL name) w)])) []
  | None =>
      esshHost w = Aborted (TypeError 1 "string") w [] ∧
      esshTask w = Aborted (TypeError 1 "string") w []
  end.
Proof.
  intros Hlen. rewrite esshHost_run, esshTask_run.
  destruct (argString (stackGet (stack w) 1)) as [name|]; [|done].
  by destruct (Nat.eqb_spec (length (stack w)) 2).
Qed.

(** X4.  Host and Task check their arguments before they build anything:
    a first argument that is neither a string nor a number, or a second of
    two arguments that is not a table, is a type error naming the argument,
    and the state is as it was. *)
Theorem entry_points_type_errors (w : World) :
  (argString (stackGet (stack w) 1) = None →
   esshHost w = Aborted (TypeError 1 "string") w [] ∧
   esshTask w = Aborted (TypeError 1 "string") w []) ∧
  (∀ name,
     argString (stackGet (stack w) 1) = Some name →
     length (stack w) = 2%nat →
     toLTable (stackGet (stack w) 2) = None →
     esshHost w = Aborted (TypeError 2 "table") w [] ∧
     esshTask w = Aborted (TypeError 2 "table") w []).
Proof.
  split.
  - intros Ha. by rewrite esshHost_run, esshTask_run, Ha.
  - intros name Ha Hlen Htb. rewrite esshHost_run, esshTask_run, Ha, Hlen.
    cbn [Nat.eqb]. by destruct (stackGet (stack w) 2).
Qed.


(** ** registerHost and registerTask: what a call can change *)

(** X5.  What registerHost does depends on the name and the config only,
    not on the process state.  Either it aborts, and then every state is
    left exactly as it was; or it appends one host, named as asked, at the
    end of Hosts and changes nothing else (Tasks, the module registry, the
    stack), calling no collaborator. *)
Theorem registerHost_atomic (name : string) (config : Table) :
  (∃ e, ∀ w, registerHost name config w = Aborted e w []) ∨
  (∃ h, Host.Name h = name ∧
        ∀ w, registerHost name config w
               = Returned tt (setHosts w (Hosts w ++ [h])) []).
Proof.
  destruct (registerHost_appendsHost name config) as ([e|h] & Hn & Hr).
  - left. exists e. exact Hr.
  - right. exists h. split; [by apply Hn|exact Hr].
Qed.

(** X6.  The same for registerTask: it aborts and leaves every state as it
    was, or it appends one task, named as asked, at the end of Tasks and
    changes nothing else; which of the two, and which task, depends on the
    name and the config only. *)
Theorem registerTask_atomic (name : string) (config : Table) :
  (∃ e, ∀ w, registerTask name config w = Aborted e w []) ∨
  (∃ t, Task.Name t = name ∧
        ∀ w, registerTask name config w
               = Returned tt (setTasks w (Tasks w ++ [t])) []).
Proof.
  destruct (registerTask_appendsTask name config) as ([e|t] & Hn & Hr).
  - left. exists e. exact Hr.
  - right. exists t. split; [by apply Hn|exact Hr].
Qed.

(** ** registerHost: the host it builds *)

(** The hook a config value stands for. *)
Definition hookOf (v : LValue) : option Hook :=
  match v with
  | LFunction hookFn => Some (NativeCallback hookFn)
  | LString hookString => Some (RemoteCommand hookString)
  | _ => None
  end.

Definition hookPoints : list string :=
  ["before"; "before_connect"; "after_connect"; "after"; "after_disconnect"].

Lemma registerHook_lookup (h : Host.t) (pt : string) (v : LValue) (pt' : string) :
  (registerHook h pt v).2 = None →
  Host.Hooks (registerHook h pt v).1 !! pt'
    = if decide (pt' = pt)
      then match hookOf v with Some k => Some k | None => Host.Hooks h !! pt' end
      else Host.Hooks h !! pt'.
Proof.
  unfold registerHook.
  destruct v; simpl; try done; intros _; case_decide; subst;
    by rewrite ?lookup_insert_eq, ?lookup_insert_ne.
Qed.

Lemma registerRemoteHook_lookup (h : Host.t) (pt : string) (v : LValue)
    (pt' : string) :
  (registerRemoteHook h pt v).2 = None →
  Host.Hooks (registerRemoteHook h pt v).1 !! pt'
    = if decide (pt' = pt)
      then match hookOf v with Some k => Some k | None => Host.Hooks h !! pt' end
      else Host.Hooks h !! pt'.
Proof.
  unfold registerRemoteHook.
  destruct v; simpl; try done; intros _; case_decide; subst;
    by rewrite ?lookup_insert_eq, ?lookup_insert_ne.
Qed.

Lemma hookPhase_lookup (h : Host.t) (p : ptr) (hookTb : Table) (pt : string) :
  (hookPhase h (LTable p hookTb)).2 = None →
  Host.Hooks (hookPhase h (LTable p hookTb)).1 !! pt
    = if bool_decide (pt ∈ hookPoints)
      then match hookOf (RawGetString hookTb pt) with
           | Some k => Some k
           | None => Host.Hooks h !! pt
           end
      else Host.Hooks h !! pt.
Proof.
  unfold hookPhase. cbn [toLTable]. unfold andThen.
  pose proof (registerHook_lookup h "before" (RawGetString hookTb "before") pt) as L1.
  destruct (registerHook h "before" _) as [h1 [e|]]; cbn [fst snd] in *; [done|].
  pose proof (registerHook_lookup h1 "before_connect"
                (RawGetString hookTb "before_connect") pt) as L2.
  destruct (registerHook h1 "before_connect" _) as [h2 [e|]];
    cbn [fst snd] in *; [done|].
  pose proof (registerRemoteHook_lookup h2 "after_connect"
                (RawGetString hookTb "after_connect") pt) as L3.
  destruct (registerRemoteHook h2 "after_connect" _) as [h3 [e|]];
    cbn [fst snd] in *; [done|].
  pose proof (registerHook_lookup h3 "after" (RawGetString hookTb "after") pt) as L4.
  destruct (registerHook h3 "after" _) as [h4 [e|]]; cbn [fst snd] in *; [done|].
  pose proof (registerHook_lookup h4 "after_disconnect"
                (RawGetString hookTb "after_disconnect") pt) as L5.
  destruct (registerHook h4 "after_disconnect" _) as [h5 [e|]];
    cbn [fst snd] in *; [done|].
  intros _. rewrite (L5 eq_refl), (L4 eq_refl), (L3 eq_refl), (L2 eq_refl),
    (L1 eq_refl).
  unfold hookPoints.
  destruct (decide (pt = "before")) as [->|N1]; [done|].
  destruct (decide (pt = "before_connect")) as [->|N2]; [done|].
  destruct (decide (pt = "after_connect")) as [->|N3]; [done|].
  destruct (decide (pt = "after")) as [->|N4]; [done|].
  destruct (decide (pt = "after_disconnect")) as [->|N5]; [done|].
  rewrite bool_decide_eq_false_2; [done|].
  rewrite !elem_of_cons, elem_of_nil. intros [?|[?|[?|[?|[?|[]]]]]]; done.
Qed.

Lemma hostFields_values (h : Host.t) (config : Table) :
  Host.Description (hostFields h config)
    = match RawGetString config "description" with
      | LString descStr => descStr
      | _ => Host.Description h
      end ∧
  Host.Hidden (hostFields h config)
    = match RawGetString config "hidden" with
      | LBool hiddenBool => hiddenBool
      | _ => Host.Hidden h
      end.
Proof.
  unfold hostFields.
  destruct (RawGetString config "description"), (RawGetString config "hidden");
    done.
Qed.

(** The host a successful registerHost appends, field by field. *)
Lemma registerHost_built
    (name : string) (config : Table) (w w' : World) (calls : list Call) :
  registerHost name config w = Returned tt w' calls →
  let h0 := Host.mk name (foldl copyUpper [] (ForEach config)) ∅ "" false [] in
  ∃ h, w' = setHosts w (Hosts w ++ [h]) ∧ calls = [] ∧
       (hookPhase h0 (RawGetString config "hooks")).2 = None ∧
       Host.Config h = foldl copyUpper [] (ForEach config) ∧
       Host.Hooks h = Host.Hooks (hookPhase h0 (RawGetString config "hooks")).1 ∧
       Host.Description h
         = match RawGetString config "description" with
           | LString descStr => descStr
           | _ => ""
           end ∧
       Host.Hidden h
         = match RawGetString config "hidden" with
           | LBool hiddenBool => hiddenBool
           | _ => false
           end ∧
       match RawGetString config "tags" with
       | LTable _ tagsTb => tagStrings (ForEach tagsTb) = Some (Host.Tags h)
       | _ => Host.Tags h = []
       end.
Proof.
  intros Hrun h0. rewrite registerHost_run in Hrun. cbv zeta in Hrun. fold h0 in Hrun.
  destruct (hookPhase_spec h0 (RawGetString config "hooks"))
    as ((_ & Hc & Hd & Hh & Ht) & _).
  destruct (hookPhase h0 (RawGetString config "hooks")) as [h1 [err|]];
    [done|]. cbn [fst snd] in *.
  destruct (hostFields_spec h1 config) as (_ & Hc' & Hk' & Ht').
  destruct (hostFields_values h1 config) as (Hd' & Hh').
  rewrite Hd in Hd'. rewrite Hh in Hh'. cbn [Host.Description Host.Hidden h0] in *.
  destruct (RawGetString config "tags") as [| | | | | | | |p tagsTb].
  9:{ destruct (tagStrings (ForEach tagsTb)) as [ss|] eqn:Hs; [|done].
      injection Hrun as Hw Hcalls; subst w' calls. eexists. split_and!; try reflexivity; try done.
      - cbn [Host.setTags Host.Config]. by rewrite Hc', Hc.
      - cbn [Host.setTags Host.Tags]. by rewrite Ht', Ht. }
  all: injection Hrun as Hw Hcalls; subst w' calls; eexists; split_and!; try reflexivity; try done;
    [by rewrite Hc', Hc|by rewrite Ht', Ht].
Qed.


Lemma tagStrings_stringsOf (entries : Table) (ss : list string) :
  tagStrings entries = Some ss → ss = stringsOf (map snd entries).
Proof.
  revert ss. induction entries as [|[k v] entries IH]; intros ss; simpl.
  - by intros [= <-].
  - destruct v; try done. destruct (tagStrings entries) as [ss'|]; [|done].
    intros [= <-]. unfold stringsOf. simpl. f_equal. by apply IH.
Qed.

(** X7.  The optional fields of a host default silently.  In the host a
    successful registerHost appends, Description is the string under
    'description' and empty when that value is anything but a string; Hidden
    is the boolean under 'hidden' and false when it is anything but a
    boolean; Tags are the strings of the table under 'tags', in traversal
    order, and empty when 'tags' is absent or not a table (a plain string
    under 'tags' is ignored, not an error). *)
Theorem registerHost_optional_fields
    (name : string) (config : Table) (w w' : World) (calls : list Call) :
  registerHost name config w = Returned tt w' calls →
  ∃ h, Hosts w' = Hosts w ++ [h] ∧
       Host.Description h
         = match RawGetString config "description" with
           | LString s => s
           | _ => ""
           end ∧
       Host.Hidden h
         = match RawGetString config "hidden" with
           | LBool b => b
           | _ => false
           end ∧
       Host.Tags h
         = match RawGetString config "tags" with
           | LTable _ tagsTb => stringsOf (map snd (ForEach tagsTb))
           | _ => []
           end.
Proof.
  intros Hrun.
  apply registerHost_built in Hrun as (h & -> & _ & _ & _ & _ & Hd & Hh & Ht).
  exists h. split_and!; try done.
  destruct (RawGetString config "tags") as [| | | | | | | |p tagsTb];
    try done.
  by apply tagStrings_stringsOf.
Qed.

(** X8.  The Hooks of a host that registerHost builds are exactly what the
    table under 'hooks' says about the five hook points: a function there
    becomes a native callback, a string a remote command, and a point the
    table does not mention is absent.  The deprecated points "before" and
    "after" are stored under their own names, next to "before_connect" and
    "after_disconnect"; any other key of the table is ignored; without a
    table under 'hooks' the map is empty. *)
Theorem registerHost_hooks
    (name : string) (config : Table) (w w' : World) (calls : list Call) :
  registerHost name config w = Returned tt w' calls →
  ∃ h, Hosts w' = Hosts w ++ [h] ∧
       ∀ hookPoint,
         Host.Hooks h !! hookPoint
           = match RawGetString config "hooks" with
             | LTable _ hookTb =>
                 if bool_decide (hookPoint ∈ hookPoints)
                 then hookOf (RawGetString hookTb hookPoint)
                 else None
             | _ => None
             end.
Proof.
  intros Hrun.
  apply registerHost_built in Hrun as (h & -> & _ & Hok & _ & Hk & _).
  exists h. split; [done|]. intros pt. rewrite Hk.
  destruct (RawGetString config "hooks") as [| | | | | | | |p hookTb];
    try (cbv [hookPhase toLTable]; cbn [fst Host.Hooks]; by rewrite lookup_empty).
  rewrite (hookPhase_lookup _ _ _ _ Hok). cbn [Host.Hooks].
  rewrite lookup_empty. destruct (bool_decide _); [|done].
  by destruct (hookOf _).
Qed.

(** ** registerHost: which keys reach Config *)

Definition isDigit (c : Ascii.ascii) : bool := inRange 0x30 0x39 (byteOf c).

Definition headDigit (s : string) : Prop :=
  ∃ c rest, s = String c rest ∧ isDigit c = true.

Lemma pretty_N_char_digit (x : N) : isDigit (pretty_N_char x) = true.
Proof. unfold pretty_N_char. by repeat case_match. Qed.

Lemma pretty_N_go_headDigit (x : N) (s : string) :
  (0 < x)%N ∨ headDigit s → headDigit (pretty_N_go x s).
Proof.
  revert s. induction (N.lt_wf_0 x) as [x _ IH]; intros s Hs.
  assert (x = 0 ∨ 0 < x)%N as [->|Hx] by lia.
  - rewrite pretty_N_go_0. by destruct Hs as [?|?]; [lia|].
  - rewrite pretty_N_go_step by done. apply IH; [by apply N.div_lt|].
    right. eexists _, _. split; [done|]. apply pretty_N_char_digit.
Qed.

Lemma IsUpper_ascii (a : Ascii.ascii) (rest : string) :
  byteOf a < 0x80 →
  IsUpper (firstChar (String a rest)) = inRange 0x41 0x5A (byteOf a).
Proof.
  intros Hlt. assert (0 ≤ byteOf a) by (unfold byteOf; lia).
  unfold firstChar, decodeRune.
  destruct (Z.ltb_spec (byteOf a) 0x80); [|lia].
  unfold IsUpper, latin1Upper, inRange.
  repeat match goal with
         | |- context [(?x <=? ?y)] => destruct (Z.leb_spec x y)
         end; simpl; try lia; reflexivity.
Qed.

Lemma headDigit_not_upper (s : string) :
  headDigit s → IsUpper (firstChar s) = false.
Proof.
  intros (c & rest & -> & Hc). unfold isDigit, inRange in Hc.
  apply andb_true_iff in Hc as [H1%Z.leb_le H2%Z.leb_le].
  rewrite IsUpper_ascii by lia. unfold inRange.
  destruct (Z.leb_spec 0x41 (byteOf c)); [lia|done].
Qed.

Lemma number_not_upper (n : Z) : IsUpper (firstChar (pretty n)) = false.
Proof.
  destruct n as [|x|x]; [done| |done].
  apply headDigit_not_upper.
  change (pretty (Z.pos x)) with (pretty (N.pos x)).
  unfold pretty, pretty_N. rewrite decide_False by done.
  apply pretty_N_go_headDigit. left. lia.
Qed.

(** Only a string can pass the key test of registerHost. *)
Lemma upper_key_is_string (k : LValue) :
  IsUpper (firstChar (LValue_String k)) = true → ∃ s, k = LString s.
Proof.
  destruct k as [|[]|n|s| | | | |]; try done; [|by eexists].
  simpl. by rewrite number_not_upper.
Qed.

Lemma elem_of_RawSet (t : Table) (k v : LValue) (x : LValue * LValue) :
  x ∈ RawSet t k v → x ∈ t ∨ x = (k, v).
Proof.
  induction t as [|[k' v'] t IH]; simpl.
  - intros ->%list_elem_of_singleton. by right.
  - destruct (LValue_eqb k' k) eqn:E.
    + apply LValue_eqb_eq in E as ->.
      intros [->|H]%elem_of_cons; [by right|]. left. by apply list_elem_of_further.
    + intros [->|H]%elem_of_cons; [left; apply list_elem_of_here|].
      destruct (IH H) as [?|?]; [left; by apply list_elem_of_further|by right].
Qed.

Lemma copyUpper_elem (acc l : Table) (x : LValue * LValue) :
  x ∈ foldl copyUpper acc l → x ∈ acc ∨ (x ∈ l ∧ upperKey x).
Proof.
  revert acc. induction l as [|kv l IH]; intros acc; simpl; [by left|].
  intros H. apply IH in H as [H|[H U]].
  - unfold copyUpper in H.
    destruct (IsUpper (firstChar (LValue_String kv.1))) eqn:E; [|by left].
    apply elem_of_RawSet in H as [H| ->]; [by left|].
    right. split; [|done]. destruct kv. apply list_elem_of_here.
  - right. split; [|done]. by apply list_elem_of_further.
Qed.

(** X9.  Config can only hold entries of the config table that have a
    non-nil value and a string key starting with an upper-case rune, whatever
    the table looks like.  A key that is a number, a boolean, a table or a
    function never reaches Config, and neither does a lower-case key such as
    "hooks", "description", "hidden" or "tags". *)
Theorem registerHost_config_only_upper_strings
    (name : string) (config : Table) (w w' : World) (calls : list Call) :
  registerHost name config w = Returned tt w' calls →
  ∃ h, Hosts w' = Hosts w ++ [h] ∧
       ∀ k v, (k, v) ∈ Host.Config h →
              (k, v) ∈ config ∧ v ≠ LNil ∧
              ∃ s, k = LString s ∧ IsUpper (firstChar s) = true.
Proof.
  intros Hrun.
  apply registerHost_built in Hrun as (h & -> & _ & _ & Hc & _).
  exists h. split; [done|]. intros k v. rewrite Hc.
  intros [H|[H U]]%copyUpper_elem; [by apply not_elem_of_nil in H|].
  unfold ForEach in H. apply list_elem_of_filter in H as [Hv H].
  split; [done|]. split; [by apply isNil_false|].
  unfold upperKey in U. cbn [fst] in U.
  destruct (upper_key_is_string k U) as [s ->]. by exists s.
Qed.

(** X10.  For a key that starts with an ASCII byte the test is the plain
    one, whatever the Unicode tables say beyond Latin-1: in a well-formed
    config such a key is looked up in Config with its value exactly when its
    first byte is one of A to Z, and is absent from Config otherwise. *)
Theorem registerHost_config_ascii_keys
    (name : string) (config : Table) (w w' : World) (calls : list Call)
    (a : Ascii.ascii) (rest : string) :
  wfTable config →
  registerHost name config w = Returned tt w' calls →
  byteOf a < 0x80 →
  ∃ h, Hosts w' = Hosts w ++ [h] ∧
       RawGet (Host.Config h) (LString (String a rest))
         = if inRange 0x41 0x5A (byteOf a)
           then RawGet config (LString (String a rest))
           else LNil.
Proof.
  intros Hwf Hrun Ha.
  apply registerHost_built in Hrun as (h & -> & _ & _ & Hc & _).
  exists h. split; [done|]. rewrite Hc, ForEach_wf by done.
  rewrite copyUpper_filter by (simpl; apply Hwf).
  rewrite app_nil_l, RawGet_filter_upper. cbn [LValue_String].
  by rewrite IsUpper_ascii.
Qed.


(** ** registerTask: the task it builds *)

Lemma taskFields_values (name : string) (config : Table) :
  Task.Description (taskFields name config)
    = match RawGetString config "description" with
      | LString s => s
      | _ => Task.Description Task.NewTask
      end ∧
  Task.Pty (taskFields name config)
    = match RawGetString config "pty" with
      | LBool b => b
      | _ => Task.Pty Task.NewTask
      end ∧
  Task.Parallel (taskFields name config)
    = match RawGetString config "parallel" with
      | LBool b => b
      | _ => Task.Parallel Task.NewTask
      end ∧
  Task.Privileged (taskFields name config)
    = match RawGetString config "privileged" with
      | LBool b => b
      | _ => Task.Privileged Task.NewTask
      end ∧
  Task.Script (taskFields name config)
    = match RawGetString config "script" with
      | LString s => s
      | _ => Task.Script Task.NewTask
      end ∧
  Task.File (taskFields name config)
    = match RawGetString config "file" with
      | LString s => s
      | _ => Task.File Task.NewTask
      end ∧
  Task.Prefix (taskFields name config) = Task.Prefix Task.NewTask.
Proof.
  unfold taskFields. split_and!.
  - destruct (RawGetString config "description"); simpl; case_fields; reflexivity.
  - destruct (RawGetString config "pty"); simpl; case_fields; reflexivity.
  - destruct (RawGetString config "parallel"); simpl; case_fields; reflexivity.
  - destruct (RawGetString config "privileged"); simpl; case_fields; reflexivity.
  - destruct (RawGetString config "script"); simpl; case_fields; reflexivity.
  - destruct (RawGetString config "file"); simpl; case_fields; reflexivity.
  - case_fields; reflexivity.
Qed.

(** The fields [On], [Foreach], [Prefix] and [Prepare] apart. *)
Definition sameScalars (t t' : Task.t) : Prop :=
  Task.Description t' = Task.Description t ∧ Task.Pty t' = Task.Pty t ∧
  Task.Parallel t' = Task.Parallel t ∧ Task.Privileged t' = Task.Privileged t ∧
  Task.Script t' = Task.Script t ∧ Task.File t' = Task.File t.

Lemma taskTargets_scalars (task : Task.t) (config : Table) :
  sameScalars task (taskTargets task config) ∧
  Task.Prefix (taskTargets task config) = Task.Prefix task.
Proof.
  unfold taskTargets, sameScalars.
  destruct (toString (RawGetString config "on")) as [? []];
    destruct (toSlice (RawGetString config "on"));
    destruct (toString (RawGetString config "foreach")) as [? []];
    destruct (toSlice (RawGetString config "foreach")); done.
Qed.

Lemma taskPrefix_scalars (task : Task.t) (config : Table) :
  sameScalars task (taskPrefix task config) ∧
  Task.Prefix (taskPrefix task config)
    = match RawGetString config "prefix" with
      | LBool true =>
          if Task.IsRemoteTask task then DefaultPrefixRemote else DefaultPrefixLocal
      | LString s => s
      | _ => Task.Prefix task
      end.
Proof.
  unfold taskPrefix, sameScalars.
  destruct (RawGetString config "prefix") as [|[]| | | | | | |];
    destruct (Task.IsRemoteTask task); done.
Qed.

(** The task a successful registerTask appends. *)
Lemma registerTask_built
    (name : string) (config : Table) (w w' : World) (calls : list Call) :
  registerTask name config w = Returned tt w' calls →
  let task := taskPrefix (taskTargets (taskFields name config) config) config in
  ∃ t, w' = setTasks w (Tasks w ++ [t]) ∧ calls = [] ∧
       sameScalars task t ∧ Task.Name t = name ∧
       Task.On t = Task.On task ∧ Task.Foreach t = Task.Foreach task ∧
       Task.Prefix t = Task.Prefix task ∧
       Task.Prepare t
         = match RawGetString config "prepare" with
           | LFunction fn => Some fn
           | _ => None
           end.
Proof.
  rewrite registerTask_run.
  destruct (negb (bool_decide (stringOf _ = "")) && _); [done|].
  destruct (negb (bool_decide (coerceTargets _ = [])) && _); [done|].
  cbv zeta.
  destruct (taskFields_rest name config) as (Hn & Hon & Hfe & Hp).
  destruct (taskTargets_fields _ config Hon Hfe) as (_ & _ & Hn' & _ & _ & Hp').
  destruct (taskPrefix_fields (taskTargets (taskFields name config) config) config)
    as (Hn'' & _ & _ & Hp'').
  destruct (RawGetString config "prepare") as [| | | |fn| | | |]; try done;
    intros [= <- <-].
  - exists (taskPrefix (taskTargets (taskFields name config) config) config).
    unfold sameScalars. split_and!; try reflexivity; congruence.
  - exists (Task.setPrepare
              (taskPrefix (taskTargets (taskFields name config) config) config)
              (Some fn)).
    unfold sameScalars. cbn [Task.setPrepare Task.Name Task.Prepare].
    split_and!; try reflexivity; congruence.
Qed.

(** X11.  The task that a successful registerTask appends, field by
    field: the name as given; a string under 'description', 'script' or
    'file' and a boolean under 'pty', 'parallel' or 'privileged' are taken
    over, and a missing value or one of another shape (a number under
    'script', say) leaves what NewTask put there, without any error; On and
    Foreach are the coerced targets; Prepare is set exactly when 'prepare'
    holds a function. *)
Theorem registerTask_fields
    (name : string) (config : Table) (w w' : World) (calls : list Call) :
  registerTask name config w = Returned tt w' calls →
  ∃ t, Tasks w' = Tasks w ++ [t] ∧ Task.Name t = name ∧
       Task.Description t
         = match RawGetString config "description" with
           | LString s => s | _ => Task.Description Task.NewTask
           end ∧
       Task.Pty t
         = match RawGetString config "pty" with
           | LBool b => b | _ => Task.Pty Task.NewTask
           end ∧
       Task.Parallel t
         = match RawGetString config "parallel" with
           | LBool b => b | _ => Task.Parallel Task.NewTask
           end ∧
       Task.Privileged t
         = match RawGetString config "privileged" with
           | LBool b => b | _ => Task.Privileged Task.NewTask
           end ∧
       Task.Script t
         = match RawGetString config "script" with
           | LString s => s | _ => Task.Script Task.NewTask
           end ∧
       Task.File t
         = match RawGetString config "file" with
           | LString s => s | _ => Task.File Task.NewTask
           end ∧
       Task.On t = coerceTargets (RawGetString config "on") ∧
       Task.Foreach t = coerceTargets (RawGetString config "foreach") ∧
       Task.Prepare t
         = match RawGetString config "prepare" with
           | LFunction fn => Some fn | _ => None
           end.
Proof.
  intros Hrun.
  apply registerTask_built in Hrun
    as (t & -> & _ & (D & P & L & V & S & F) & Hn & Hon & Hfe & _ & Hp).
  destruct (taskFields_values name config) as (D0 & P0 & L0 & V0 & S0 & F0 & _).
  destruct (taskTargets_scalars (taskFields name config) config)
    as ((D1 & P1 & L1 & V1 & S1 & F1) & _).
  destruct (taskPrefix_scalars (taskTargets (taskFields name config) config) config)
    as ((D2 & P2 & L2 & V2 & S2 & F2) & _).
  destruct (taskFields_rest name config) as (_ & Hon0 & Hfe0 & _).
  destruct (taskTargets_fields _ config Hon0 Hfe0) as (Hon1 & Hfe1 & _).
  destruct (taskPrefix_fields (taskTargets (taskFields name config) config) config)
    as (_ & Hon2 & Hfe2 & _).
  exists t. cbn [Tasks setTasks]. split_and!; try done; congruence.
Qed.

(** X12.  How 'prefix' resolves in a task that registerTask builds: true
    picks DefaultPrefixRemote or DefaultPrefixLocal by IsRemoteTask, which
    is asked when On and Foreach are already set; a string is taken as it is;
    false, nil or any other value leaves what NewTask put there. *)
Theorem registerTask_prefix
    (name : string) (config : Table) (w w' : World) (calls : list Call) :
  registerTask name config w = Returned tt w' calls →
  ∃ t, Tasks w' = Tasks w ++ [t] ∧
       Task.Prefix t
         = match RawGetString config "prefix" with
           | LBool true =>
               if Task.IsRemoteTask t then DefaultPrefixRemote
               else DefaultPrefixLocal
           | LString s => s
           | _ => Task.Prefix Task.NewTask
           end.
Proof.
  intros Hrun.
  apply registerTask_built in Hrun
    as (t & -> & _ & _ & _ & Hon & Hfe & Hpre & _).
  destruct (taskFields_values name config) as (_ & _ & _ & _ & _ & _ & X0).
  destruct (taskTargets_scalars (taskFields name config) config) as (_ & X1).
  destruct (taskPrefix_scalars (taskTargets (taskFields name config) config) config)
    as (_ & X2).
  destruct (taskPrefix_fields (taskTargets (taskFields name config) config) config)
    as (_ & Hon2 & Hfe2 & _).
  exists t. split; [done|]. rewrite Hpre, X2, X1, X0.
  assert (Hrem : Task.IsRemoteTask t
                 = Task.IsRemoteTask (taskTargets (taskFields name config) config)).
  { unfold Task.IsRemoteTask. by rewrite Hon, Hfe, Hon2, Hfe2. }
  by rewrite Hrem.
Qed.

(** X13.  What registerTask validates, for a config whose tables are
    finite trees, as every [Table] here is.  On such a config registerTask
    succeeds exactly when 'file' and 'script' are not both non-empty
    strings, 'on' and 'foreach' do not both coerce to non-empty sequences,
    and 'prepare' is nil or a function; no other value of such a config
    makes it raise an error.  A table that contains itself is not a value
    of this embedding: under 'on' or 'foreach' the conversion of such a
    table does not return, and the statement says nothing about it. *)
Theorem registerTask_succeeds_iff (name : string) (config : Table) (w : World) :
  (∃ w' calls, registerTask name config w = Returned tt w' calls) ↔
  (stringOf (RawGetString config "file") = ""
   ∨ stringOf (RawGetString config "script") = "") ∧
  (coerceTargets (RawGetString config "on") = []
   ∨ coerceTargets (RawGetString config "foreach") = []) ∧
  (RawGetString config "prepare" = LNil
   ∨ ∃ fn, RawGetString config "prepare" = LFunction fn).
Proof.
  rewrite registerTask_run. split.
  - intros (w' & calls & Hrun).
    destruct (decide (stringOf (RawGetString config "file") = "")) as [F|F];
      destruct (decide (stringOf (RawGetString config "script") = "")) as [S|S];
      destruct (decide (coerceTargets (RawGetString config "on") = [])) as [O|O];
      destruct (decide (coerceTargets (RawGetString config "foreach") = []))
        as [E|E];
      rewrite ?(bool_decide_eq_true_2 _ F), ?(bool_decide_eq_true_2 _ S),
        ?(bool_decide_eq_true_2 _ O), ?(bool_decide_eq_true_2 _ E),
        ?(bool_decide_eq_false_2 _ F), ?(bool_decide_eq_false_2 _ S),
        ?(bool_decide_eq_false_2 _ O), ?(bool_decide_eq_false_2 _ E) in Hrun;
      cbn [negb andb] in Hrun; try done;
      (split_and!; [by auto|by auto|]);
      destruct (RawGetString config "prepare"); try done; eauto.
  - intros (FS & OF & P).
    destruct (exclusivityChecksPass_run config (conj FS OF)) as [-> ->].
    destruct P as [->|[fn ->]]; eauto.
Qed.


(** ** toGoValue: sequences, mappings, opaque values *)

(** The table that the constructor [{v1, ..., vn}] builds: [v1] under key
    [n], [v2] under [n+1], and so on. *)
Fixpoint arrayFrom (n : nat) (vs : list LValue) : Table :=
  match vs with
  | [] => []
  | v :: vs' => (LNumber (Z.of_nat n), v) :: arrayFrom (S n) vs'
  end.

Definition arrayTable (vs : list LValue) : Table := arrayFrom 1 vs.

Lemma RawGetInt_arrayFrom (n k : nat) (vs : list LValue) :
  RawGetInt (arrayFrom n vs) (Z.of_nat k)
    = if (n <=? k)%nat then default LNil (vs !! (k - n)%nat) else LNil.
Proof.
  revert n. induction vs as [|v vs IH]; intros n; simpl.
  - by destruct (n <=? k)%nat.
  - unfold RawGetInt in *. simpl.
    destruct (Z.eqb_spec (Z.of_nat n) (Z.of_nat k)) as [E|E].
    + assert (n = k) as -> by lia. rewrite Nat.leb_refl, Nat.sub_diag. done.
    + rewrite IH.
      destruct (Nat.leb_spec n k), (Nat.leb_spec (S n) k); try lia; [|done].
      replace (k - n)%nat with (S (k - S n)) by lia. done.
Qed.

Lemma MaxN_arrayTable (vs : list LValue) :
  Forall (λ v, v ≠ LNil) vs → MaxN (arrayTable vs) = length vs.
Proof.
  intros Hvs. apply MaxN_unique.
  - intros i Hi. unfold arrayTable. rewrite RawGetInt_arrayFrom.
    destruct (Nat.leb_spec 1 i); [|lia].
    destruct (vs !! (i - 1)%nat) as [v|] eqn:E.
    + simpl. eapply (proj1 (Forall_forall _ _) Hvs). by eapply list_elem_of_lookup_2.
    + apply lookup_ge_None in E. lia.
  - unfold arrayTable. rewrite RawGetInt_arrayFrom.
    destruct (Nat.leb_spec 1 (S (length vs))); [|done].
    rewrite lookup_ge_None_2 by lia. done.
Qed.

Lemma arrayTable_values (vs : list LValue) :
  map (λ i : nat, RawGetInt (arrayTable vs) (Z.of_nat i)) (seq 1 (length vs)) = vs.
Proof.
  apply list_eq. intros i. rewrite list_lookup_fmap.
  destruct (vs !! i) as [v|] eqn:E.
  - rewrite lookup_seq_lt by (by eapply lookup_lt_Some). simpl.
    unfold arrayTable. rewrite RawGetInt_arrayFrom. simpl.
    by rewrite Nat.sub_0_r, E.
  - rewrite lookup_seq_ge; [done|]. by apply lookup_ge_None.
Qed.

(** X14.  A table written as a sequence [{v1, ..., vn}] of non-nil values
    converts to the sequence of the conversions, in order and of the same
    length.  The empty table is the exception: it converts to an empty
    mapping, not to an empty sequence. *)
Theorem toGoValue_arrayTable (p : ptr) (vs : list LValue) :
  Forall (λ v, v ≠ LNil) vs →
  toGoValue (LTable p (arrayTable vs))
    = match vs with
      | [] => GoMap ∅
      | _ => GoSlice (map toGoValue vs)
      end.
Proof.
  intros Hvs. rewrite toGoValue_LTable, (MaxN_arrayTable vs Hvs).
  destruct vs as [|v vs'] eqn:E; [done|]. rewrite <- E.
  replace (Nat.eqb (length vs) 0) with false by (by subst).
  f_equal.
  rewrite <- (map_map (λ i : nat, RawGetInt (arrayTable vs) (Z.of_nat i)) toGoValue).
  by rewrite arrayTable_values.
Qed.

(** X15.  The targets of a task, as registerTask reads them: a string under
    'on' (or 'foreach') gives that one target, the empty string included,
    and a sequence [{v1, ..., vn}] gives the strings among its elements, in
    order, the others being dropped without error. *)
Theorem registerTask_targets
    (name : string) (config : Table) (w w' : World) (calls : list Call) :
  registerTask name config w = Returned tt w' calls →
  ∃ t, Tasks w' = Tasks w ++ [t] ∧
       (∀ s, RawGetString config "on" = LString s → Task.On t = [s]) ∧
       (∀ s, RawGetString config "foreach" = LString s → Task.Foreach t = [s]) ∧
       (∀ p vs, RawGetString config "on" = LTable p (arrayTable vs) →
                Forall (λ v, v ≠ LNil) vs → Task.On t = stringsOf vs) ∧
       (∀ p vs, RawGetString config "foreach" = LTable p (arrayTable vs) →
                Forall (λ v, v ≠ LNil) vs → Task.Foreach t = stringsOf vs).
Proof.
  intros Hrun.
  apply registerTask_built in Hrun as (t & -> & _ & _ & _ & Hon & Hfe & _).
  destruct (taskFields_rest name config) as (_ & Hon0 & Hfe0 & _).
  destruct (taskTargets_fields _ config Hon0 Hfe0) as (Hon1 & Hfe1 & _).
  destruct (taskPrefix_fields (taskTargets (taskFields name config) config) config)
    as (_ & Hon2 & Hfe2 & _).
  rewrite Hon2, Hon1 in Hon. rewrite Hfe2, Hfe1 in Hfe.
  assert (Harr : ∀ p vs, Forall (λ v, v ≠ LNil) vs →
            coerceTargets (LTable p (arrayTable vs)) = stringsOf vs).
  { intros p vs Hvs. rewrite coerceTargets_LTable, (MaxN_arrayTable vs Hvs).
    by rewrite arrayTable_values. }
  exists t. split; [done|]. split_and!.
  - intros s Hs. by rewrite Hon, Hs.
  - intros s Hs. by rewrite Hfe, Hs.
  - intros p vs Hv Hvs. rewrite Hon, Hv. by apply Harr.
  - intros p vs Hv Hvs. rewrite Hfe, Hv. by apply Harr.
Qed.

(** X16.  toMap and toSlice split the tables between them: a table passes
    exactly one of the two, toSlice when MaxN is positive and toMap when it
    is 0, and a value that is not a table passes neither. *)
Theorem toMap_toSlice_exclusive (v : LValue) :
  match v with
  | LTable _ t =>
      (is_Some (toSlice v) ↔ MaxN t ≠ 0%nat) ∧
      (is_Some (toMap v) ↔ MaxN t = 0%nat)
  | _ => toMap v = None ∧ toSlice v = None
  end.
Proof.
  destruct v as [| | | | | | | |p t]; try done.
  unfold toSlice, toMap. rewrite toGoValue_LTable.
  destruct (Nat.eqb_spec (MaxN t) 0) as [E|E]; split; split;
    intros H; try done; try by destruct H.
Qed.

(** X17.  toGoValue passes a function, a userdata, a thread or a channel
    through unchanged, and it yields such an opaque value for nothing else:
    nil, booleans, numbers, strings and tables are always converted. *)
Theorem toGoValue_opaque (v u : LValue) :
  toGoValue v = GoLValue u ↔
  u = v ∧ match v with
          | LFunction _ | LUserData _ | LThread _ | LChannel _ => True
          | _ => False
          end.
Proof.
  destruct v as [| | | | | | | |p t]; simpl; try (split; [done|by intros [_ []]]);
    try (split; [by intros [= <-]|by intros [-> _]]).
  set (c := fix convert (t : Table) : list Converted := _).
  destruct (Nat.eqb (MaxN t) 0); split; try done; by intros [_ []].
Qed.

(** The key under which toGoValue files an entry of a mapping. *)
Definition keyString (kv : LValue * LValue) : string :=
  fmt_Sprint (toGoValue kv.1).

Lemma last_cons_default {A} (x : A) (l : list A) :
  last (x :: l) = Some (default x (last l)).
Proof.
  destruct l as [|y l _] using rev_ind; [done|].
  by rewrite app_comm_cons, !last_snoc.
Qed.

Lemma foldl_insertEntry_lookup
    (l : Table) (acc : gmap string GoValue) (s : string) :
  foldl insertEntry acc l !! s
    = match last (filter (λ kv, keyString kv = s) l) with
      | Some kv => Some (toGoValue kv.2)
      | None => acc !! s
      end.
Proof.
  revert acc. induction l as [|kv l IH]; intros acc; [done|].
  cbn [foldl]. rewrite IH, filter_cons. unfold insertEntry.
  fold (keyString kv).
  destruct (decide (keyString kv = s)) as [E|E].
  - rewrite last_cons_default.
    destruct (last (filter _ l)) as [kv'|]; [done|].
    simpl. by rewrite E, lookup_insert_eq.
  - destruct (last (filter _ l)) as [kv'|]; [done|].
    by rewrite lookup_insert_ne.
Qed.

(** X18.  When a table converts to a mapping, its keys are turned into
    strings, and two entries whose keys come out as the same string (the
    string "true" and the boolean true, say) collide: the mapping holds, for
    each key string, the value of the last such entry the traversal visits,
    and nothing for a string no key comes out as. *)
Theorem toGoValue_mapping_last_wins (p : ptr) (t : Table) :
  MaxN t = 0%nat →
  ∃ m, toGoValue (LTable p t) = GoMap m ∧
       ∀ s, m !! s
            = (λ kv, toGoValue kv.2)
                <$> last (filter (λ kv, keyString kv = s) (ForEach t)).
Proof.
  intros Hn. rewrite toGoValue_LTable, Hn. eexists. split; [reflexivity|].
  intros s. rewrite foldl_insertEntry_lookup, lookup_empty.
  by destruct (last _).
Qed.

Lemma string_keys_lookup (t : Table) (s : string) :
  NoDup (map fst t) →
  Forall (λ kv, ∃ k, kv.1 = LString k) t →
  (λ kv, toGoValue kv.2) <$> last (filter (λ kv, keyString kv = s) t)
    = if bool_decide (LString s ∈ map fst t)
      then Some (toGoValue (RawGetString t s)) else None.
Proof.
  intros Hnd Hk. induction t as [|[k v] t IH]; [done|].
  apply NoDup_cons in Hnd as [Hnotin Hnd].
  apply Forall_cons in Hk as [[k' Hk'] Hk]. simpl in Hk'. subst k.
  specialize (IH Hnd Hk).
  rewrite filter_cons. unfold keyString at 1. cbn [fst toGoValue fmt_Sprint].
  unfold RawGetString. cbn [RawGet map fst].
  destruct (decide (k' = s)) as [->|Hne].
  - rewrite LValue_eqb_refl. rewrite bool_decide_eq_true_2 by apply list_elem_of_here.
    rewrite last_cons_default.
    rewrite bool_decide_eq_false_2 in IH by done.
    destruct (last (filter _ t)) as [kv'|]; [done|]. done.
  - rewrite LValue_eqb_neq by congruence.
    rewrite IH. apply f_equal with (f := λ b : bool, if b then _ else _).
    apply bool_decide_ext. rewrite elem_of_cons. split; [by right|].
    intros [[= ->]|H]; done.
Qed.

(** X19.  A well-formed table whose keys are all strings converts to the
    mapping with the same keys: looking a name up in the result gives the
    conversion of what the table holds under that name, and nothing when the
    table has no such key. *)
Theorem toGoValue_string_keys (p : ptr) (t : Table) :
  wfTable t →
  Forall (λ kv, ∃ k, kv.1 = LString k) t →
  ∃ m, toGoValue (LTable p t) = GoMap m ∧
       ∀ s, m !! s
            = if isNil (RawGetString t s) then None
              else Some (toGoValue (RawGetString t s)).
Proof.
  intros Hwf Hk.
  assert (Hn : MaxN t = 0%nat).
  { apply MaxN_unique; [lia|].
    destruct (decide (RawGetInt t (Z.of_nat 1) = LNil)) as [|Hp]; [done|].
    apply RawGet_present in Hp. apply list_elem_of_fmap in Hp as ([k v] & Hkv & Hin).
    apply (proj1 (Forall_forall _ _) Hk) in Hin as [k' Hk']. simpl in *. congruence. }
  rewrite toGoValue_LTable, Hn. eexists. split; [reflexivity|].
  intros s. rewrite foldl_insertEntry_lookup, lookup_empty, ForEach_wf by done.
  pose proof (string_keys_lookup t s (proj1 Hwf) Hk) as Hl.
  destruct (last _) as [kv|]; simpl in Hl.
  - destruct (bool_decide_reflect (LString s ∈ map fst t)) as [Hin|]; [|done].
    rewrite Hl. destruct (isNil (RawGetString t s)) eqn:E; [|done].
    exfalso. apply isNil_true in E.
    apply list_elem_of_fmap in Hin as ([k v] & Hkv & Hin). simpl in Hkv. subst k.
    destruct Hwf as [Hnd Hv].
    assert (RawGet t (LString s) = v); [|].
    { clear -Hnd Hin. induction t as [|[k' v'] t IH]; [by apply not_elem_of_nil in Hin|].
      apply NoDup_cons in Hnd as [Hni Hnd]. simpl.
      apply elem_of_cons in Hin as [[= <- <-]|Hin]; [by rewrite LValue_eqb_refl|].
      rewrite LValue_eqb_neq; [by apply IH|].
      intros ->. apply Hni. apply list_elem_of_fmap. by exists (LString s, v). }
    apply (proj1 (Forall_forall _ _) Hv) in Hin as [_ Hvn]. simpl in Hvn.
    unfold RawGetString in E. congruence.
  - destruct (bool_decide_reflect (LString s ∈ map fst t)) as [|Hni]; [done|].
    destruct (isNil (RawGetString t s)) eqn:E; [done|].
    exfalso. apply Hni. apply RawGet_present. by apply isNil_false.
Qed.


(** ** The prepare closure and esshRequire: failures *)

(** X20.  The prepare closure never aborts: it makes one protected call,
    leaves the stack as it found it, and returns an error exactly when the
    call failed or when the first value the callback returned is the boolean
    false.  Further return values play no role. *)
Theorem Prepare_error_iff (prepareFn : ptr) (ctx : TaskContext) (w : World) :
  ∃ err ctx' w',
    Prepare prepareFn ctx w = Returned (err, ctx') w' [CallFunction prepareFn] ∧
    stack w' = stack w ∧
    (err = None ↔
     ∃ rets c x, L_PCall prepareFn ctx w = PCallOk rets c x ∧
                 default LNil (head rets) ≠ LBool false).
Proof.
  rewrite Prepare_run.
  destruct (L_PCall prepareFn ctx w) as [e c x|rets c x].
  - eexists _, _, _. split; [reflexivity|]. split; [done|].
    split; [done|]. by intros (? & ? & ? & ? & _).
  - eexists _, _, _. split; [reflexivity|]. split; [done|].
    split.
    + intros H. exists rets, c, x. split; [done|]. intros E.
      by rewrite E in H.
    + intros (? & ? & ? & [= <- <- <-] & H).
      by destruct (default LNil (head rets)) as [|[]| | | | | | |].
Qed.

(** X21.  An esshRequire that aborts on a module not yet cached has failed
    in one of three places, in this order.  The loader failed: its error is
    raised as it is, after that one call.  Or the loader succeeded and the
    check of the index file failed: that error is raised as "Could not load
    essh module: ...", and the script is not evaluated.  Or both succeeded
    and the evaluation of the script failed: the error DoFile returned is
    raised as it is.  When the loader or the file check fails, the state is
    the one the loader left: Hosts, Tasks and the module registry are as
    they were.  A module that is cached never makes esshRequire abort. *)
Theorem esshRequire_failures
    (m : string) (w w' : World) (e : Abort) (calls : list Call) :
  stack w = [LString m] →
  esshRequire w = Aborted e w' calls →
  let module := Module.NewModule m in
  let indexFile := module_IndexFile module in
  let load := CallLoad m (updateFlag w) in
  let loaded := module_Load module (updateFlag w) (env w) in
  let w1 := setEnv w loaded.2 in
  LoadedModules w !! m = None ∧
  ((∃ err, loaded.1 = Some err ∧
           e = RaiseError "%v" [err] ∧ calls = [load] ∧ w' = w1 ∧
           Hosts w' = Hosts w ∧ Tasks w' = Tasks w ∧
           LoadedModules w' = LoadedModules w) ∨
   (∃ err, loaded.1 = None ∧ os_Stat indexFile (env w1) = Some err ∧
           e = RaiseError "Could not load essh module: %v" [err] ∧
           calls = [load; CallStat indexFile] ∧ w' = w1 ∧
           Hosts w' = Hosts w ∧ Tasks w' = Tasks w ∧
           LoadedModules w' = LoadedModules w) ∨
   (∃ err w2, loaded.1 = None ∧ os_Stat indexFile (env w1) = None ∧
              L_DoFile indexFile w1 = DoFileError err w2 ∧
              e = RaiseError "%v" [err] ∧
              calls = [load; CallStat indexFile; CallDoFile indexFile] ∧
              w' = setStack w2 (stack w1))).
Proof.
  intros Hst. rewrite (esshRequire_run w m [] Hst). cbv zeta.
  destruct (LoadedModules w !! m) as [module|]; [done|].
  destruct (module_Load (Module.NewModule m) (updateFlag w) (env w))
    as [[err|] env'] eqn:Hload; cbn [fst snd].
  - intros [= <- <- <-]. split; [done|]. left. by exists err.
  - destruct (os_Stat _ _) as [err|] eqn:Hstat.
    + intros [= <- <- <-]. split; [done|]. right. left. by exists err.
    + destruct (L_DoFile _ _) as [err w2|rets w2] eqn:Hdo; [|done].
      intros [= <- <- <-]. split; [done|]. right. right. by exists err, w2.
Qed.

(** X22.  A failed fetch is not remembered.  When esshRequire aborts
    before the script is evaluated, the module is still absent from the
    registry, and the next require of the same name asks the loader again
    first of all. *)
Theorem esshRequire_retries_after_failure
    (m : string) (w w' : World) (e : Abort) (calls : list Call) :
  stack w = [LString m] →
  esshRequire w = Aborted e w' calls →
  evaluations calls = 0%nat →
  LoadedModules w' !! m = None ∧
  ∀ w2, LoadedModules w2 !! m = LoadedModules w' !! m →
        stack w2 = [LString m] →
        head (match esshRequire w2 with
              | Returned _ _ c => c
              | Aborted _ _ c => c
              end) = Some (CallLoad m (updateFlag w2)).
Proof.
  intros Hst Hrun Hev.
  assert (Hnone : LoadedModules w' !! m = None).
  { revert Hrun. rewrite (esshRequire_run w m [] Hst). cbv zeta.
    destruct (LoadedModules w !! m) as [module|] eqn:Hm; [done|].
    destruct (module_Load (Module.NewModule m) (updateFlag w) (env w))
      as [[err|] env']; cbn [fst snd].
    - by intros [= <- <- <-].
    - destruct (os_Stat _ _); [by intros [= <- <- <-]|].
      destruct (L_DoFile _ _); [|done].
      intros [= <- <- <-]. done. }
  split; [done|].
  intros w2 Heq Hst2. rewrite (esshRequire_run w2 m [] Hst2), Heq, Hnone.
  cbv zeta.
  destruct (module_Load _ _ _) as [[?|] ?]; cbn [fst snd]; [done|].
  destruct (os_Stat _ _); [done|]. by destruct (L_DoFile _ _).
Qed.

(** X23.  esshRequire itself writes one registry entry and nothing else.
    On a hit the state is unchanged but for the pushed value.  On a miss the
    collections are those the script left, with the module of that name,
    holding the value returned, stored under the name asked for: the entry
    of every other name, Hosts and Tasks are as the script left them. *)
Theorem esshRequire_writes_one_entry
    (m : string) (w w1 : World) (n : nat) (calls : list Call) :
  stack w = [LString m] →
  esshRequire w = Returned n w1 calls →
  ∃ v, last (stack w1) = Some v ∧
    match LoadedModules w !! m with
    | Some module =>
        v = Module.Value module ∧ w1 = setStack w [LString m; v]
    | None =>
        ∃ rets w2,
          L_DoFile (module_IndexFile (Module.NewModule m))
            (setEnv w (module_Load (Module.NewModule m) (updateFlag w) (env w)).2)
            = DoFileOk rets w2 ∧
          LoadedModules w1 = <[m := Module.mk m v]> (LoadedModules w2) ∧
          Hosts w1 = Hosts w2 ∧ Tasks w1 = Tasks w2
    end.
Proof.
  intros Hst. rewrite (esshRequire_run w m [] Hst). cbv zeta.
  destruct (LoadedModules w !! m) as [module|].
  - intros [= <- <- <-]. exists (Module.Value module).
    cbn [stack setStack]. rewrite last_snoc, Hst. done.
  - destruct (module_Load (Module.NewModule m) (updateFlag w) (env w))
      as [[err|] env']; cbn [fst snd]; [done|].
    destruct (os_Stat _ _); [done|].
    destruct (L_DoFile _ _) as [err w2|rets w2]; [done|].
    intros [= <- <- <-]. unfold cached.
    cbn [stack setStack setLoadedModules LoadedModules Hosts Tasks].
    eexists. rewrite last_snoc. split; [reflexivity|].
    by exists rets, w2.
Qed.

(** X24.  reset() does not invalidate modules: after a reset, require of a
    cached name still returns the cached value, without calling the loader
    or evaluating anything. *)
Theorem esshRequire_after_reset (m : string) (w : World) (module : Module.t) :
  stack w = [LString m] →
  LoadedModules w !! m = Some module →
  ∃ w1, esshReset w = Returned 0%nat w1 [] ∧
        Hosts w1 = [] ∧ Tasks w1 = [] ∧
        esshRequire w1
          = Returned 1%nat (setStack w1 [LString m; Module.Value module]) [].
Proof.
  intros Hst Hm. eexists. split; [reflexivity|]. split; [done|]. split; [done|].
  rewrite (esshRequire_run _ m []) by exact Hst.
  cbn [LoadedModules setHosts setTasks stack]. by rewrite Hm, Hst.
Qed.


(** * The TaskContext userdata *)

(** The Lua side reaches a [*TaskContext] through a userdata object.  The
    functions below read and write two stores the rest of the file never
    looks at: the userdata objects and the TaskContext structs they point
    to.  Both are keyed by address, so that two userdata can share one
    struct. *)

Definition LTaskContextClass : string := "TaskContext*".

(** What the [Value] field of a userdata holds: a [*TaskContext], or a
    value of another type (nil included). *)
Inductive UserValue : Type :=
| TaskContextPtr (ctx : ptr)
| OtherValue.

Record LUserDataObject : Type := mkUserData {
  Value : UserValue;
  Metatable : LValue
}.

Record Bridge : Type := mkBridge {
  world : World;
  userdata : gmap ptr LUserDataObject;
  contexts : gmap ptr TaskContext;
  (** The type metatables [L.NewTypeMetatable] has put in the registry. *)
  typeMetatables : gmap string (ptr * Table)
}.

Definition setWorld (b : Bridge) (w : World) : Bridge :=
  mkBridge w (userdata b) (contexts b) (typeMetatables b).
Definition setUserdata (b : Bridge) (u : gmap ptr LUserDataObject) : Bridge :=
  mkBridge (world b) u (contexts b) (typeMetatables b).
Definition setContexts (b : Bridge) (c : gmap ptr TaskContext) : Bridge :=
  mkBridge (world b) (userdata b) c (typeMetatables b).

(** [L.ArgError] is the one abort of these functions that the rest of the
    file does not use. *)
Inductive BridgeAbort : Type :=
| Lua (e : Abort)
| ArgError (n : nat) (message : string).

Inductive Result (A : Type) : Type :=
| Done (a : A) (b : Bridge)
| Failed (e : BridgeAbort) (b : Bridge).
Arguments Done {A} a b.
Arguments Failed {A} e b.

Definition MB (A : Type) : Type := Bridge → Result A.

#[local] Instance MB_ret : MRet MB := λ A a b, Done a b.

#[local] Instance MB_bind : MBind MB := λ A B f m b,
  match m b with
  | Done a b' => f a b'
  | Failed e b' => Failed e b'
  end.

(** An operation of the interpreter state, run on the state inside. *)
Definition liftL {A} (m : M A) : MB A := λ b,
  match m (world b) with
  | Returned a w _ => Done a (setWorld b w)
  | Aborted e w _ => Failed (Lua e) (setWorld b w)
  end.

Definition nilDereference : error :=
  Foreign "runtime error: invalid memory address or nil pointer dereference".

(** [L.CheckUserData(n)]: the userdata at index [n], a type error
    otherwise. *)
Definition L_CheckUserData (n : nat) : M ptr :=
  v ← L_Get (Z.of_nat n);
  match v with
  | LUserData ud => mret ud
  | _ => abort (TypeError n "userdata")
  end.

(** [L.GetTypeMetatable(name)]: nil when no metatable of that name is
    registered. *)
Definition L_GetTypeMetatable (b : Bridge) (name : string) : LValue :=
  match typeMetatables b !! name with
  | Some (p, mt) => LTable p mt
  | None => LNil
  end.

(** A userdata that was never written is as [L.NewUserData] made it: no
    value, no metatable. *)
Definition userdataAt (b : Bridge) (ud : ptr) : LUserDataObject :=
  default (mkUserData OtherValue LNil) (userdata b !! ud).

Definition newLTaskContext (ctx : ptr) : MB ptr := λ b,
  let ud := fresh (dom (userdata b)) in
  let obj := mkUserData (TaskContextPtr ctx) (L_GetTypeMetatable b LTaskContextClass) in
  Done ud (setUserdata b (<[ud := obj]> (userdata b))).

Definition L_ArgError {A} (n : nat) (message : string) : MB A :=
  λ b, Failed (ArgError n message) b.

(** The type assertion on [ud.Value]: a [*TaskContext] or not. *)
Definition asTaskContext (ud : ptr) : MB (option ptr) := λ b,
  Done (match Value (userdataAt b ud) with
        | TaskContextPtr v => Some v
        | OtherValue => None
        end) b.

Definition checkTaskContext : MB ptr :=
  ud ← liftL (L_CheckUserData 1);
  v ← asTaskContext ud;
  match v with
  | Some v => mret v
  | None => L_ArgError 1 "TaskContext expected"
  end.

(** Reading or writing through a [*TaskContext]; a pointer with no struct
    behind it is nil, and dereferencing it panics. *)
Definition loadPayload (ctx : ptr) : MB string := λ b,
  match contexts b !! ctx with
  | Some c => Done (Payload c) b
  | None => Failed (Lua (Panic nilDereference)) b
  end.

Definition storePayload (ctx : ptr) (s : string) : MB unit := λ b,
  match contexts b !! ctx with
  | Some c => Done tt (setContexts b (<[ctx := {| Payload := s |}]> (contexts b)))
  | None => Failed (Lua (Panic nilDereference)) b
  end.

Definition taskContextPayload : MB nat :=
  ctx ← checkTaskContext;
  top ← liftL L_GetTop;
  if Nat.eqb top 2 then
    s ← liftL (L_CheckString 2);
    storePayload ctx s;;
    mret 0%nat
  else
    payload ← loadPayload ctx;
    liftL (L_Push (LString payload));;
    mret 1%nat.

(** ** checkTaskContext and taskContextPayload, run *)

Lemma setWorld_world (b : Bridge) : setWorld b (world b) = b.
Proof. by destruct b. Qed.

Lemma L_CheckUserData_at (n : nat) (w : World) :
  L_CheckUserData n w =
    match stackGet (stack w) (Z.of_nat n) with
    | LUserData ud => Returned ud w []
    | _ => Aborted (TypeError n "userdata") w []
    end.
Proof.
  unfold L_CheckUserData, L_Get. rewrite bind_assoc, bind_get, bind_mret.
  by destruct (stackGet (stack w) (Z.of_nat n)).
Qed.

Lemma L_CheckString_at (n : nat) (w : World) :
  L_CheckString n w =
    match argString (stackGet (stack w) (Z.of_nat n)) with
    | Some s => Returned s w []
    | None => Aborted (TypeError n "string") w []
    end.
Proof.
  unfold L_CheckString, L_Get. rewrite bind_assoc, bind_get, bind_mret.
  by destruct (stackGet (stack w) (Z.of_nat n)).
Qed.

Lemma checkTaskContext_run (b : Bridge) :
  checkTaskContext b =
    match stackGet (stack (world b)) 1 with
    | LUserData ud =>
        match Value (userdataAt b ud) with
        | TaskContextPtr v => Done v b
        | OtherValue => Failed (ArgError 1 "TaskContext expected") b
        end
    | _ => Failed (Lua (TypeError 1 "userdata")) b
    end.
Proof.
  unfold checkTaskContext, mbind, MB_bind, liftL.
  rewrite L_CheckUserData_at. change (Z.of_nat 1) with 1.
  destruct (stackGet (stack (world b)) 1);
    rewrite ?setWorld_world; try reflexivity.
  unfold asTaskContext. by destruct (Value (userdataAt b p)).
Qed.

Lemma taskContextPayload_run (b : Bridge) :
  taskContextPayload b =
    match checkTaskContext b with
    | Failed e b' => Failed e b'
    | Done ctx _ =>
        if Nat.eqb (length (stack (world b))) 2 then
          match argString (stackGet (stack (world b)) 2) with
          | None => Failed (Lua (TypeError 2 "string")) b
          | Some s =>
              match contexts b !! ctx with
              | Some _ =>
                  Done 0%nat
                    (setContexts b (<[ctx := {| Payload := s |}]> (contexts b)))
              | None => Failed (Lua (Panic nilDereference)) b
              end
          end
        else
          match contexts b !! ctx with
          | Some c =>
              Done 1%nat
                (setWorld b (setStack (world b)
                               (stack (world b) ++ [LString (Payload c)])))
          | None => Failed (Lua (Panic nilDereference)) b
          end
    end.
Proof.
  unfold taskContextPayload. unfold mbind at 1. unfold MB_bind at 1.
  rewrite checkTaskContext_run.
  destruct (stackGet (stack (world b)) 1); try reflexivity.
  destruct (Value (userdataAt b p)); [|reflexivity].
  unfold mbind at 1. unfold MB_bind at 1.
  unfold liftL at 1. unfold L_GetTop. rewrite bind_get. cbn [mret M_ret].
  rewrite setWorld_world.
  destruct (Nat.eqb (length (stack (world b))) 2).
  - unfold mbind at 1. unfold MB_bind at 1. unfold liftL.
    rewrite L_CheckString_at. change (Z.of_nat 2) with 2.
    destruct (argString (stackGet (stack (world b)) 2));
      rewrite setWorld_world; [|reflexivity].
    unfold mbind, MB_bind, storePayload. by destruct (contexts b !! ctx).
  - unfold mbind at 1. unfold MB_bind at 1. unfold loadPayload.
    destruct (contexts b !! ctx) as [c|]; [|reflexivity].
    unfold mbind, MB_bind, liftL, L_Push. rewrite bind_get. reflexivity.
Qed.


(** ** The TaskContext userdata: properties *)

Lemma stackGet_1 (v : LValue) (rest : list LValue) : stackGet (v :: rest) 1 = v.
Proof. reflexivity. Qed.

Lemma stackGet_2 (v v' : LValue) (rest : list LValue) :
  stackGet (v :: v' :: rest) 2 = v'.
Proof. reflexivity. Qed.

(** X25.  A payload written through one userdata is read back through
    every userdata that points to the same TaskContext.  The write, with a
    string or a number as second argument, returns nothing and leaves the
    stack and the userdata alone; the read that follows pushes that string
    and returns one value. *)
Theorem taskContextPayload_round_trip
    (b : Bridge) (u1 u2 ctx : ptr) (v : LValue) (s : string) :
  stack (world b) = [LUserData u1; v] →
  argString v = Some s →
  Value (userdataAt b u1) = TaskContextPtr ctx →
  Value (userdataAt b u2) = TaskContextPtr ctx →
  is_Some (contexts b !! ctx) →
  ∃ b1, taskContextPayload b = Done 0%nat b1 ∧
        world b1 = world b ∧ userdata b1 = userdata b ∧
        ∀ b2, contexts b2 = contexts b1 → userdata b2 = userdata b1 →
              stack (world b2) = [LUserData u2] →
              taskContextPayload b2
                = Done 1%nat
                    (setWorld b2
                       (setStack (world b2) [LUserData u2; LString s])).
Proof.
  intros Hst Hv Hu1 Hu2 [c Hc].
  eexists. split; [|split; [|split]].
  - rewrite taskContextPayload_run, checkTaskContext_run, Hst.
    rewrite stackGet_1, stackGet_2. cbn [length Nat.eqb].
    rewrite Hu1, Hv, Hc. reflexivity.
  - reflexivity.
  - reflexivity.
  - intros b2 Hc2 Hud2 Hst2.
    rewrite taskContextPayload_run, checkTaskContext_run, Hst2.
    rewrite stackGet_1.
    replace (userdataAt b2 u2) with (userdataAt b u2)
      by (unfold userdataAt; by rewrite Hud2).
    rewrite Hu2. cbn [length Nat.eqb]. rewrite Hc2.
    cbn [contexts setContexts]. rewrite lookup_insert_eq. reflexivity.
Qed.

(** X26.  Only a call with exactly two arguments writes.  With one
    argument, or with three or more, taskContextPayload reads: it pushes the
    current payload, returns one value, and changes neither the TaskContext
    nor the userdata. *)
Theorem taskContextPayload_reads_unless_two_arguments
    (b : Bridge) (ud ctx : ptr) (c : TaskContext) (rest : list LValue) :
  stack (world b) = LUserData ud :: rest →
  length rest ≠ 1%nat →
  Value (userdataAt b ud) = TaskContextPtr ctx →
  contexts b !! ctx = Some c →
  taskContextPayload b
    = Done 1%nat
        (setWorld b
           (setStack (world b) (stack (world b) ++ [LString (Payload c)]))).
Proof.
  intros Hst Hlen Hud Hc.
  rewrite taskContextPayload_run, checkTaskContext_run, Hst.
  rewrite stackGet_1. rewrite Hud, Hc. cbn [length].
  destruct rest as [|? [|? ?]]; cbn [length Nat.eqb] in *; done.
Qed.

(** X27.  What a successful taskContextPayload touches.  It either wrote
    (two arguments, nothing returned, the interpreter state untouched, and
    of the TaskContext structs only the one behind the first argument
    replaced) or read (one value returned, every struct untouched, one value
    pushed).  In both cases the userdata, the type metatables, Hosts, Tasks
    and the module registry are as before. *)
Theorem taskContextPayload_frame (b b' : Bridge) (n : nat) :
  taskContextPayload b = Done n b' →
  userdata b' = userdata b ∧ typeMetatables b' = typeMetatables b ∧
  Hosts (world b') = Hosts (world b) ∧ Tasks (world b') = Tasks (world b) ∧
  LoadedModules (world b') = LoadedModules (world b) ∧
  ∃ ud ctx, stackGet (stack (world b)) 1 = LUserData ud ∧
            Value (userdataAt b ud) = TaskContextPtr ctx ∧
    ((n = 0%nat ∧ length (stack (world b)) = 2%nat ∧ world b' = world b ∧
      dom (contexts b') = dom (contexts b) ∧
      ∀ c, c ≠ ctx → contexts b' !! c = contexts b !! c) ∨
     (n = 1%nat ∧ length (stack (world b)) ≠ 2%nat ∧ contexts b' = contexts b ∧
      ∃ c, contexts b !! ctx = Some c ∧
           stack (world b') = stack (world b) ++ [LString (Payload c)])).
Proof.
  rewrite taskContextPayload_run, checkTaskContext_run.
  destruct (stackGet (stack (world b)) 1) as [| | | | |ud| | |]; try done.
  destruct (Value (userdataAt b ud)) as [ctx|] eqn:Hud; [|done].
  destruct (Nat.eqb (length (stack (world b))) 2) eqn:Hlen.
  - apply Nat.eqb_eq in Hlen.
    destruct (argString _) as [s|]; [|done].
    destruct (contexts b !! ctx) as [c|] eqn:Hc; [|done].
    intros [= <- <-]. split_and!; try reflexivity.
    exists ud, ctx. split_and!; try done. left. split_and!; try done.
    + cbn [contexts setContexts]. rewrite dom_insert_L.
      apply subseteq_union_1_L, singleton_subseteq_l.
      by apply elem_of_dom_2 in Hc.
    + intros c' Hne. cbn [contexts setContexts]. by rewrite lookup_insert_ne.
  - apply Nat.eqb_neq in Hlen.
    destruct (contexts b !! ctx) as [c|] eqn:Hc; [|done].
    intros [= <- <-]. split_and!; try reflexivity.
    exists ud, ctx. split_and!; try done. right. split_and!; try done.
    by exists c.
Qed.

(** X28.  A failing taskContextPayload changes nothing, and fails for one
    of four reasons, checked in this order: the first argument is not a
    userdata; the userdata does not hold a TaskContext; in a two-argument
    call the second argument is neither a string nor a number; the
    TaskContext pointer is nil. *)
Theorem taskContextPayload_failures (b b' : Bridge) (e : BridgeAbort) :
  taskContextPayload b = Failed e b' →
  b' = b ∧
  match stackGet (stack (world b)) 1 with
  | LUserData ud =>
      match Value (userdataAt b ud) with
      | OtherValue => e = ArgError 1 "TaskContext expected"
      | TaskContextPtr ctx =>
          if bool_decide (length (stack (world b)) = 2%nat
                          ∧ argString (stackGet (stack (world b)) 2) = None)
          then e = Lua (TypeError 2 "string")
          else e = Lua (Panic nilDereference) ∧ contexts b !! ctx = None
      end
  | _ => e = Lua (TypeError 1 "userdata")
  end.
Proof.
  rewrite taskContextPayload_run, checkTaskContext_run.
  destruct (stackGet (stack (world b)) 1) as [| | | | |ud| | |];
    try (by intros [= <- <-]).
  destruct (Value (userdataAt b ud)) as [ctx|]; [|by intros [= <- <-]].
  destruct (Nat.eqb (length (stack (world b))) 2) eqn:Hlen.
  - apply Nat.eqb_eq in Hlen.
    destruct (argString _) as [s|] eqn:Hs.
    + destruct (contexts b !! ctx) as [c|] eqn:Hc; [done|].
      intros [= <- <-]. split; [done|].
      rewrite bool_decide_eq_false_2; [done|]. by intros [_ ?].
    + intros [= <- <-]. split; [done|]. by rewrite bool_decide_eq_true_2.
  - apply Nat.eqb_neq in Hlen.
    destruct (contexts b !! ctx) as [c|] eqn:Hc; [done|].
    intros [= <- <-]. split; [done|].
    rewrite bool_decide_eq_false_2; [done|]. by intros [? _].
Qed.

(** X29.  newLTaskContext makes a userdata that was not there before,
    holding the TaskContext pointer and the metatable registered for
    "TaskContext*" (nil when none is).  Every other userdata, the
    TaskContext structs and the interpreter state are untouched, and
    checkTaskContext on the new userdata gives back the pointer. *)
Theorem newLTaskContext_checked (b : Bridge) (ctx : ptr) :
  ∃ ud b1, newLTaskContext ctx b = Done ud b1 ∧
    userdata b !! ud = None ∧
    (∀ u, u ≠ ud → userdata b1 !! u = userdata b !! u) ∧
    contexts b1 = contexts b ∧ world b1 = world b ∧
    Metatable (userdataAt b1 ud) = L_GetTypeMetatable b LTaskContextClass ∧
    ∀ b2 rest, userdata b2 !! ud = userdata b1 !! ud →
               stack (world b2) = LUserData ud :: rest →
               checkTaskContext b2 = Done ctx b2.
Proof.
  eexists _, _. split; [reflexivity|]. split_and!.
  - apply not_elem_of_dom, is_fresh.
  - intros u Hne. cbn [userdata setUserdata]. by rewrite lookup_insert_ne.
  - reflexivity.
  - reflexivity.
  - unfold userdataAt. cbn [userdata setUserdata].
    by rewrite lookup_insert_eq.
  - intros b2 rest Hud Hst. rewrite checkTaskContext_run, Hst.
    rewrite stackGet_1. unfold userdataAt. rewrite Hud.
    cbn [userdata setUserdata]. by rewrite lookup_insert_eq.
Qed.

End Lualib.

(** * Sample runs *)

Definition sampleSprint (v : GoValue) : string := "?".

Definition table123 : Table :=
  [(LNumber 1, LString "a"); (LNumber 2, LString "b"); (LNumber 3, LString "c")].

Definition table13 : Table :=
  [(LNumber 1, LString "a"); (LNumber 3, LString "c")].

(** The conversion at the two tables the spec names. *)
Lemma toGoValue_table_shape_witness :
  toGoValue sampleSprint (LTable 1%positive table123)
    = GoSlice [GoString "a"; GoString "b"; GoString "c"] ∧
  toGoValue sampleSprint (LTable 2%positive table13) = GoSlice [GoString "a"].
Proof.
  split.
  - apply (toGoValue_table_shape sampleSprint 1%positive table123);
      vm_compute; congruence.
  - apply (toGoValue_table_shape sampleSprint 2%positive table13);
      vm_compute; congruence.
Defined.

(** C2 as stated fails: the table with keys 1 and 3 converts to a
    sequence, not to a mapping. *)
Lemma toGoValue_keys_1_3_is_sequence :
  toGoValue sampleSprint (LTable 2%positive table13) = GoSlice [GoString "a"] ∧
  ¬ ∃ m, toGoValue sampleSprint (LTable 2%positive table13) = GoMap m.
Proof.
  split; [reflexivity|]. intros [m H]. vm_compute in H. discriminate H.
Qed.

(** ** Sample collaborators *)

(** Upper case beyond Latin-1: the Greek capitals stand in for the table. *)
Definition sampleUpper (r : rune) : bool :=
  inRange 0x391 0x3A9 r && negb (r =? 0x3A2).

Definition samplePointer (p : ptr) : string := "0x" +:+ pretty (Npos p).

Definition sampleLoad (m : Module.t) (update : bool) (e : unit)
  : option error * unit := (None, e).

Definition sampleIndexFile (m : Module.t) : string :=
  Module.Name m +:+ "/index.lua".

Definition sampleStat (path : string) (e : unit) : option error := None.

(** Every index script returns the two values 1 and "loaded". *)
Definition sampleDoFile (path : string) (w : World unit) : DoFileResult unit :=
  DoFileOk unit [LNumber 1; LString "loaded"] w.

(** Lua functions by address: 1 returns nothing, 2 true, 3 false, 4 fails,
    any other returns the string "ok"; all of them set the payload. *)
Definition samplePCall (fn : ptr) (ctx : TaskContext) (w : World unit)
  : PCallResult unit :=
  let ctx' := {| Payload := "seen" |} in
  match fn with
  | 1%positive => PCallOk unit [] ctx' w
  | 2%positive => PCallOk unit [LBool true] ctx' w
  | 3%positive => PCallOk unit [LBool false] ctx' w
  | 4%positive => PCallError unit (Foreign "attempt to call a nil value") ctx' w
  | _ => PCallOk unit [LString "ok"] ctx' w
  end.

Definition world0 : World unit := mkWorld unit [] [] ∅ false tt [].

Definition sampleRegisterTask : string → Table → M unit unit :=
  registerTask sampleSprint unit "[remote] " "[local] ".

Definition sampleRegisterHost : string → Table → M unit unit :=
  registerHost sampleUpper samplePointer unit.

Definition sampleRequire : M unit nat :=
  esshRequire samplePointer unit sampleLoad sampleIndexFile sampleStat sampleDoFile.

Definition worldOf {A} (o : Outcome unit A) : World unit :=
  match o with Returned _ _ _ w _ => w | Aborted _ _ _ w _ => w end.

Definition callsOf {A} (o : Outcome unit A) : list Call :=
  match o with Returned _ _ _ _ c => c | Aborted _ _ _ _ c => c end.

#[global] Instance wfTable_dec (t : Table) : Decision (wfTable t).
Proof. unfold wfTable. apply _. Defined.

(** ** require, twice *)

Definition worldM : World unit := setStack unit world0 [LString "m"].


(** ** Task configs *)

Definition configFileScript : Table :=
  [(LString "file", LString "deploy.sh"); (LString "script", LString "uptime")].

Lemma registerTask_file_and_script_witness :
  RawGetString configFileScript "file" = LString "deploy.sh" ∧
  RawGetString configFileScript "script" = LString "uptime" ∧
  sampleRegisterTask "deploy" configFileScript world0
    = Aborted unit ()
        (RaiseError
           "invalid task definition: can't use 'file' and 'script' at the same time."
           []) world0 [].
Proof.
  split; [reflexivity|]. split; [reflexivity|].
  apply (registerTask_file_and_script sampleSprint unit "[remote] " "[local] "
           "deploy" configFileScript world0 "deploy.sh" "uptime");
    [reflexivity|reflexivity|discriminate|discriminate].
Defined.

Definition configOnForeach : Table :=
  [(LString "on",
    LTable 5 [(LNumber 1, LString "web1"); (LNumber 2, LNumber 7);
              (LNumber 3, LString "web2")]);
   (LString "foreach", LString "db")].

Lemma registerTask_on_and_foreach_witness :
  coerceTargets sampleSprint (RawGetString configOnForeach "on") = ["web1"; "web2"] ∧
  coerceTargets sampleSprint (RawGetString configOnForeach "foreach") = ["db"] ∧
  sampleRegisterTask "t" configOnForeach world0
    = Aborted unit ()
        (RaiseError
           "invalid task definition: can't use 'foreach' and 'on' at the same time."
           []) world0 [].
Proof.
  split; [reflexivity|]. split; [reflexivity|].
  apply (registerTask_on_and_foreach sampleSprint unit "[remote] " "[local] "
           "t" configOnForeach world0); vm_compute; discriminate.
Defined.

Definition configAll : Table :=
  [(LString "file", LString "deploy.sh"); (LString "script", LString "uptime");
   (LString "on", LString "web"); (LString "foreach", LString "db");
   (LString "prepare", LNumber 1)].

(** C4 as stated fails: 'on' and 'foreach' both coerce to non-empty
    sequences here, and the error is the file/script one. *)
Lemma registerTask_on_and_foreach_preempted :
  coerceTargets sampleSprint (RawGetString configAll "on") = ["web"] ∧
  coerceTargets sampleSprint (RawGetString configAll "foreach") = ["db"] ∧
  sampleRegisterTask "t" configAll world0
    = Aborted unit ()
        (RaiseError
           "invalid task definition: can't use 'file' and 'script' at the same time."
           []) world0 [] ∧
  sampleRegisterTask "t" configAll world0
    ≠ Aborted unit ()
        (RaiseError
           "invalid task definition: can't use 'foreach' and 'on' at the same time."
           []) world0 [].
Proof.
  split_and!; try reflexivity. intros H. vm_compute in H. discriminate H.
Qed.

(** C7 as stated fails: 'prepare' holds a number here, and the error is the
    file/script one. *)
Lemma registerTask_prepare_preempted :
  RawGetString configAll "prepare" = LNumber 1 ∧
  sampleRegisterTask "t" configAll world0
    = Aborted unit ()
        (RaiseError
           "invalid task definition: can't use 'file' and 'script' at the same time."
           []) world0 [] ∧
  sampleRegisterTask "t" configAll world0
    ≠ Aborted unit () (RaiseError "prepare have to be function." []) world0 [].
Proof.
  split_and!; try reflexivity. intros H. vm_compute in H. discriminate H.
Qed.

Definition configPrepareNumber : Table :=
  [(LString "script", LString "uptime"); (LString "prepare", LNumber 1)].

Definition configPrepareFn : Table :=
  [(LString "script", LString "uptime"); (LString "prepare", LFunction 3)].

Lemma registerTask_prepare_witness :
  sampleRegisterTask "t" configPrepareNumber world0
    = Aborted unit () (RaiseError "prepare have to be function." []) world0 [] ∧
  (∃ task, Tasks unit (worldOf (sampleRegisterTask "t" configPrepareFn world0))
             = [task] ∧ Task.Prepare task = Some 3%positive) ∧
  Prepare unit samplePCall 1 {| Payload := "" |} world0
    = Returned unit _ (None, {| Payload := "seen" |}) world0 [CallFunction 1] ∧
  Prepare unit samplePCall 2 {| Payload := "" |} world0
    = Returned unit _ (None, {| Payload := "seen" |}) world0 [CallFunction 2] ∧
  Prepare unit samplePCall 3 {| Payload := "" |} world0
    = Returned unit _
        (Some (Errorf "returned false from the prepare function." []),
         {| Payload := "seen" |}) world0 [CallFunction 3] ∧
  Prepare unit samplePCall 4 {| Payload := "" |} world0
    = Returned unit _
        (Some (Foreign "attempt to call a nil value"), {| Payload := "seen" |})
        world0 [CallFunction 4].
Proof.
  pose proof (registerTask_prepare sampleSprint unit samplePCall
                "[remote] " "[local] " "t" configPrepareNumber world0
                {| Payload := "" |}) as (Hbad & _ & Herr & Hok).
  pose proof (registerTask_prepare sampleSprint unit samplePCall
                "[remote] " "[local] " "t" configPrepareFn world0
                {| Payload := "" |}) as (_ & Hfn & _ & _).
  split_and!.
  - destruct Hbad as (e & Hrun & He); [discriminate|discriminate|].
    rewrite He in Hrun; [exact Hrun|].
    split; left; reflexivity.
  - apply (Hfn 3%positive _ []); [reflexivity|]. vm_compute. reflexivity.
  - apply (Hok 1%positive [] {| Payload := "seen" |} world0 eq_refl).
    left. reflexivity.
  - apply (Hok 2%positive [LBool true] {| Payload := "seen" |} world0 eq_refl).
    right. reflexivity.
  - apply (Hok 3%positive [LBool false] {| Payload := "seen" |} world0 eq_refl).
    reflexivity.
  - apply (Herr 4%positive _ {| Payload := "seen" |} world0 eq_refl).
Defined.

Lemma Prepare_other_value_witness :
  samplePCall 5 {| Payload := "" |} world0
    = PCallOk unit [LString "ok"] {| Payload := "seen" |} world0 ∧
  Prepare unit samplePCall 5 {| Payload := "" |} world0
    = Returned unit _ (None, {| Payload := "seen" |}) world0 [CallFunction 5].
Proof.
  split; [reflexivity|].
  apply (Prepare_other_value unit samplePCall 5%positive {| Payload := "" |}
           {| Payload := "seen" |} world0 world0 [LString "ok"] (LString "ok"));
    [reflexivity|reflexivity|discriminate|discriminate].
Defined.

(** ** Host configs *)

Definition configHost : Table :=
  [(LString "User", LString "root"); (LString "user", LString "nobody");
   (LString "Ωmega", LNumber 1); (LNumber 1, LString "first");
   (LString "", LString "empty");
   (LString "hooks", LTable 6 [(LString "after_connect", LString "uptime")]);
   (LString "tags", LTable 7 [(LNumber 1, LString "a"); (LNumber 2, LString "b")])].

(** Keys that tell the first code point from the first byte: the lower-case
    a-umlaut and omega start with the bytes 0xC3 and 0xCF, which read as
    Latin-1 would be upper-case letters. *)
Definition configHostRunes : Table :=
  [(LString "User", LString "root"); (LString "user", LString "nobody");
   (LString "Ärger", LNumber 1); (LString "ärger", LNumber 2);
   (LString "Ωmega", LNumber 3); (LString "ωmega", LNumber 4);
   (LNumber 1, LString "first"); (LString "", LString "empty")].

Lemma registerHost_config_upper_keys_witness :
  wfTable configHostRunes ∧
  ∃ h, Hosts unit (worldOf (sampleRegisterHost "web" configHostRunes world0)) = [h] ∧
       Host.Config h
         = [(LString "User", LString "root"); (LString "Ärger", LNumber 1);
            (LString "Ωmega", LNumber 3)] ∧
       RawGet (Host.Config h) (LString "Ärger") = LNumber 1 ∧
       RawGet (Host.Config h) (LString "ärger") = LNil ∧
       RawGet (Host.Config h) (LString "Ωmega") = LNumber 3 ∧
       RawGet (Host.Config h) (LString "ωmega") = LNil ∧
       RawGet (Host.Config h) (LString "") = LNil.
Proof.
  assert (Hwf : wfTable configHostRunes)
    by (refine (bool_decide_unpack (wfTable configHostRunes) _);
        vm_compute; exact I).
  split; [exact Hwf|].
  destruct (registerHost_config_upper_keys sampleUpper samplePointer unit
              "web" configHostRunes world0
              (worldOf (sampleRegisterHost "web" configHostRunes world0)) [] Hwf)
    as (h & Hh & Hc & _ & _ & Hr & He).
  { vm_compute. reflexivity. }
  assert (Hvalid : ∀ r, 0 ≤ r ≤ 0x3FF → validRune r)
    by (intros r Hr'; split; lia).
  exists h. split_and!.
  - exact Hh.
  - rewrite Hc. vm_compute. reflexivity.
  - exact (Hr 0xC4 "rger" (Hvalid 0xC4 ltac:(lia))).
  - exact (Hr 0xE4 "rger" (Hvalid 0xE4 ltac:(lia))).
  - exact (Hr 0x3A9 "mega" (Hvalid 0x3A9 ltac:(lia))).
  - exact (Hr 0x3C9 "mega" (Hvalid 0x3C9 ltac:(lia))).
  - exact He.
Defined.

Definition configHookFn : Table :=
  [(LString "hooks",
    LTable 6 [(LString "before", LFunction 8);
              (LString "after_connect", LFunction 9)])].

Lemma registerHost_after_connect_witness :
  (∃ h, Hosts unit (worldOf (sampleRegisterHost "web" configHost world0)) = [h] ∧
        Host.Hooks h !! "after_connect" = Some (RemoteCommand "uptime")) ∧
  sampleRegisterHost "web" configHookFn world0
    = Aborted unit () (Panic (Errorf "invalid hook type %v" [LFunction 9]))
        world0 [].
Proof.
  split.
  - destruct (registerHost_after_connect sampleUpper samplePointer unit
                "web" configHost world0) as (_ & _ & Hbuilt & _).
    destruct (Hbuilt (worldOf (sampleRegisterHost "web" configHost world0)) [])
      as (h & Hh & _ & Hs).
    { vm_compute. reflexivity. }
    exists h. split; [exact Hh|].
    apply (Hs 6%positive [(LString "after_connect", LString "uptime")]);
      reflexivity.
  - destruct (registerHost_after_connect sampleUpper samplePointer unit
                "web" configHookFn world0) as (_ & _ & _ & Hfn).
    destruct (Hfn 6%positive
                [(LString "before", LFunction 8);
                 (LString "after_connect", LFunction 9)] 9%positive
                eq_refl eq_refl) as (x & Hrun & Hx).
    rewrite (Hx eq_refl eq_refl) in Hrun. exact Hrun.
Defined.

Definition configTags : Table :=
  [(LString "tags", LTable 7 [(LNumber 1, LString "a"); (LNumber 2, LString "b")])].

Definition configTagsNumber : Table :=
  [(LString "tags", LTable 7 [(LNumber 1, LString "a"); (LNumber 2, LNumber 2)])].

Definition configBadHookAndTags : Table :=
  [(LString "hooks", LTable 6 [(LString "before", LNumber 1)]);
   (LString "tags", LTable 7 [(LNumber 1, LString "a"); (LNumber 2, LNumber 2)])].

Lemma registerHost_tags_witness :
  (∃ h, sampleRegisterHost "web" configTags world0
          = Returned unit () tt (setHosts unit world0 [h]) [] ∧
        Host.Tags h = ["a"; "b"]) ∧
  sampleRegisterHost "web" configTagsNumber world0
    = Aborted unit () (RaiseError "unsupported format of tags." []) world0 [] ∧
  ∃ x, sampleRegisterHost "web" configBadHookAndTags world0
         = Aborted unit () (Panic (Errorf "invalid hook type %v" [x])) world0 [].
Proof.
  split_and!.
  - destruct (registerHost_tags sampleUpper samplePointer unit "web" configTags
                world0 7%positive
                [(LNumber 1, LString "a"); (LNumber 2, LString "b")] eq_refl)
      as [_ Hok].
    destruct (Hok eq_refl) as [_ Hall]. apply (Hall ["a"; "b"]). reflexivity.
  - destruct (registerHost_tags sampleUpper samplePointer unit "web"
                configTagsNumber world0 7%positive
                [(LNumber 1, LString "a"); (LNumber 2, LNumber 2)] eq_refl)
      as [_ Hok].
    destruct (Hok eq_refl) as [Hbad _]. apply Hbad.
    exists (LNumber 2), (LNumber 2). split_and!; [|discriminate|discriminate].
    apply list_elem_of_further, list_elem_of_here.
  - destruct (registerHost_tags sampleUpper samplePointer unit "web"
                configBadHookAndTags world0 7%positive
                [(LNumber 1, LString "a"); (LNumber 2, LNumber 2)] eq_refl)
      as [Hhooks _].
    apply Hhooks. reflexivity.
Defined.

(** C8 as stated fails: the tags table holds a number here, and the error
    is the panic of the hook registration, which comes first. *)
Lemma registerHost_tags_preempted :
  RawGetString configBadHookAndTags "tags"
    = LTable 7 [(LNumber 1, LString "a"); (LNumber 2, LNumber 2)] ∧
  sampleRegisterHost "web" configBadHookAndTags world0
    = Aborted unit () (Panic (Errorf "invalid hook type %v" [LNumber 1]))
        world0 [] ∧
  sampleRegisterHost "web" configBadHookAndTags world0
    ≠ Aborted unit () (RaiseError "unsupported format of tags." []) world0 [].
Proof.
  split_and!; try reflexivity. intros H. vm_compute in H. discriminate H.
Qed.

(** * Sample runs of the rest of lualib.go *)

(** Function values get the address after the size of the stack. *)
Definition sampleNewFunction (fn : GoClosure) (w : World unit) : ptr :=
  Pos.of_succ_nat (length (stack unit w)).

Definition sampleHost : M unit nat :=
  esshHost sampleUpper samplePointer unit sampleNewFunction.

Definition sampleTask : M unit nat :=
  esshTask samplePointer sampleSprint unit "[remote] " "[local] " sampleNewFunction.

Definition sampleClosure : GoClosure → M unit nat :=
  callGoClosure sampleUpper samplePointer sampleSprint unit "[remote] " "[local] ".

Definition worldArgs (args : list LValue) : World unit := setStack unit world0 args.

(** ** Host and Task, both styles *)

Lemma esshHost_styles_agree_witness :
  argString samplePointer (LString "web") = Some "web" ∧
  ∃ r : Abort + Host.t,
    sampleHost (worldArgs [LString "web"; LTable 10 configTags])
      = appendsHost unit r 0%nat (worldArgs [LString "web"; LTable 10 configTags]) ∧
    sampleClosure (HostDSL "web") (worldArgs [LTable 10 configTags])
      = appendsHost unit r 0%nat (worldArgs [LTable 10 configTags]) ∧
    sampleHost (worldArgs [LString "web"])
      = Returned unit nat 1%nat (worldArgs [LString "web"; LFunction 2]) [].
Proof.
  split; [reflexivity|].
  destruct (esshHost_styles_agree sampleUpper samplePointer sampleSprint unit
              "[remote] " "[local] " sampleNewFunction (LString "web") "web"
              10%positive configTags eq_refl) as (r & H1 & H2 & H3).
  exists r. split_and!.
  - exact (H1 (worldArgs [LString "web"; LTable 10 configTags]) eq_refl).
  - exact (H2 (worldArgs [LTable 10 configTags]) eq_refl).
  - exact (H3 (worldArgs [LString "web"]) eq_refl).
Defined.

Lemma esshTask_styles_agree_witness :
  argString samplePointer (LString "deploy") = Some "deploy" ∧
  ∃ r : Abort + Task.t,
    sampleTask (worldArgs [LString "deploy"; LTable 11 configPrepareFn])
      = appendsTask unit r 0%nat
          (worldArgs [LString "deploy"; LTable 11 configPrepareFn]) ∧
    sampleClosure (TaskDSL "deploy") (worldArgs [LTable 11 configPrepareFn])
      = appendsTask unit r 0%nat (worldArgs [LTable 11 configPrepareFn]) ∧
    sampleTask (worldArgs [LString "deploy"])
      = Returned unit nat 1%nat (worldArgs [LString "deploy"; LFunction 2]) [].
Proof.
  split; [reflexivity|].
  destruct (esshTask_styles_agree sampleUpper samplePointer sampleSprint unit
              "[remote] " "[local] " sampleNewFunction (LString "deploy")
              "deploy" 11%positive configPrepareFn eq_refl) as (r & H1 & H2 & H3).
  exists r. split_and!.
  - exact (H1 (worldArgs [LString "deploy"; LTable 11 configPrepareFn]) eq_refl).
  - exact (H2 (worldArgs [LTable 11 configPrepareFn]) eq_refl).
  - exact (H3 (worldArgs [LString "deploy"]) eq_refl).
Defined.

(** Three arguments: the table is ignored and a function comes back. *)
Definition worldThreeArgs : World unit :=
  worldArgs [LString "web"; LTable 10 configTags; LNil].

Lemma entry_points_other_arity_witness :
  length (stack unit worldThreeArgs) ≠ 2%nat ∧
  (sampleHost worldThreeArgs
     = Returned unit nat 1%nat
         (worldArgs [LString "web"; LTable 10 configTags; LNil; LFunction 4]) [] ∧
   sampleTask worldThreeArgs
     = Returned unit nat 1%nat
         (worldArgs [LString "web"; LTable 10 configTags; LNil; LFunction 4]) []) ∧
  length (stack unit (worldArgs [])) ≠ 2%nat ∧
  (sampleHost (worldArgs [])
     = Aborted unit nat (TypeError 1 "string") (worldArgs []) [] ∧
   sampleTask (worldArgs [])
     = Aborted unit nat (TypeError 1 "string") (worldArgs []) []).
Proof.
  split; [discriminate|]. split.
  - apply (entry_points_other_arity sampleUpper samplePointer sampleSprint unit
             "[remote] " "[local] " sampleNewFunction worldThreeArgs).
    discriminate.
  - split; [discriminate|].
    apply (entry_points_other_arity sampleUpper samplePointer sampleSprint unit
             "[remote] " "[local] " sampleNewFunction (worldArgs [])).
    discriminate.
Defined.

Lemma entry_points_type_errors_witness :
  (sampleHost (worldArgs [LBool true])
     = Aborted unit nat (TypeError 1 "string") (worldArgs [LBool true]) [] ∧
   sampleTask (worldArgs [LBool true])
     = Aborted unit nat (TypeError 1 "string") (worldArgs [LBool true]) []) ∧
  (sampleHost (worldArgs [LString "web"; LString "config"])
     = Aborted unit nat (TypeError 2 "table")
         (worldArgs [LString "web"; LString "config"]) [] ∧
   sampleTask (worldArgs [LString "web"; LString "config"])
     = Aborted unit nat (TypeError 2 "table")
         (worldArgs [LString "web"; LString "config"]) []).
Proof.
  split.
  - apply (entry_points_type_errors sampleUpper samplePointer sampleSprint unit
             "[remote] " "[local] " sampleNewFunction (worldArgs [LBool true])).
    reflexivity.
  - apply (entry_points_type_errors sampleUpper samplePointer sampleSprint unit
             "[remote] " "[local] " sampleNewFunction
             (worldArgs [LString "web"; LString "config"])) with (name := "web");
      reflexivity.
Defined.

(** ** The host built *)

Definition configHostFull : Table :=
  [(LString "HostName", LString "10.0.0.1"); (LString "port", LNumber 22);
   (LString "description", LString "web server"); (LString "hidden", LBool true);
   (LString "hooks",
    LTable 6 [(LString "before", LFunction 8);
              (LString "after_connect", LString "uptime");
              (LString "on_exit", LString "never stored")]);
   (LString "tags", LTable 7 [(LNumber 1, LString "a"); (LNumber 2, LString "b")])].

Definition worldHostFull : World unit :=
  worldOf (sampleRegisterHost "web" configHostFull world0).

Lemma sampleRegisterHost_full :
  registerHost sampleUpper samplePointer unit "web" configHostFull world0
    = Returned unit () tt worldHostFull [].
Proof. vm_compute. reflexivity. Defined.

Lemma registerHost_optional_fields_witness :
  ∃ h, Hosts unit worldHostFull = [h] ∧
       Host.Description h = "web server" ∧ Host.Hidden h = true ∧
       Host.Tags h = ["a"; "b"].
Proof.
  destruct (registerHost_optional_fields sampleUpper samplePointer unit "web"
              configHostFull world0 worldHostFull [] sampleRegisterHost_full)
    as (h & Hh & Hd & Hhid & Ht).
  exists h. split_and!; [exact Hh|exact Hd|exact Hhid|exact Ht].
Defined.

Lemma registerHost_hooks_witness :
  ∃ h, Hosts unit worldHostFull = [h] ∧
       Host.Hooks h !! "before" = Some (NativeCallback 8) ∧
       Host.Hooks h !! "after_connect" = Some (RemoteCommand "uptime") ∧
       Host.Hooks h !! "after" = None ∧
       Host.Hooks h !! "on_exit" = None.
Proof.
  destruct (registerHost_hooks sampleUpper samplePointer unit "web"
              configHostFull world0 worldHostFull [] sampleRegisterHost_full)
    as (h & Hh & Hk).
  exists h. split_and!; [exact Hh|..]; rewrite Hk; reflexivity.
Defined.

Lemma registerHost_config_only_upper_strings_witness :
  ∃ h, Hosts unit worldHostFull = [h] ∧
       ∀ k v, (k, v) ∈ Host.Config h →
              (k, v) ∈ configHostFull ∧ v ≠ LNil ∧
              ∃ s, k = LString s ∧ IsUpper sampleUpper (firstChar s) = true.
Proof.
  exact (registerHost_config_only_upper_strings sampleUpper samplePointer unit
           "web" configHostFull world0 worldHostFull [] sampleRegisterHost_full).
Defined.

Lemma registerHost_config_ascii_keys_witness :
  wfTable configHostFull ∧
  (∃ h, Hosts unit worldHostFull = [h] ∧
        RawGet (Host.Config h) (LString "HostName") = LString "10.0.0.1") ∧
  (∃ h, Hosts unit worldHostFull = [h] ∧
        RawGet (Host.Config h) (LString "port") = LNil).
Proof.
  assert (Hwf : wfTable configHostFull)
    by (refine (bool_decide_unpack (wfTable configHostFull) _);
        vm_compute; exact I).
  split; [exact Hwf|]. split.
  - exact (registerHost_config_ascii_keys sampleUpper samplePointer unit "web"
             configHostFull world0 worldHostFull [] (Ascii.ascii_of_nat 72) "ostName" Hwf
             sampleRegisterHost_full eq_refl).
  - exact (registerHost_config_ascii_keys sampleUpper samplePointer unit "web"
             configHostFull world0 worldHostFull [] (Ascii.ascii_of_nat 112) "ort" Hwf
             sampleRegisterHost_full eq_refl).
Defined.

(** ** The task built *)

Definition configTaskFull : Table :=
  [(LString "description", LString "roll out"); (LString "pty", LBool true);
   (LString "script", LString "uptime");
   (LString "on",
    LTable 5 (arrayTable [LString "web1"; LNumber 7; LString "web2"]));
   (LString "prefix", LBool true); (LString "prepare", LFunction 3)].

Definition worldTaskFull : World unit :=
  worldOf (sampleRegisterTask "deploy" configTaskFull world0).

Lemma sampleRegisterTask_full :
  registerTask sampleSprint unit "[remote] " "[local] " "deploy" configTaskFull
    world0
    = Returned unit () tt worldTaskFull [].
Proof. vm_compute. reflexivity. Defined.

Lemma registerTask_fields_witness :
  ∃ t, Tasks unit worldTaskFull = [t] ∧ Task.Name t = "deploy" ∧
       Task.Description t = "roll out" ∧ Task.Pty t = true ∧
       Task.Parallel t = false ∧ Task.Privileged t = false ∧
       Task.Script t = "uptime" ∧ Task.File t = "" ∧
       Task.On t = ["web1"; "web2"] ∧ Task.Foreach t = [] ∧
       Task.Prepare t = Some 3%positive.
Proof.
  exact (registerTask_fields sampleSprint unit "[remote] " "[local] " "deploy"
           configTaskFull world0 worldTaskFull [] sampleRegisterTask_full).
Defined.

Lemma registerTask_prefix_witness :
  ∃ t, Tasks unit worldTaskFull = [t] ∧
       Task.Prefix t = if Task.IsRemoteTask t then "[remote] " else "[local] ".
Proof.
  exact (registerTask_prefix sampleSprint unit "[remote] " "[local] " "deploy"
           configTaskFull world0 worldTaskFull [] sampleRegisterTask_full).
Defined.

Lemma registerTask_succeeds_iff_witness :
  (∃ w' calls, sampleRegisterTask "deploy" configTaskFull world0
                 = Returned unit () tt w' calls) ∧
  ¬ (∃ w' calls, sampleRegisterTask "t" configPrepareNumber world0
                   = Returned unit () tt w' calls).
Proof.
  split.
  - apply (registerTask_succeeds_iff sampleSprint unit "[remote] " "[local] "
             "deploy" configTaskFull world0).
    split_and!; [left; reflexivity|right; reflexivity|].
    right. exists 3%positive. reflexivity.
  - intros H.
    apply (registerTask_succeeds_iff sampleSprint unit "[remote] " "[local] "
             "t" configPrepareNumber world0) in H.
    destruct H as (_ & _ & [H|[fn H]]); discriminate H.
Defined.

Lemma registerTask_targets_witness :
  ∃ t, Tasks unit worldTaskFull = [t] ∧ Task.On t = ["web1"; "web2"].
Proof.
  destruct (registerTask_targets sampleSprint unit "[remote] " "[local] "
              "deploy" configTaskFull world0 worldTaskFull []
              sampleRegisterTask_full) as (t & Ht & _ & _ & Hon & _).
  exists t. split; [exact Ht|].
  apply (Hon 5%positive [LString "web1"; LNumber 7; LString "web2"] eq_refl).
  repeat apply List.Forall_cons; try discriminate. apply List.Forall_nil.
Defined.

(** ** Conversions *)

Lemma toGoValue_arrayTable_witness :
  Forall (λ v, v ≠ LNil) [LString "a"; LBool true] ∧
  toGoValue sampleSprint (LTable 1 (arrayTable [LString "a"; LBool true]))
    = GoSlice [GoString "a"; GoBool true].
Proof.
  assert (HF : Forall (λ v, v ≠ LNil) [LString "a"; LBool true]).
  { repeat apply List.Forall_cons; try discriminate. apply List.Forall_nil. }
  split; [exact HF|].
  exact (toGoValue_arrayTable sampleSprint 1%positive
           [LString "a"; LBool true] HF).
Defined.

Lemma toGoValue_opaque_witness :
  toGoValue sampleSprint (LUserData 4) = GoLValue (LUserData 4) ∧
  toGoValue sampleSprint (LString "f") ≠ GoLValue (LString "f").
Proof.
  split.
  - apply (toGoValue_opaque sampleSprint (LUserData 4) (LUserData 4)).
    split; [reflexivity|exact I].
  - intros H.
    apply (toGoValue_opaque sampleSprint (LString "f") (LString "f")) in H.
    exact (proj2 H).
Defined.

(** Two keys that print the same: the boolean true and the string "true". *)
Definition tableTrueTwice : Table :=
  [(LString "true", LNumber 1); (LString "x", LNil); (LBool true, LString "last")].

Lemma toGoValue_mapping_last_wins_witness :
  MaxN tableTrueTwice = 0%nat ∧
  ∃ m, toGoValue sampleSprint (LTable 1 tableTrueTwice) = GoMap m ∧
       m !! "true" = Some (GoString "last") ∧ m !! "x" = None.
Proof.
  split; [reflexivity|].
  destruct (toGoValue_mapping_last_wins sampleSprint 1%positive tableTrueTwice
              eq_refl) as (m & Hm & Hk).
  exists m. split_and!; [exact Hm|..]; rewrite Hk; reflexivity.
Defined.

Lemma toGoValue_string_keys_witness :
  wfTable configFileScript ∧
  ∃ m, toGoValue sampleSprint (LTable 1 configFileScript) = GoMap m ∧
       m !! "file" = Some (GoString "deploy.sh") ∧ m !! "on" = None.
Proof.
  assert (Hwf : wfTable configFileScript)
    by (refine (bool_decide_unpack (wfTable configFileScript) _);
        vm_compute; exact I).
  split; [exact Hwf|].
  destruct (toGoValue_string_keys sampleSprint 1%positive configFileScript Hwf)
    as (m & Hm & Hk).
  { repeat apply List.Forall_cons; try (eexists; reflexivity).
    apply List.Forall_nil. }
  exists m. split_and!; [exact Hm|..]; rewrite Hk; reflexivity.
Defined.

(** ** require: failures and the registry *)

Definition sampleStatMissing (path : string) (e : unit) : option error :=
  Some (Foreign "no such file or directory").

Definition sampleRequireMissing : M unit nat :=
  esshRequire samplePointer unit sampleLoad sampleIndexFile sampleStatMissing
    sampleDoFile.

Lemma sampleRequireMissing_run :
  esshRequire samplePointer unit sampleLoad sampleIndexFile sampleStatMissing
    sampleDoFile worldM
    = Aborted unit nat
        (RaiseError "Could not load essh module: %v"
           [Foreign "no such file or directory"])
        worldM [CallLoad "m" false; CallStat "m/index.lua"].
Proof. vm_compute. reflexivity. Defined.

(** A script that fails to evaluate. *)
Definition sampleDoFileFails (path : string) (w : World unit) : DoFileResult unit :=
  DoFileError unit (Foreign "syntax error") w.

Lemma sampleRequireFails_run :
  esshRequire samplePointer unit sampleLoad sampleIndexFile sampleStat
    sampleDoFileFails worldM
    = Aborted unit nat (RaiseError "%v" [Foreign "syntax error"]) worldM
        [CallLoad "m" false; CallStat "m/index.lua"; CallDoFile "m/index.lua"].
Proof. vm_compute. reflexivity. Defined.

Lemma esshRequire_failures_witness :
  stack unit worldM = [LString "m"] ∧
  sampleRequireMissing worldM
    = Aborted unit nat
        (RaiseError "Could not load essh module: %v"
           [Foreign "no such file or directory"])
        worldM [CallLoad "m" false; CallStat "m/index.lua"] ∧
  LoadedModules unit worldM !! "m" = None ∧
  (∃ err, sampleStatMissing "m/index.lua" tt = Some err ∧
          RaiseError "Could not load essh module: %v"
            [Foreign "no such file or directory"]
            = RaiseError "Could not load essh module: %v" [err]) ∧
  (∃ err w2, sampleStat "m/index.lua" tt = None ∧
             sampleDoFileFails "m/index.lua" worldM = DoFileError unit err w2 ∧
             RaiseError "%v" [Foreign "syntax error"] = RaiseError "%v" [err]).
Proof.
  split; [reflexivity|]. split; [exact sampleRequireMissing_run|].
  destruct (esshRequire_failures samplePointer unit sampleLoad
              sampleIndexFile sampleStatMissing sampleDoFile "m" worldM
              worldM _ _ eq_refl sampleRequireMissing_run)
    as (Hnone & [(err & _ & _ & Hc & _)
                |[(err & _ & Hstat & He & _)|(err & w2 & _ & _ & _ & _ & Hc & _)]]);
    [discriminate Hc| |discriminate Hc].
  split; [exact Hnone|]. split; [exists err; split; [exact Hstat|exact He]|].
  destruct (esshRequire_failures samplePointer unit sampleLoad
              sampleIndexFile sampleStat sampleDoFileFails "m" worldM
              worldM _ _ eq_refl sampleRequireFails_run)
    as (_ & [(err' & _ & _ & Hc & _)
            |[(err' & _ & _ & _ & Hc & _)
             |(err' & w2 & _ & Hstat' & Hdo & He' & _)]]);
    [discriminate Hc|discriminate Hc|].
  exists err', w2. split; [exact Hstat'|]. split; [exact Hdo|exact He'].
Defined.

Lemma esshRequire_retries_after_failure_witness :
  evaluations [CallLoad "m" false; CallStat "m/index.lua"] = 0%nat ∧
  head (callsOf (sampleRequireMissing worldM)) = Some (CallLoad "m" false).
Proof.
  split; [reflexivity|].
  destruct (esshRequire_retries_after_failure samplePointer unit sampleLoad
              sampleIndexFile sampleStatMissing sampleDoFile "m" worldM
              worldM _ _ eq_refl sampleRequireMissing_run eq_refl)
    as [_ Hnext].
  exact (Hnext worldM eq_refl eq_refl).
Defined.

Lemma sampleRequire_run :
  esshRequire samplePointer unit sampleLoad sampleIndexFile sampleStat
    sampleDoFile worldM
    = Returned unit nat 1%nat (worldOf (sampleRequire worldM))
        [CallLoad "m" false; CallStat "m/index.lua"; CallDoFile "m/index.lua"].
Proof. vm_compute. reflexivity. Defined.

Lemma esshRequire_writes_one_entry_witness :
  ∃ v, last (stack unit (worldOf (sampleRequire worldM))) = Some v ∧
       LoadedModules unit (worldOf (sampleRequire worldM)) !! "m"
         = Some (Module.mk "m" v) ∧
       Hosts unit (worldOf (sampleRequire worldM)) = [].
Proof.
  destruct (esshRequire_writes_one_entry samplePointer unit sampleLoad
              sampleIndexFile sampleStat sampleDoFile "m" worldM _ _ _
              eq_refl sampleRequire_run) as (v & Hv & H).
  change (LoadedModules unit worldM) with (∅ : gmap string Module.t) in H.
  rewrite lookup_empty in H. destruct H as (rets & w2 & Hdo & Hlm & Hh & _).
  exists v. split_and!; [exact Hv| |].
  - rewrite Hlm. apply lookup_insert_eq.
  - rewrite Hh. injection Hdo as _ <-. reflexivity.
Defined.

Definition worldCached : World unit :=
  setStack unit (worldOf (sampleRequire worldM)) [LString "m"].

Lemma esshRequire_after_reset_witness :
  LoadedModules unit worldCached !! "m" = Some (Module.mk "m" (LString "loaded")) ∧
  ∃ w1, esshReset unit worldCached = Returned unit nat 0%nat w1 [] ∧
        Hosts unit w1 = [] ∧ Tasks unit w1 = [] ∧
        sampleRequire w1
          = Returned unit nat 1%nat
              (setStack unit w1 [LString "m"; LString "loaded"]) [].
Proof.
  assert (Hm : LoadedModules unit worldCached !! "m"
               = Some (Module.mk "m" (LString "loaded")))
    by (vm_compute; reflexivity).
  split; [exact Hm|].
  exact (esshRequire_after_reset samplePointer unit sampleLoad sampleIndexFile
           sampleStat sampleDoFile "m" worldCached _ eq_refl Hm).
Defined.

(** ** The TaskContext userdata *)

(** Userdata 1 and 2 point to the TaskContext at 5; userdata 3 holds
    something else. *)
Definition sampleBridge (args : list LValue) : Bridge unit :=
  mkBridge unit (worldArgs args)
    (<[1%positive := mkUserData (TaskContextPtr 5) LNil]>
       (<[2%positive := mkUserData (TaskContextPtr 5) LNil]>
          (<[3%positive := mkUserData OtherValue LNil]> ∅)))
    (<[5%positive := {| Payload := "old" |}]> ∅)
    ∅.

Definition samplePayload : MB unit nat := taskContextPayload samplePointer unit.

Definition bridgeOf {A} (r : Result unit A) : Bridge unit :=
  match r with Done _ _ _ b => b | Failed _ _ _ b => b end.

Lemma taskContextPayload_round_trip_witness :
  ∃ b1, samplePayload (sampleBridge [LUserData 1; LString "new"])
          = Done unit nat 0%nat b1 ∧
        samplePayload (setWorld unit b1 (worldArgs [LUserData 2]))
          = Done unit nat 1%nat
              (setWorld unit b1 (worldArgs [LUserData 2; LString "new"])).
Proof.
  destruct (taskContextPayload_round_trip samplePointer unit
              (sampleBridge [LUserData 1; LString "new"]) 1%positive 2%positive
              5%positive (LString "new") "new" eq_refl eq_refl eq_refl eq_refl)
    as (b1 & Hrun & _ & _ & Hread).
  { exists {| Payload := "old" |}. reflexivity. }
  exists b1. split; [exact Hrun|].
  exact (Hread (setWorld unit b1 (worldArgs [LUserData 2]))
           eq_refl eq_refl eq_refl).
Defined.

Lemma taskContextPayload_reads_unless_two_arguments_witness :
  samplePayload (sampleBridge [LUserData 1; LString "new"; LString "more"])
    = Done unit nat 1%nat
        (sampleBridge [LUserData 1; LString "new"; LString "more"; LString "old"]).
Proof.
  apply (taskContextPayload_reads_unless_two_arguments samplePointer unit
           (sampleBridge [LUserData 1; LString "new"; LString "more"])
           1%positive 5%positive {| Payload := "old" |}
           [LString "new"; LString "more"]);
    [reflexivity|discriminate|reflexivity|reflexivity].
Defined.

Lemma samplePayload_write :
  taskContextPayload samplePointer unit
    (sampleBridge [LUserData 1; LString "new"])
    = Done unit nat 0%nat
        (bridgeOf (samplePayload (sampleBridge [LUserData 1; LString "new"]))).
Proof. vm_compute. reflexivity. Defined.

Lemma taskContextPayload_frame_witness :
  let b := sampleBridge [LUserData 1; LString "new"] in
  let b' := bridgeOf (samplePayload b) in
  userdata unit b' = userdata unit b ∧ world unit b' = world unit b ∧
  dom (contexts unit b') = dom (contexts unit b).
Proof.
  intros b b'.
  destruct (taskContextPayload_frame samplePointer unit b b' 0%nat
              samplePayload_write)
    as (Hu & _ & _ & _ & _ & ud & ctx & _ & _ & [H|H]).
  - destruct H as (_ & _ & Hw & Hd & _). split_and!; [exact Hu|exact Hw|exact Hd].
  - destruct H as (H & _). discriminate H.
Defined.

Lemma samplePayload_other_value :
  taskContextPayload samplePointer unit (sampleBridge [LUserData 3])
    = Failed unit nat (ArgError 1 "TaskContext expected")
        (bridgeOf (samplePayload (sampleBridge [LUserData 3]))).
Proof. vm_compute. reflexivity. Defined.

Lemma taskContextPayload_failures_witness :
  bridgeOf (samplePayload (sampleBridge [LUserData 3])) = sampleBridge [LUserData 3].
Proof.
  exact (proj1 (taskContextPayload_failures samplePointer unit
                  (sampleBridge [LUserData 3]) _ _ samplePayload_other_value)).
Defined.
